(** * PredictiveEdge: rating pass, form window, feature rows, odds and backtest

    A shallow embedding of the temporal pipeline of the predictor
    ([src/feature_engineering.py], [src/predict.py], [src/backtesting.py],
    [src/training.py], [src/database.py], [src/config.py]).

    Numbers.  Python [int] is [Z].  A Python [float] is idealised as an exact
    number: ratings, which go through [10 ** x], are real numbers ([R], with
    [Rpower]); every other float is produced from integers and column values
    by [+ - * /] only and is a rational ([Q]), which keeps the form window,
    the odds conversion and the backtest executable.  Rounding and overflow
    of binary64 (and with them the [OverflowError] of [10 ** x]) are outside
    that model: a property that holds in it holds of the code up to
    rounding, and says so where rounding matters.  Where a claim turns on
    rounding, the arithmetic of the rating update is also given on binary64
    numbers ([elo_changes_b64]).

    Tables.  A table is the list of its rows in storage order.  A query
    enumerates rows in that order, [order_by] is a stable sort (rows that
    tie keep their order, where SQL leaves it open), [first()] and [limit]
    take a prefix.  A [datetime.date] is its day number.  Columns that no
    modelled function reads are left out of the records.  A data frame is
    the list of its rows; the frame [pd.DataFrame([])] of no rows has no
    columns, so that selecting a column of it raises [KeyError].

    Effects.  A function that can raise returns a [result] (an [outcome]
    in [src/predict.py], which has exceptions of its own); printing and
    the CSV export of the backtest are left out.  A fitted scaler with its
    model is the function from a row to the probabilities it gives; which
    artifact files exist is an argument of the functions that load them. *)

From Stdlib Require Import Floats.
From Stdlib Require Import ZArith QArith Qabs Reals Lra Lia List String Sorted.
From Stdlib Require Lqa.
From stdpp Require Import gmap list.

Import ListNotations.
Local Open Scope Z_scope.

(** ** Exceptions and the error monad *)

Inductive exn : Type :=
  | KeyError (key : Z)
  | KeyErrorStr (key : string)
  | TypeError
  | ZeroDivisionError.

Inductive result (A : Type) : Type :=
  | Ok (a : A)
  | Raise (e : exn).

Arguments Ok {A} a.
Arguments Raise {A} e.

#[global] Instance result_ret : MRet result := fun A a => Ok a.

#[global] Instance result_bind : MBind result := fun A B k r =>
  match r with
  | Ok a => k a
  | Raise e => Raise e
  end.

(** ** src/config.py *)

Definition ELO_INITIAL : Z := 1500.
Definition ELO_K_FACTOR : Z := 20.
Definition ELO_HOME_ADVANTAGE : Z := 100.
Definition ROLLING_WINDOW : nat := 10.
Definition TEST_SEASON : Z := 2024.
Definition VALUE_EDGE_THRESHOLD : Q := 3 # 100.

(** ** src/database.py: the schema *)

Module Team.
Record t : Type := mk {
  team_id : Z;
  team_name : string;
  abbreviation : string
}.
End Team.

Module Game.
Record t : Type := mk {
  game_id : string;
  date : Z;
  home_team_id : Z;
  away_team_id : Z;
  home_score : option Z;
  away_score : option Z;
  season : Z;
  home_team_pregame_elo : option R;
  away_team_pregame_elo : option R
}.
End Game.

Module TeamBoxScore.
Record t : Type := mk {
  game_id : string;
  team_id : Z;
  is_home : bool;
  fg_pct : Q;
  trb : Z;
  ast : Z;
  tov : Z;
  pts : Z;
  plus_minus : Z
}.
End TeamBoxScore.

Module Odds.
Record t : Type := mk {
  game_id : string;
  bookmaker : string;
  home_team_moneyline : option Z;
  away_team_moneyline : option Z
}.
End Odds.

Record Db : Type := mkDb {
  teams : list Team.t;
  games : list Game.t;
  team_box_scores : list TeamBoxScore.t;
  odds_table : list Odds.t
}.

(** ** Query combinators *)

Section Queries.
Context {A : Type}.

(** [order_by]: a stable insertion sort; [leb x y] says that [x] may stand
    before [y]. *)
Fixpoint insert_by (leb : A -> A -> bool) (x : A) (l : list A) : list A :=
  match l with
  | [] => [x]
  | y :: l' => if leb x y then x :: l else y :: insert_by leb x l'
  end.

Fixpoint order_by (leb : A -> A -> bool) (l : list A) : list A :=
  match l with
  | [] => []
  | x :: l' => insert_by leb x (order_by leb l')
  end.

(** [first()]. *)
Definition first (l : list A) : option A :=
  match l with
  | [] => None
  | x :: _ => Some x
  end.
End Queries.

(** [Game.date, Game.game_id] ascending; strings compare by code point. *)
Definition date_id_leb (g1 g2 : Game.t) : bool :=
  (Game.date g1 <? Game.date g2)
  || ((Game.date g1 =? Game.date g2)
      && String.leb (Game.game_id g1) (Game.game_id g2)).

(** [Game.date] ascending and [Game.date.desc()]. *)
Definition date_asc_leb (g1 g2 : Game.t) : bool := Game.date g1 <=? Game.date g2.
Definition date_desc_leb (g1 g2 : Game.t) : bool := Game.date g2 <=? Game.date g1.

(** ** src/feature_engineering.py: calculate_elo_ratings *)

(** [elo_ratings[k]] on a plain [dict]. *)
Definition dict_get (elo_ratings : gmap Z R) (k : Z) : result R :=
  match elo_ratings !! k with
  | Some v => Ok v
  | None => Raise (KeyError k)
  end.

(** The first loop: every team of the team table starts at [ELO_INITIAL]. *)
Definition init_elo_ratings (ts : list Team.t) : gmap Z R :=
  fold_left (fun m t => <[Team.team_id t := IZR ELO_INITIAL]> m) ts ∅.

Definition stamp (g : Game.t) (home_elo away_elo : R) : Game.t :=
  Game.mk (Game.game_id g) (Game.date g) (Game.home_team_id g)
    (Game.away_team_id g) (Game.home_score g) (Game.away_score g)
    (Game.season g) (Some home_elo) (Some away_elo).

Local Open Scope R_scope.

Definition expected_home_win_of (home_elo away_elo : R) : R :=
  let home_elo_with_advantage := home_elo + IZR ELO_HOME_ADVANTAGE in
  1 / (1 + Rpower 10 ((away_elo - home_elo_with_advantage) / 400)).

(** [(actual_home_score, actual_away_score)] of a finished game. *)
Definition actual_scores (hs aws : Z) : R * R :=
  if (hs >? aws)%Z then (1, 0)
  else if (hs <? aws)%Z then (0, 1)
  else (1 / 2, 1 / 2).

(** The body of the loop over the games: one game, from the rating table
    before it to the stamped game and the rating table after it. *)
Definition elo_game (elo_ratings : gmap Z R) (game : Game.t)
    : result (Game.t * gmap Z R) :=
  let home_team_id := Game.home_team_id game in
  let away_team_id := Game.away_team_id game in
  home_elo ← dict_get elo_ratings home_team_id;
  away_elo ← dict_get elo_ratings away_team_id;
  let game' := stamp game home_elo away_elo in
  let expected_home_win := expected_home_win_of home_elo away_elo in
  let expected_away_win := 1 - expected_home_win in
  match Game.home_score game, Game.away_score game with
  | Some hs, Some aws =>
      let '(actual_home_score, actual_away_score) := actual_scores hs aws in
      let home_elo_change :=
        IZR ELO_K_FACTOR * (actual_home_score - expected_home_win) in
      let away_elo_change :=
        IZR ELO_K_FACTOR * (actual_away_score - expected_away_win) in
      Ok (game',
          <[away_team_id := away_elo + away_elo_change]>
            (<[home_team_id := home_elo + home_elo_change]> elo_ratings))
  | _, _ => Ok (game', elo_ratings)
  end.

Fixpoint elo_loop (elo_ratings : gmap Z R) (gs : list Game.t)
    : result (list Game.t * gmap Z R) :=
  match gs with
  | [] => Ok ([], elo_ratings)
  | game :: rest =>
      '(game', elo_ratings') ← elo_game elo_ratings game;
      '(out, final) ← elo_loop elo_ratings' rest;
      Ok (game' :: out, final)
  end.

Local Close Scope R_scope.

(** The stamped objects are rows of the [games] table: committing writes
    each one back in place, found by its primary key. *)
Definition commit_games (stamped table : list Game.t) : list Game.t :=
  map (fun g =>
         match find (fun s => String.eqb (Game.game_id s) (Game.game_id g)) stamped with
         | Some s => s
         | None => g
         end) table.

Definition calculate_elo_ratings (db : Db) : result Db :=
  let elo_ratings := init_elo_ratings (teams db) in
  let gs := order_by date_id_leb (games db) in
  '(stamped, _) ← elo_loop elo_ratings gs;
  Ok (mkDb (teams db) (commit_games stamped (games db))
        (team_box_scores db) (odds_table db)).

(** ** src/feature_engineering.py: the form window *)

Definition is_completed (g : Game.t) : bool :=
  match Game.home_score g with
  | Some _ => true
  | None => false
  end.

(** [query(TeamBoxScore).join(Game)]: the pairs along the foreign key
    [team_box_scores.game_id -> games.game_id]. *)
Definition join_box_scores (bss : list TeamBoxScore.t) (gs : list Game.t)
    : list (TeamBoxScore.t * Game.t) :=
  flat_map (fun bs =>
    map (fun g => (bs, g))
      (List.filter (fun g => String.eqb (TeamBoxScore.game_id bs) (Game.game_id g)) gs))
    bss.

(** [query(Game).join(TeamBoxScore)]: the same pairs, one [Game] per pair. *)
Definition join_games (gs : list Game.t) (bss : list TeamBoxScore.t)
    : list (Game.t * TeamBoxScore.t) :=
  flat_map (fun g =>
    map (fun bs => (g, bs))
      (List.filter (fun bs => String.eqb (TeamBoxScore.game_id bs) (Game.game_id g)) bss))
    gs.

(** The [filter] shared by the form and the rest query. *)
Definition played_before (team_id game_date : Z)
    (bs : TeamBoxScore.t) (g : Game.t) : bool :=
  (TeamBoxScore.team_id bs =? team_id)
  && (Game.date g <? game_date)
  && is_completed g.

Record RollingAverages : Type := mkRolling {
  avg_pts_scored : Q;
  avg_pts_allowed : Q;
  avg_fg_pct : Q;
  avg_tov : Q;
  avg_plus_minus : Q;
  avg_rebounds : Q;
  avg_assists : Q
}.

(** [sum(...)] over integers and over floats. *)
Definition sumZ (l : list Z) : Z := fold_left Z.add l 0.
Definition sumQ (l : list Q) : Q := fold_left Qplus l (0 # 1)%Q.

(** [x or 0] on a nullable integer column. *)
Definition or_zero (o : option Z) : Z :=
  match o with
  | Some v => v
  | None => 0
  end.

(** [total / n if n > 0 else 0.0]. *)
Definition mean_or_zero (total : Q) (n : Z) : Q :=
  if 0 <? n then (total / inject_Z n)%Q else (0 # 1)%Q.

Definition rolling_box_scores (db : Db) (team_id game_date : Z) (window : nat)
    : list (TeamBoxScore.t * Game.t) :=
  take window
    (order_by (fun r1 r2 => date_desc_leb (snd r1) (snd r2))
       (List.filter (fun r => played_before team_id game_date (fst r) (snd r))
          (join_box_scores (team_box_scores db) (games db)))).

Definition get_rolling_averages (db : Db) (team_id game_date : Z) (window : nat)
    : RollingAverages :=
  let box_scores := rolling_box_scores db team_id game_date window in
  match box_scores with
  | [] => mkRolling (0 # 1) (0 # 1) (0 # 1) (0 # 1) (0 # 1) (0 # 1) (0 # 1)
  | _ :: _ =>
      let total_pts := sumZ (map (fun r => TeamBoxScore.pts (fst r)) box_scores) in
      let total_fg_pct := sumQ (map (fun r => TeamBoxScore.fg_pct (fst r)) box_scores) in
      let total_tov := sumZ (map (fun r => TeamBoxScore.tov (fst r)) box_scores) in
      let total_plus_minus :=
        sumZ (map (fun r => TeamBoxScore.plus_minus (fst r)) box_scores) in
      let total_rebounds := sumZ (map (fun r => TeamBoxScore.trb (fst r)) box_scores) in
      let total_assists := sumZ (map (fun r => TeamBoxScore.ast (fst r)) box_scores) in
      let n := Z.of_nat (length box_scores) in
      let total_pts_allowed :=
        fold_left (fun acc r =>
          if TeamBoxScore.is_home (fst r)
          then acc + or_zero (Game.away_score (snd r))
          else acc + or_zero (Game.home_score (snd r)))
          box_scores 0 in
      mkRolling
        (mean_or_zero (inject_Z total_pts) n)
        (mean_or_zero (inject_Z total_pts_allowed) n)
        (mean_or_zero total_fg_pct n)
        (mean_or_zero (inject_Z total_tov) n)
        (mean_or_zero (inject_Z total_plus_minus) n)
        (mean_or_zero (inject_Z total_rebounds) n)
        (mean_or_zero (inject_Z total_assists) n)
  end.

Definition h2h_games (db : Db) (team_id opponent_id game_date : Z) : list Game.t :=
  List.filter (fun g =>
    (((Game.home_team_id g =? team_id) && (Game.away_team_id g =? opponent_id))
     || ((Game.home_team_id g =? opponent_id) && (Game.away_team_id g =? team_id)))
    && (Game.date g <? game_date)
    && is_completed g)
    (games db).

(** The test of the loop body of [get_h2h_win_pct]: a game with a missing
    score is passed over, otherwise the game counts when [team_id] won it. *)
Definition h2h_is_win (team_id : Z) (g : Game.t) : bool :=
  match Game.home_score g, Game.away_score g with
  | Some hs, Some aws =>
      ((Game.home_team_id g =? team_id) && (hs >? aws))
      || ((Game.away_team_id g =? team_id) && (aws >? hs))
  | _, _ => false
  end.

Definition get_h2h_win_pct (db : Db) (team_id opponent_id game_date : Z) : Q :=
  let gs := h2h_games db team_id opponent_id game_date in
  match gs with
  | [] => (1 # 2)%Q
  | _ :: _ =>
      let wins :=
        fold_left (fun wins g => if h2h_is_win team_id g then wins + 1 else wins) gs 0 in
      let n := Z.of_nat (length gs) in
      if 0 <? n then (inject_Z wins / inject_Z n)%Q else (1 # 2)%Q
  end.

Definition rest_games (db : Db) (team_id game_date : Z) : list (Game.t * TeamBoxScore.t) :=
  order_by (fun r1 r2 => date_desc_leb (fst r1) (fst r2))
    (List.filter (fun r => played_before team_id game_date (snd r) (fst r))
       (join_games (games db) (team_box_scores db))).

Definition get_days_rest (db : Db) (team_id game_date : Z) : Z :=
  match first (rest_games db team_id game_date) with
  | None => 3
  | Some (last_game, _) =>
      let days_rest := game_date - Game.date last_game in
      Z.max 0 days_rest
  end.

(** ** src/feature_engineering.py: create_feature_set *)

Module FeatureRow.
Record t : Type := mk {
  game_id : string;
  team_id : Z;
  opponent_id : Z;
  is_home : Z;
  target_did_win : Z;
  target_win_margin : Z;
  team_elo : R;
  opponent_elo : R;
  elo_diff : R;
  avg_pts_scored_l10 : Q;
  avg_pts_allowed_l10 : Q;
  avg_fg_pct_l10 : Q;
  avg_tov_l10 : Q;
  avg_plus_minus_l10 : Q;
  avg_rebounds_l10 : Q;
  avg_assists_l10 : Q;
  opp_avg_pts_scored_l10 : Q;
  opp_avg_pts_allowed_l10 : Q;
  opp_avg_fg_pct_l10 : Q;
  opp_avg_tov_l10 : Q;
  opp_avg_plus_minus_l10 : Q;
  h2h_win_pct : Q;
  days_since_last_game : Z;
  opponent_days_since_last_game : Z;
  rest_advantage : Z;
  season : Z;
  date : Z
}.
End FeatureRow.

(** [x or ELO_INITIAL] on the nullable float column: [None] and [0.0] are
    both falsy. *)
Definition or_elo_initial (o : option R) : R :=
  match o with
  | Some r => if Req_dec_T r 0%R then IZR ELO_INITIAL else r
  | None => IZR ELO_INITIAL
  end.

(** The rows of one game: none when a score is missing, else the home row
    followed by the away row. *)
Definition game_rows (db : Db) (game : Game.t) : list FeatureRow.t :=
  match Game.home_score game, Game.away_score game with
  | Some hs, Some aws =>
      let home_won := if hs >? aws then 1 else 0 in
      let win_margin := hs - aws in
      let home_elo := or_elo_initial (Game.home_team_pregame_elo game) in
      let away_elo := or_elo_initial (Game.away_team_pregame_elo game) in
      let home_rolling :=
        get_rolling_averages db (Game.home_team_id game) (Game.date game) ROLLING_WINDOW in
      let away_rolling :=
        get_rolling_averages db (Game.away_team_id game) (Game.date game) ROLLING_WINDOW in
      let h2h_home :=
        get_h2h_win_pct db (Game.home_team_id game) (Game.away_team_id game) (Game.date game) in
      let h2h_away :=
        get_h2h_win_pct db (Game.away_team_id game) (Game.home_team_id game) (Game.date game) in
      let home_rest := get_days_rest db (Game.home_team_id game) (Game.date game) in
      let away_rest := get_days_rest db (Game.away_team_id game) (Game.date game) in
      let home_row :=
        FeatureRow.mk (Game.game_id game) (Game.home_team_id game) (Game.away_team_id game)
          1 home_won win_margin
          home_elo away_elo (home_elo - away_elo)%R
          (avg_pts_scored home_rolling) (avg_pts_allowed home_rolling)
          (avg_fg_pct home_rolling) (avg_tov home_rolling)
          (avg_plus_minus home_rolling) (avg_rebounds home_rolling)
          (avg_assists home_rolling)
          (avg_pts_scored away_rolling) (avg_pts_allowed away_rolling)
          (avg_fg_pct away_rolling) (avg_tov away_rolling)
          (avg_plus_minus away_rolling)
          h2h_home home_rest away_rest (home_rest - away_rest)
          (Game.season game) (Game.date game) in
      let away_row :=
        FeatureRow.mk (Game.game_id game) (Game.away_team_id game) (Game.home_team_id game)
          0 (1 - home_won) (- win_margin)
          away_elo home_elo (away_elo - home_elo)%R
          (avg_pts_scored away_rolling) (avg_pts_allowed away_rolling)
          (avg_fg_pct away_rolling) (avg_tov away_rolling)
          (avg_plus_minus away_rolling) (avg_rebounds away_rolling)
          (avg_assists away_rolling)
          (avg_pts_scored home_rolling) (avg_pts_allowed home_rolling)
          (avg_fg_pct home_rolling) (avg_tov home_rolling)
          (avg_plus_minus home_rolling)
          h2h_away away_rest home_rest (away_rest - home_rest)
          (Game.season game) (Game.date game) in
      [home_row; away_row]
  | _, _ => []
  end.

(** The games the loop of [create_feature_set] runs over. [if season_filter:]
    is false for [None] and for [0]. *)
Definition feature_games (db : Db) (season_filter : option Z) : list Game.t :=
  let query := List.filter is_completed (games db) in
  let query :=
    match season_filter with
    | Some s =>
        if s =? 0 then query
        else List.filter (fun g => Game.season g =? s) query
    | None => query
    end in
  order_by date_asc_leb query.

Definition create_feature_set (db : Db) (season_filter : option Z) : list FeatureRow.t :=
  flat_map (game_rows db) (feature_games db season_filter).

(** ** src/predict.py *)

Definition team_games_with_elo (db : Db) (team_id : Z) : list Game.t :=
  List.filter (fun g =>
    ((Game.home_team_id g =? team_id) || (Game.away_team_id g =? team_id))
    && match Game.home_team_pregame_elo g with Some _ => true | None => false end)
    (games db).

(** [True] when [team_id] won [g]: the test that selects [elo += 15]. *)
Definition team_won (team_id : Z) (g : Game.t) (hs aws : Z) : bool :=
  ((Game.home_team_id g =? team_id) && (hs >? aws))
  || ((Game.away_team_id g =? team_id) && (aws >? hs)).

(** The rating column [get_current_elo] reads from [recent_game]. *)
Definition pregame_elo_of (team_id : Z) (recent_game : Game.t) : option R :=
  if Game.home_team_id recent_game =? team_id
  then Game.home_team_pregame_elo recent_game
  else Game.away_team_pregame_elo recent_game.

(** [get_current_elo]. The query asks for a home stamp only, so the column
    read for an away team may be [None]: it is returned as it is for a game
    without result, and [elo += 15] or [elo -= 15] on it is a [TypeError]. *)
Definition get_current_elo (db : Db) (team_id : Z) : result (option R) :=
  match first (order_by date_desc_leb (team_games_with_elo db team_id)) with
  | None => Ok (Some (IZR ELO_INITIAL))
  | Some recent_game =>
      let elo := pregame_elo_of team_id recent_game in
      match Game.home_score recent_game, Game.away_score recent_game with
      | Some hs, Some aws =>
          match elo with
          | Some e =>
              if team_won team_id recent_game hs aws
              then Ok (Some (e + 15)%R)
              else Ok (Some (e - 15)%R)
          | None => Raise TypeError
          end
      | _, _ => Ok elo
      end
  end.

(** The entries [team_elo], [opponent_elo] and [elo_diff] of the feature
    dict of [generate_prediction], for the teams [get_team_by_name] found. *)
Definition prediction_elo_features (db : Db) (home_team_id away_team_id : Z)
    : result (option R * option R * R) :=
  home_elo ← get_current_elo db home_team_id;
  away_elo ← get_current_elo db away_team_id;
  match home_elo, away_elo with
  | Some h, Some a => Ok (home_elo, away_elo, (h - a)%R)
  | _, _ => Raise TypeError
  end.

(** ** src/backtesting.py *)

Definition moneyline_to_implied_prob (moneyline : Z) : Q :=
  if moneyline >? 0
  then (inject_Z 100 / inject_Z (moneyline + 100))%Q
  else (inject_Z (Z.abs moneyline) / inject_Z (Z.abs moneyline + 100))%Q.

Definition moneyline_to_payout (moneyline : Z) (bet_amount : Q) : result Q :=
  if moneyline >? 0
  then Ok (bet_amount * (1 + inject_Z moneyline / inject_Z 100))%Q
  else if Z.abs moneyline =? 0 then Raise ZeroDivisionError
  else Ok (bet_amount * (1 + inject_Z 100 / inject_Z (Z.abs moneyline)))%Q.

Inductive bet_result : Type := WIN | LOSS.

Module Bet.
Record t : Type := mk {
  game_id : string;
  team_id : Z;
  opponent_id : Z;
  is_home : Z;
  model_prob : Q;
  implied_prob : Q;
  edge : Q;
  moneyline : Z;
  result : bet_result;
  profit : Q
}.
End Bet.

Record Simulation : Type := mkSimulation {
  total_bets : Z;
  total_won : Z;
  total_lost : Z;
  win_rate : Q;
  total_profit : Q;
  roi : Q;
  bets_placed : list Bet.t
}.

(** [a > b] on floats. *)
Definition Qgtb (a b : Q) : bool := negb (Qle_bool a b).

(** The body of the loop that fills [odds_dict]: a new game gets an empty
    list first, then the quote is appended to the list of its game. *)
Definition odds_dict_append (odds_dict : gmap string (list Odds.t)) (o : Odds.t)
    : gmap string (list Odds.t) :=
  let odds_dict :=
    match odds_dict !! Odds.game_id o with
    | Some _ => odds_dict
    | None => <[Odds.game_id o := []]> odds_dict
    end in
  match odds_dict !! Odds.game_id o with
  | Some l => <[Odds.game_id o := l ++ [o]]> odds_dict
  | None => odds_dict
  end.

(** The odds lookup: the quotes of the test games ([game_id.in_(game_ids)]),
    grouped by game in query order. *)
Definition build_odds_dict (game_ids : list string) (odds : list Odds.t)
    : gmap string (list Odds.t) :=
  let odds_query :=
    List.filter (fun o => existsb (String.eqb (Odds.game_id o)) game_ids) odds in
  fold_left odds_dict_append odds_query ∅.

(** The accumulators of the betting loop. *)
Record Tally : Type := mkTally {
  t_total_bets : Z;
  t_total_won : Z;
  t_total_profit : Q;
  t_bets_placed : list Bet.t
}.

Section Backtest.
(** The classifier behind the scaler, as the win probability it gives a
    row: column 1 of [predict_proba]. *)
Variable model_win_proba : FeatureRow.t -> Q.

(** One turn of the loop over the test rows. *)
Definition simulate_row (odds_dict : gmap string (list Odds.t))
    (edge_threshold bet_amount : Q) (acc : Tally) (row : FeatureRow.t)
    : result Tally :=
  let game_id := FeatureRow.game_id row in
  let is_home := FeatureRow.is_home row in
  let actual_win := FeatureRow.target_did_win row in
  let model_prob := model_win_proba row in
  match odds_dict !! game_id with
  | None | Some [] => Ok acc
  | Some (odds :: _) =>
      let moneyline :=
        if negb (is_home =? 0) then Odds.home_team_moneyline odds
        else Odds.away_team_moneyline odds in
      match moneyline with
      | None => Ok acc
      | Some moneyline =>
          let implied_prob := moneyline_to_implied_prob moneyline in
          let edge := (model_prob - implied_prob)%Q in
          if Qgtb edge edge_threshold then
            let total_bets := t_total_bets acc + 1 in
            if actual_win =? 1 then
              payout ← moneyline_to_payout moneyline bet_amount;
              let profit := (payout - bet_amount)%Q in
              Ok (mkTally total_bets (t_total_won acc + 1)
                    (t_total_profit acc + profit)%Q
                    (t_bets_placed acc ++
                     [Bet.mk game_id (FeatureRow.team_id row)
                        (FeatureRow.opponent_id row) is_home model_prob
                        implied_prob edge moneyline WIN profit]))
            else
              let profit := (- bet_amount)%Q in
              Ok (mkTally total_bets (t_total_won acc)
                    (t_total_profit acc + profit)%Q
                    (t_bets_placed acc ++
                     [Bet.mk game_id (FeatureRow.team_id row)
                        (FeatureRow.opponent_id row) is_home model_prob
                        implied_prob edge moneyline LOSS profit]))
          else Ok acc
      end
  end.

Fixpoint simulate_rows (odds_dict : gmap string (list Odds.t))
    (edge_threshold bet_amount : Q) (acc : Tally) (rows : list FeatureRow.t)
    : result Tally :=
  match rows with
  | [] => Ok acc
  | row :: rest =>
      acc' ← simulate_row odds_dict edge_threshold bet_amount acc row;
      simulate_rows odds_dict edge_threshold bet_amount acc' rest
  end.

(** [features_df] is the frame that [create_feature_set] builds with
    [pd.DataFrame(rows)]: built from no row it has no column, and
    [features_df['season']] raises [KeyError]. [None] is the early
    [return None] on an empty test season. *)
Definition run_profitability_simulation (odds : list Odds.t)
    (features_df : list FeatureRow.t)
    (test_season : Z) (edge_threshold bet_amount : Q)
    : result (option Simulation) :=
  match features_df with
  | [] => Raise (KeyErrorStr "season")
  | _ :: _ =>
  let test_df :=
    List.filter (fun row => FeatureRow.season row =? test_season) features_df in
  match test_df with
  | [] => Ok None
  | _ :: _ =>
      let game_ids := map FeatureRow.game_id test_df in
      let odds_dict := build_odds_dict game_ids odds in
      acc ← simulate_rows odds_dict edge_threshold bet_amount
               (mkTally 0 0 (0 # 1) []) test_df;
      let total_bets := t_total_bets acc in
      let total_won := t_total_won acc in
      let total_profit := t_total_profit acc in
      let win_rate :=
        if 0 <? total_bets
        then (inject_Z total_won / inject_Z total_bets * inject_Z 100)%Q
        else (0 # 1)%Q in
      roi ←
        (if 0 <? total_bets then
           if Qeq_bool (inject_Z total_bets * bet_amount) (0 # 1)
           then Raise ZeroDivisionError
           else Ok (total_profit / (inject_Z total_bets * bet_amount)
                    * inject_Z 100)%Q
         else Ok (0 # 1)%Q);
      Ok (Some (mkSimulation total_bets total_won (total_bets - total_won)
                  win_rate total_profit roi (t_bets_placed acc)))
  end
  end.
End Backtest.

(** ** Quantities the properties speak of *)


(** The team ids of the team table. *)
Definition team_ids (db : Db) : list Z := map Team.team_id (teams db).

(** A game has a recorded result when both scores are present: the test
    that guards the rating update. *)
Definition has_result (g : Game.t) : bool :=
  match Game.home_score g, Game.away_score g with
  | Some _, Some _ => true
  | _, _ => false
  end.

(** [t] plays in [g]. *)
Definition plays_in (t : Z) (g : Game.t) : Prop :=
  Game.home_team_id g = t \/ Game.away_team_id g = t.

(** The rating table the pass leaves behind: for each team, the rating
    after the update of its last played game. *)
Definition ratings_after_pass (db : Db) : result (gmap Z R) :=
  '(_, final) ← elo_loop (init_elo_ratings (teams db))
                  (order_by date_id_leb (games db));
  Ok final.

(** What [get_current_elo] makes of the game it picked. *)
Definition nudged_stamp (team_id : Z) (g : Game.t) : result (option R) :=
  match Game.home_score g, Game.away_score g, pregame_elo_of team_id g with
  | Some hs, Some aws, Some e =>
      Ok (Some (if team_won team_id g hs aws then e + 15 else e - 15)%R)
  | Some _, Some _, None => Raise TypeError
  | _, _, elo => Ok elo
  end.

(** [inserted_rows P l l']: the table [l'] is the table [l] with rows that
    satisfy [P] inserted at any places. *)
Inductive inserted_rows {A : Type} (P : A -> Prop) : list A -> list A -> Prop :=
  | inserted_nil : inserted_rows P [] []
  | inserted_keep (x : A) (l l' : list A) :
      inserted_rows P l l' -> inserted_rows P (x :: l) (x :: l')
  | inserted_new (y : A) (l l' : list A) :
      P y -> inserted_rows P l l' -> inserted_rows P l (y :: l').

(** A game dated at or after the cutoff. *)
Definition dated_from (game_date : Z) (g : Game.t) : Prop :=
  game_date <= Game.date g.

(** The primary keys of the games table. *)
Definition game_ids (db : Db) : list string := map Game.game_id (games db).

(** The team has no box score on a completed game dated before the cutoff. *)
Definition no_prior_game (db : Db) (team_id game_date : Z) : Prop :=
  forall bs g,
    In bs (team_box_scores db) -> In g (games db) ->
    TeamBoxScore.game_id bs = Game.game_id g ->
    TeamBoxScore.team_id bs = team_id ->
    Game.date g < game_date ->
    Game.home_score g = None.

(** The two teams have no completed game against each other dated before
    the cutoff. *)
Definition no_prior_meeting (db : Db) (team_id opponent_id game_date : Z) : Prop :=
  forall g,
    In g (games db) ->
    (Game.home_team_id g = team_id /\ Game.away_team_id g = opponent_id)
    \/ (Game.home_team_id g = opponent_id /\ Game.away_team_id g = team_id) ->
    Game.date g < game_date ->
    Game.home_score g = None.

Definition zero_averages : RollingAverages :=
  mkRolling (0 # 1) (0 # 1) (0 # 1) (0 # 1) (0 # 1) (0 # 1) (0 # 1).

(** The games [create_feature_set] keeps for a season filter. *)
Definition season_selected (season_filter : option Z) (g : Game.t) : bool :=
  match season_filter with
  | Some s => (s =? 0) || (Game.season g =? s)
  | None => true
  end.

(** The rows of a feature set that come from the game with key [gid]. *)
Definition rows_of_game (gid : string) (rows : list FeatureRow.t) : list FeatureRow.t :=
  List.filter (fun r => String.eqb (FeatureRow.game_id r) gid) rows.

(** ** Sample data *)

Definition lakers : Team.t := Team.mk 1 "Los Angeles Lakers" "LAL".
Definition celtics : Team.t := Team.mk 2 "Boston Celtics" "BOS".

(** A finished game, Lakers at home against the Celtics, 110 to 102. *)
Definition lal_bos : Game.t :=
  Game.mk "2024-01-15-LAL-BOS" 738900 1 2 (Some 110) (Some 102) 2024 None None.

(** The return game, scheduled and not yet played. *)
Definition bos_lal_scheduled : Game.t :=
  Game.mk "2024-02-01-BOS-LAL" 738917 2 1 None None 2024 None None.

Definition league_db : Db := mkDb [lakers; celtics] [lal_bos] [] [].

(** A game log whose home team is missing from the team table. *)
Definition unregistered_db : Db := mkDb [celtics] [lal_bos] [] [].

(** The game table of [league_db] after the rating pass. *)
Definition league_db_rated : Db :=
  mkDb [lakers; celtics] [stamp lal_bos 1500 1500] [] [].

(** The rating table after the first game of the league. *)
Definition league_ratings : gmap Z R :=
  let e := expected_home_win_of 1500 1500 in
  <[2 := (1500 + 20 * (0 - (1 - e)))%R]>
    (<[1 := (1500 + 20 * (1 - e))%R]> (init_elo_ratings [lakers; celtics])).

(** A season with box scores, and the same season after the return game
    was played and recorded. *)
Definition lal_box : TeamBoxScore.t :=
  TeamBoxScore.mk "2024-01-15-LAL-BOS" 1 true (48 # 100) 44 27 12 110 8.
Definition bos_box : TeamBoxScore.t :=
  TeamBoxScore.mk "2024-01-15-LAL-BOS" 2 false (45 # 100) 40 22 14 102 (-8).

Definition bos_lal_played : Game.t :=
  Game.mk "2024-02-01-BOS-LAL" 738917 2 1 (Some 99) (Some 104) 2024 None None.
Definition bos_box_return : TeamBoxScore.t :=
  TeamBoxScore.mk "2024-02-01-BOS-LAL" 2 true (41 # 100) 39 20 15 99 (-5).
Definition lal_box_return : TeamBoxScore.t :=
  TeamBoxScore.mk "2024-02-01-BOS-LAL" 1 false (47 # 100) 46 25 11 104 5.

Definition season_db : Db :=
  mkDb [lakers; celtics] [lal_bos] [lal_box; bos_box] [].
Definition season_db_later : Db :=
  mkDb [lakers; celtics] [bos_lal_played; lal_bos]
    [lal_box; bos_box_return; bos_box; lal_box_return] [].

(** ** The backtest, in the words of the specification *)

(** The payout of section 4.4: for positive [m], [stake * (1 + m/100)]; for
    negative, [stake * (1 + 100/|m|)]. *)
Definition spec_payout (m : Z) (stake : Q) : Q :=
  if m >? 0
  then (stake * (1 + inject_Z m / inject_Z 100))%Q
  else (stake * (1 + inject_Z 100 / inject_Z (Z.abs m)))%Q.

(** The market quote of a row: the moneyline, on the side of the row, of the
    first quote of the row's game. *)
Definition spec_quote (odds : list Odds.t) (row : FeatureRow.t) : option Z :=
  match List.filter (fun o => String.eqb (Odds.game_id o) (FeatureRow.game_id row)) odds with
  | [] => None
  | o :: _ =>
      if FeatureRow.is_home row =? 0 then Odds.away_team_moneyline o
      else Odds.home_team_moneyline o
  end.

(** A bet is placed on a row when it has a quote and
    [edge = modelProb - impliedProb] exceeds the threshold. *)
Definition spec_places_bet (model_win_proba : FeatureRow.t -> Q) (odds : list Odds.t)
    (edge_threshold : Q) (row : FeatureRow.t) : bool :=
  match spec_quote odds row with
  | Some m => Qgtb (model_win_proba row - moneyline_to_implied_prob m) edge_threshold
  | None => false
  end.

Definition is_win (row : FeatureRow.t) : bool := FeatureRow.target_did_win row =? 1.

(** Profit of a placed bet: [payout - stake] on a win, [-stake] on a loss. *)
Definition spec_profit (odds : list Odds.t) (stake : Q) (row : FeatureRow.t) : Q :=
  match spec_quote odds row with
  | Some m => if is_win row then (spec_payout m stake - stake)%Q else (- stake)%Q
  | None => (0 # 1)%Q
  end.

(** The ledger line of a placed bet. *)
Definition spec_ledger_line (model_win_proba : FeatureRow.t -> Q) (odds : list Odds.t)
    (stake : Q) (row : FeatureRow.t) : Bet.t :=
  let m := match spec_quote odds row with Some m => m | None => 0 end in
  Bet.mk (FeatureRow.game_id row) (FeatureRow.team_id row)
    (FeatureRow.opponent_id row) (FeatureRow.is_home row)
    (model_win_proba row) (moneyline_to_implied_prob m)
    (model_win_proba row - moneyline_to_implied_prob m)%Q m
    (if is_win row then WIN else LOSS) (spec_profit odds stake row).

(** [wins/bets*100] and [totalProfit/(bets*stake)*100], 0 without bets. *)
Definition spec_win_rate (bets wins : Z) : Q :=
  if 0 <? bets then (inject_Z wins / inject_Z bets * inject_Z 100)%Q else (0 # 1)%Q.

Definition spec_roi (bets : Z) (profit stake : Q) : Q :=
  if 0 <? bets then (profit / (inject_Z bets * stake) * inject_Z 100)%Q else (0 # 1)%Q.

(** ** The three-row test set of the backtest *)

Definition test_row (gid : string) (team opponent is_home did_win : Z) : FeatureRow.t :=
  FeatureRow.mk gid team opponent is_home did_win 0 0%R 0%R 0%R
    (0 # 1) (0 # 1) (0 # 1) (0 # 1) (0 # 1) (0 # 1) (0 # 1)
    (0 # 1) (0 # 1) (0 # 1) (0 # 1) (0 # 1) (1 # 2) 3 3 0 2024 738900.

Definition row_a : FeatureRow.t := test_row "A" 1 2 1 1.
Definition row_b : FeatureRow.t := test_row "B" 3 4 0 0.
Definition row_c : FeatureRow.t := test_row "C" 5 6 1 1.

Definition test_odds : list Odds.t :=
  [ Odds.mk "A" "book" (Some (-150)) (Some 130);
    Odds.mk "B" "book" (Some (-140)) (Some 120);
    Odds.mk "C" "book" (Some 150) (Some (-170)) ].

(** Model probabilities giving the edges 0.05, 0.10 and 0.01. *)
Definition test_model (row : FeatureRow.t) : Q :=
  if String.eqb (FeatureRow.game_id row) "A" then (65 # 100)%Q
  else if String.eqb (FeatureRow.game_id row) "B" then (61 # 110)%Q
  else (41 # 100)%Q.

(** ** Quantities of the further properties *)

(** [g'] is the row [g] with the two rating stamps written. *)
Definition stamped_of (g g' : Game.t) : Prop :=
  exists rh ra : R, g' = stamp g rh ra.

(** ** src/training.py: the feature columns and the temporal split *)

(** [TRAIN_SEASONS = list(range(2010, 2023))] and [VAL_SEASON] of
    [src/config.py]. *)
Definition TRAIN_SEASONS : list Z := map (fun k => 2010 + Z.of_nat k) (seq 0 13).
Definition VAL_SEASON : Z := 2023.

(** One row of [df[FEATURE_COLUMNS]], and the [features] dict of
    [generate_prediction]: the twenty columns of [FEATURE_COLUMNS], in
    their order. *)
Module Features.
Record t : Type := mk {
  is_home : Z;
  team_elo : R;
  opponent_elo : R;
  elo_diff : R;
  avg_pts_scored_l10 : Q;
  avg_pts_allowed_l10 : Q;
  avg_fg_pct_l10 : Q;
  avg_tov_l10 : Q;
  avg_plus_minus_l10 : Q;
  avg_rebounds_l10 : Q;
  avg_assists_l10 : Q;
  opp_avg_pts_scored_l10 : Q;
  opp_avg_pts_allowed_l10 : Q;
  opp_avg_fg_pct_l10 : Q;
  opp_avg_tov_l10 : Q;
  opp_avg_plus_minus_l10 : Q;
  h2h_win_pct : Q;
  days_since_last_game : Z;
  opponent_days_since_last_game : Z;
  rest_advantage : Z
}.
End Features.

(** [df[FEATURE_COLUMNS]] on one row. *)
Definition feature_columns (row : FeatureRow.t) : Features.t :=
  Features.mk (FeatureRow.is_home row)
    (FeatureRow.team_elo row) (FeatureRow.opponent_elo row) (FeatureRow.elo_diff row)
    (FeatureRow.avg_pts_scored_l10 row) (FeatureRow.avg_pts_allowed_l10 row)
    (FeatureRow.avg_fg_pct_l10 row) (FeatureRow.avg_tov_l10 row)
    (FeatureRow.avg_plus_minus_l10 row) (FeatureRow.avg_rebounds_l10 row)
    (FeatureRow.avg_assists_l10 row)
    (FeatureRow.opp_avg_pts_scored_l10 row) (FeatureRow.opp_avg_pts_allowed_l10 row)
    (FeatureRow.opp_avg_fg_pct_l10 row) (FeatureRow.opp_avg_tov_l10 row)
    (FeatureRow.opp_avg_plus_minus_l10 row)
    (FeatureRow.h2h_win_pct row)
    (FeatureRow.days_since_last_game row)
    (FeatureRow.opponent_days_since_last_game row)
    (FeatureRow.rest_advantage row).

(** [split_data_temporally]: [(X_train, y_train, X_val, y_val, X_test,
    y_test)]. On the frame built from no row, which has no column,
    [features_df['season']] raises [KeyError]. *)
Definition split_data_temporally (features_df : list FeatureRow.t)
    : result (list Features.t * list Z * list Features.t * list Z
              * list Features.t * list Z) :=
  match features_df with
  | [] => Raise (KeyErrorStr "season")
  | _ :: _ =>
  let train_df :=
    List.filter (fun row => existsb (Z.eqb (FeatureRow.season row)) TRAIN_SEASONS)
      features_df in
  let val_df := List.filter (fun row => FeatureRow.season row =? VAL_SEASON) features_df in
  let test_df := List.filter (fun row => FeatureRow.season row =? TEST_SEASON) features_df in
  let X_train := map feature_columns train_df in
  let y_train := map FeatureRow.target_did_win train_df in
  let X_val := map feature_columns val_df in
  let y_val := map FeatureRow.target_did_win val_df in
  let X_test := map feature_columns test_df in
  let y_test := map FeatureRow.target_did_win test_df in
  Ok (X_train, y_train, X_val, y_val, X_test, y_test)
  end.

(** ** src/predict.py: team lookup, prediction and value recommendation *)

(** The exceptions of the prediction path: the two that [predict.py]
    raises itself, and those of the functions it calls. *)
Inductive predict_exn : Type :=
  | FileNotFoundError
  | ValueError
  | Other (e : exn).

Inductive outcome (A : Type) : Type :=
  | Returned (a : A)
  | Failed (e : predict_exn).

Arguments Returned {A} a.
Arguments Failed {A} e.

#[global] Instance outcome_ret : MRet outcome := fun A a => Returned a.

#[global] Instance outcome_bind : MBind outcome := fun A B k r =>
  match r with
  | Returned a => k a
  | Failed e => Failed e
  end.

(** A call of a function of the other modules from [predict.py]. *)
Definition call {A : Type} (r : result A) : outcome A :=
  match r with
  | Ok a => Returned a
  | Raise e => Failed (Other e)
  end.

(** [load_model_and_scaler], with the two artifacts as what they are used
    for; [model_exists] and [scaler_exists] say whether the files are
    there. *)
Definition load_model_and_scaler (model_exists scaler_exists : bool) : outcome unit :=
  if negb model_exists then Failed FileNotFoundError
  else if negb scaler_exists then Failed FileNotFoundError
  else Returned tt.

Inductive Confidence : Type := High | Medium | Low.

(** The dict that [generate_prediction] returns. *)
Module Prediction.
Record t : Type := mk {
  home_team : string;
  away_team : string;
  home_win_probability : Q;
  away_win_probability : Q;
  confidence : Confidence;
  predicted_winner : string;
  features : Features.t
}.
End Prediction.

(** The text of [value_bet_recommendation], by its parts: the side, the
    team name as it was asked for, and the edge that is printed. *)
Inductive Recommendation : Type :=
  | NoValue
  | BetHome (team_name : string) (edge : Q)
  | BetAway (team_name : string) (edge : Q).

Section Predict.
(** [str.upper]. *)
Variable upper : string -> string.
(** The scaler and the model behind it, as the row of [predict_proba] they
    give a feature vector: the probabilities of class 0 and of class 1. *)
Variable predict_proba : Features.t -> Q * Q.
(** [datetime.now().date()]. *)
Variable today : Z.

Definition get_team_by_name (db : Db) (team_name : string) : outcome Team.t :=
  match first (List.filter (fun t => String.eqb (Team.team_name t) team_name)
                 (teams db)) with
  | Some team => Returned team
  | None =>
      match first (List.filter
                     (fun t => String.eqb (Team.abbreviation t) (upper team_name))
                     (teams db)) with
      | Some team => Returned team
      | None => Failed ValueError
      end
  end.

Definition generate_prediction (model_exists scaler_exists : bool)
    (home_team_name away_team_name : string) (game_date : option Z) (db : Db)
    : outcome Prediction.t :=
  let game_date := match game_date with Some d => d | None => today end in
  _ ← load_model_and_scaler model_exists scaler_exists;
  home_team ← get_team_by_name db home_team_name;
  away_team ← get_team_by_name db away_team_name;
  home_elo ← call (get_current_elo db (Team.team_id home_team));
  away_elo ← call (get_current_elo db (Team.team_id away_team));
  let home_rolling :=
    get_rolling_averages db (Team.team_id home_team) game_date ROLLING_WINDOW in
  let away_rolling :=
    get_rolling_averages db (Team.team_id away_team) game_date ROLLING_WINDOW in
  let h2h_home :=
    get_h2h_win_pct db (Team.team_id home_team) (Team.team_id away_team) game_date in
  let home_rest := get_days_rest db (Team.team_id home_team) game_date in
  let away_rest := get_days_rest db (Team.team_id away_team) game_date in
  match home_elo, away_elo with
  | Some h, Some a =>
      let features :=
        Features.mk 1 h a (h - a)%R
          (avg_pts_scored home_rolling) (avg_pts_allowed home_rolling)
          (avg_fg_pct home_rolling) (avg_tov home_rolling)
          (avg_plus_minus home_rolling) (avg_rebounds home_rolling)
          (avg_assists home_rolling)
          (avg_pts_scored away_rolling) (avg_pts_allowed away_rolling)
          (avg_fg_pct away_rolling) (avg_tov away_rolling)
          (avg_plus_minus away_rolling)
          h2h_home home_rest away_rest (home_rest - away_rest) in
      let probabilities := predict_proba features in
      let home_win_prob := snd probabilities in
      let away_win_prob := fst probabilities in
      let confidence :=
        if Qgtb (Qabs (home_win_prob - (5 # 10))) (2 # 10) then High
        else if Qgtb (Qabs (home_win_prob - (5 # 10))) (1 # 10) then Medium
        else Low in
      Returned (Prediction.mk (Team.team_name home_team) (Team.team_name away_team)
                  home_win_prob away_win_prob confidence
                  (if Qgtb home_win_prob (5 # 10)
                   then Team.team_name home_team else Team.team_name away_team)
                  features)
  | _, _ => Failed (Other TypeError)
  end.

(** [generate_prediction_with_value]: the prediction and the entry
    [value_bet_recommendation] added to it. *)
Definition generate_prediction_with_value (model_exists scaler_exists : bool)
    (home_team_name away_team_name : string)
    (home_moneyline away_moneyline : option Z) (game_date : option Z) (db : Db)
    : outcome (Prediction.t * Recommendation) :=
  prediction ← generate_prediction model_exists scaler_exists
                  home_team_name away_team_name game_date db;
  let value_recommendation :=
    match home_moneyline, away_moneyline with
    | Some home_moneyline, Some away_moneyline =>
        let home_implied_prob := moneyline_to_implied_prob home_moneyline in
        let away_implied_prob := moneyline_to_implied_prob away_moneyline in
        let home_edge :=
          (Prediction.home_win_probability prediction - home_implied_prob)%Q in
        let away_edge :=
          (Prediction.away_win_probability prediction - away_implied_prob)%Q in
        if Qgtb home_edge VALUE_EDGE_THRESHOLD then BetHome home_team_name home_edge
        else if Qgtb away_edge VALUE_EDGE_THRESHOLD
             then BetAway away_team_name away_edge
             else NoValue
    | _, _ => NoValue
    end in
  Returned (prediction, value_recommendation).
End Predict.

(** The feature vector [f] with other rating columns. *)
Definition with_elo_columns (f : Features.t) (team_elo opponent_elo elo_diff : R)
    : Features.t :=
  Features.mk (Features.is_home f) team_elo opponent_elo elo_diff
    (Features.avg_pts_scored_l10 f) (Features.avg_pts_allowed_l10 f)
    (Features.avg_fg_pct_l10 f) (Features.avg_tov_l10 f)
    (Features.avg_plus_minus_l10 f) (Features.avg_rebounds_l10 f)
    (Features.avg_assists_l10 f)
    (Features.opp_avg_pts_scored_l10 f) (Features.opp_avg_pts_allowed_l10 f)
    (Features.opp_avg_fg_pct_l10 f) (Features.opp_avg_tov_l10 f)
    (Features.opp_avg_plus_minus_l10 f)
    (Features.h2h_win_pct f)
    (Features.days_since_last_game f)
    (Features.opponent_days_since_last_game f)
    (Features.rest_advantage f).

(** ** Sample data of the prediction *)

(** [str.upper] on ASCII text. *)
Fixpoint ascii_upper (s : string) : string :=
  match s with
  | EmptyString => EmptyString
  | String c s' =>
      let n := Ascii.nat_of_ascii c in
      String (if ((97 <=? n) && (n <=? 122))%nat
              then Ascii.ascii_of_nat (n - 32) else c)
        (ascii_upper s')
  end.

(** A model that gives the home team 65 in 100. *)
Definition sample_proba (f : Features.t) : Q * Q := (35 # 100, 65 # 100)%Q.

(** ** src/backtesting.py: the backtest pipeline *)

Section RunBacktest.
(** The model that is loaded, as in the simulation. *)
Variable model_win_proba : FeatureRow.t -> Q.

(** [run_backtest]: [None] is also the bare [return] when an artifact is
    missing. The simulation reads the odds table of the same database, and
    raises [KeyError] on the frame without columns that a database without
    a game with both scores gives. *)
Definition run_backtest (model_exists scaler_exists : bool) (db : Db)
    : result (option Simulation) :=
  if negb model_exists || negb scaler_exists then Ok None
  else
    db ← calculate_elo_ratings db;
    let features_df := create_feature_set db None in
    run_profitability_simulation model_win_proba (odds_table db) features_df
      TEST_SEASON VALUE_EDGE_THRESHOLD (100 # 1).
End RunBacktest.

(** The number of games with a result whose season is from [lo] to [hi]. *)
Definition played_in_seasons (lo hi : Z) (db : Db) : nat :=
  length (List.filter
            (fun g => has_result g && (lo <=? Game.season g) && (Game.season g <=? hi))
            (games db)).

(** ** Sample data of the pipelines *)

(** The league with a quote on its game, and a model that gives every row
    65 in 100. *)
Definition quoted_league_db : Db :=
  mkDb [lakers; celtics] [lal_bos] []
    [Odds.mk "2024-01-15-LAL-BOS" "book" (Some (-150)) (Some 130)].

Definition sample_model (row : FeatureRow.t) : Q := (65 # 100)%Q.

(** ** src/feature_engineering.py: the rating update on binary64 numbers *)


Section RatingUpdateBinary64.
Variable float_pow : float -> float -> float.
Local Open Scope float_scope.



End RatingUpdateBinary64.




(** * Properties *)

(** ** The rating pass *)

Section RatingPass.
Local Open Scope R_scope.

Lemma dict_get_Some (elo : gmap Z R) (k : Z) (v : R) :
  elo !! k = Some v -> dict_get elo k = Ok v.
Proof. intros H. unfold dict_get. now rewrite H. Qed.

Lemma dict_get_Ok (elo : gmap Z R) (k : Z) (v : R) :
  dict_get elo k = Ok v -> elo !! k = Some v.
Proof. unfold dict_get. destruct (elo !! k); congruence. Qed.

(** The loop over a concatenation runs the loop over the first part and
    continues from the rating table it leaves. *)
Lemma elo_loop_app (elo : gmap Z R) (l1 l2 : list Game.t) :
  elo_loop elo (l1 ++ l2) =
  '(out1, elo1) ← elo_loop elo l1;
  '(out2, final) ← elo_loop elo1 l2;
  Ok (out1 ++ out2, final).
Proof.
  revert elo. induction l1 as [|g l1 IH]; intros elo; simpl.
  - destruct (elo_loop elo l2) as [[out2 final]|e]; reflexivity.
  - destruct (elo_game elo g) as [[g' elo']|e]; simpl; [|reflexivity].
    rewrite IH.
    destruct (elo_loop elo' l1) as [[out1 elo1]|e]; simpl; [|reflexivity].
    destruct (elo_loop elo1 l2) as [[out2 final]|e]; reflexivity.
Qed.

(** A game read at ratings [rh], [ra] is stamped with them, and its rating
    table is the unfolded update. *)
Lemma elo_game_eq (elo : gmap Z R) (g : Game.t) (rh ra : R) :
  elo !! Game.home_team_id g = Some rh ->
  elo !! Game.away_team_id g = Some ra ->
  elo_game elo g =
  Ok (stamp g rh ra,
      match Game.home_score g, Game.away_score g with
      | Some hs, Some aws =>
          <[Game.away_team_id g :=
              ra + IZR ELO_K_FACTOR
                   * (snd (actual_scores hs aws) - (1 - expected_home_win_of rh ra))]>
            (<[Game.home_team_id g :=
                 rh + IZR ELO_K_FACTOR
                      * (fst (actual_scores hs aws) - expected_home_win_of rh ra)]> elo)
      | _, _ => elo
      end).
Proof.
  intros Hh Ha. unfold elo_game.
  rewrite (dict_get_Some _ _ _ Hh), (dict_get_Some _ _ _ Ha). simpl.
  destruct (Game.home_score g) as [hs|]; [|reflexivity].
  destruct (Game.away_score g) as [aws|]; [|reflexivity].
  destruct (actual_scores hs aws) as [ah aa]. reflexivity.
Qed.

(** One turn of the loop. When the games [l1] leave the rating table
    [elo1], with [rh] for the home team and [ra] for the away team of [g]:
    the game is stamped with [rh] and [ra] whether or not it has a result;
    with a result the two ratings are rewritten by the update formula;
    without one the table is unchanged; the loop goes on from that
    table. *)
Lemma elo_loop_stamps_then_updates
    (elo0 elo1 : gmap Z R) (l1 l2 out1 : list Game.t) (g : Game.t) (rh ra : R) :
  elo_loop elo0 l1 = Ok (out1, elo1) ->
  elo1 !! Game.home_team_id g = Some rh ->
  elo1 !! Game.away_team_id g = Some ra ->
  let expected_home :=
    1 / (1 + Rpower 10 ((ra - (rh + IZR ELO_HOME_ADVANTAGE)) / 400)) in
  let actual_home hs aws :=
    if Z.ltb aws hs then 1 else if Z.ltb hs aws then 0 else 1 / 2 in
  let actual_away hs aws :=
    if Z.ltb aws hs then 0 else if Z.ltb hs aws then 1 else 1 / 2 in
  let elo2 :=
    match Game.home_score g, Game.away_score g with
    | Some hs, Some aws =>
        <[Game.away_team_id g :=
            ra + IZR ELO_K_FACTOR * (actual_away hs aws - (1 - expected_home))]>
          (<[Game.home_team_id g :=
               rh + IZR ELO_K_FACTOR * (actual_home hs aws - expected_home)]> elo1)
    | _, _ => elo1
    end in
  elo_game elo1 g = Ok (stamp g rh ra, elo2)
  /\ Game.home_team_pregame_elo (stamp g rh ra) = Some rh
  /\ Game.away_team_pregame_elo (stamp g rh ra) = Some ra
  /\ elo_loop elo0 (l1 ++ g :: l2) =
     '(out2, final) ← elo_loop elo2 l2;
     Ok (out1 ++ stamp g rh ra :: out2, final).
Proof.
  intros Hl1 Hh Ha expected_home actual_home actual_away elo2.
  assert (Hstep : elo_game elo1 g = Ok (stamp g rh ra, elo2)).
  { rewrite (elo_game_eq _ _ _ _ Hh Ha). f_equal. f_equal.
    subst elo2 actual_home actual_away expected_home.
    destruct (Game.home_score g) as [hs|]; [|reflexivity].
    destruct (Game.away_score g) as [aws|]; [|reflexivity].
    unfold actual_scores, expected_home_win_of.
    rewrite !Z.gtb_ltb.
    destruct (Z.ltb aws hs), (Z.ltb hs aws); reflexivity. }
  repeat split; [exact Hstep|].
  rewrite elo_loop_app, Hl1. simpl. rewrite Hstep. simpl.
  destruct (elo_loop elo2 l2) as [[out2 final]|e]; reflexivity.
Qed.
End RatingPass.

Section RatingTable.
Local Open Scope R_scope.

(** The rating update never adds or removes a team. *)
Lemma elo_game_dom (elo elo' : gmap Z R) (g g' : Game.t) :
  elo_game elo g = Ok (g', elo') -> dom elo' = dom elo.
Proof.
  unfold elo_game. intros H.
  destruct (dict_get elo (Game.home_team_id g)) as [rh|] eqn:Hh; [|discriminate].
  destruct (dict_get elo (Game.away_team_id g)) as [ra|] eqn:Ha; [|discriminate].
  apply dict_get_Ok in Hh, Ha. simpl in H.
  destruct (Game.home_score g) as [hs|]; [|congruence].
  destruct (Game.away_score g) as [aws|]; [|congruence].
  destruct (actual_scores hs aws) as [ah aa]. inversion H; subst; clear H.
  rewrite !dom_insert_lookup_L; [reflexivity|now rewrite Hh|].
  destruct (decide (Game.home_team_id g = Game.away_team_id g)) as [->|Hne].
  - rewrite lookup_insert_eq. eauto.
  - rewrite lookup_insert_ne by exact Hne. now rewrite Ha.
Qed.

(** One turn of the loop, read backwards from a pass that returned. *)
Lemma elo_loop_cons_inv (elo final : gmap Z R) (g : Game.t) (gs out : list Game.t) :
  elo_loop elo (g :: gs) = Ok (out, final) ->
  exists g' elo' out',
    elo_game elo g = Ok (g', elo')
    /\ elo_loop elo' gs = Ok (out', final)
    /\ out = g' :: out'.
Proof.
  simpl. intros H.
  destruct (elo_game elo g) as [[g' elo']|]; [|discriminate]. simpl in H.
  destruct (elo_loop elo' gs) as [[out' final']|] eqn:Hl; [|discriminate].
  simpl in H. inversion H; subst.
  exists g', elo', out'. auto.
Qed.

(** A property of the rating table that every game of the sequence keeps
    is kept by the pass. *)
Lemma elo_loop_invariant (P : Game.t -> Prop) (I : gmap Z R -> Prop) :
  (forall elo g g' elo',
      P g -> I elo -> elo_game elo g = Ok (g', elo') -> I elo') ->
  forall gs elo out final,
    Forall P gs -> I elo -> elo_loop elo gs = Ok (out, final) -> I final.
Proof.
  intros Hstep. induction gs as [|g gs IH]; intros elo out final HF HI H.
  - simpl in H. congruence.
  - inversion HF; subst.
    apply elo_loop_cons_inv in H. destruct H as (g' & elo' & out' & Hg & Hl & _).
    apply (IH elo' out' final); [assumption| |exact Hl].
    apply (Hstep elo g g' elo'); assumption.
Qed.

Lemma elo_loop_dom (gs : list Game.t) :
  forall (elo final : gmap Z R) (out : list Game.t),
  elo_loop elo gs = Ok (out, final) -> dom final = dom elo.
Proof.
  intros elo final out H.
  apply (elo_loop_invariant (fun _ => True) (fun e => dom e = dom elo))
    with (gs := gs) (elo := elo) (out := out); [|now apply Forall_true|reflexivity|exact H].
  intros e g g' e' _ He Hg. rewrite <- He. eapply elo_game_dom; eauto.
Qed.

(** A game whose two teams are in the table is processed without error. *)
Lemma elo_game_total (elo : gmap Z R) (g : Game.t) :
  Game.home_team_id g ∈ dom elo -> Game.away_team_id g ∈ dom elo ->
  exists rh ra elo',
    elo !! Game.home_team_id g = Some rh
    /\ elo !! Game.away_team_id g = Some ra
    /\ elo_game elo g = Ok (stamp g rh ra, elo').
Proof.
  intros [rh Hh]%elem_of_dom [ra Ha]%elem_of_dom.
  exists rh, ra. eexists. repeat split; [assumption..|].
  apply elo_game_eq; assumption.
Qed.

Lemma elo_loop_total (gs : list Game.t) :
  forall elo : gmap Z R,
  Forall (fun g => Game.home_team_id g ∈ dom elo /\ Game.away_team_id g ∈ dom elo) gs ->
  exists out final, elo_loop elo gs = Ok (out, final).
Proof.
  induction gs as [|g gs IH]; intros elo HF; simpl.
  - eauto.
  - inversion HF as [|? ? [Hh Ha] HF']; subst.
    destruct (elo_game_total elo g Hh Ha) as (rh & ra & elo' & _ & _ & Hg).
    rewrite Hg. simpl.
    destruct (IH elo') as (out & final & Hl).
    { rewrite (elo_game_dom _ _ _ _ Hg). exact HF'. }
    rewrite Hl. simpl. eauto.
Qed.

(** A game leaves the rating of every team that does not play in it. *)
Lemma elo_game_other (elo elo' : gmap Z R) (g g' : Game.t) (t : Z) :
  elo_game elo g = Ok (g', elo') -> ~ plays_in t g -> elo' !! t = elo !! t.
Proof.
  unfold elo_game, plays_in. intros H Hn.
  destruct (dict_get elo (Game.home_team_id g)) as [rh|]; [|discriminate].
  destruct (dict_get elo (Game.away_team_id g)) as [ra|]; [|discriminate].
  simpl in H.
  destruct (Game.home_score g) as [hs|]; [|congruence].
  destruct (Game.away_score g) as [aws|]; [|congruence].
  destruct (actual_scores hs aws) as [ah aa]. inversion H; subst; clear H.
  rewrite !lookup_insert_ne; [reflexivity|intros E; apply Hn; auto..].
Qed.

Lemma elo_loop_other (gs : list Game.t) (t : Z) :
  forall (elo final : gmap Z R) (out : list Game.t),
  elo_loop elo gs = Ok (out, final) ->
  Forall (fun g => ~ plays_in t g) gs ->
  final !! t = elo !! t.
Proof.
  intros elo final out H HF.
  apply (elo_loop_invariant (fun g => ~ plays_in t g) (fun e => e !! t = elo !! t))
    with (gs := gs) (elo := elo) (out := out); [|exact HF|reflexivity|exact H].
  intros e g g' e' Hp He Hg. rewrite <- He. eapply elo_game_other; eauto.
Qed.

Lemma elo_loop_length (gs : list Game.t) :
  forall (elo final : gmap Z R) (out : list Game.t),
  elo_loop elo gs = Ok (out, final) -> length out = length gs.
Proof.
  induction gs as [|g gs IH]; intros elo final out H.
  - simpl in H. inversion H. reflexivity.
  - apply elo_loop_cons_inv in H. destruct H as (g' & elo' & out' & _ & Hl & ->).
    simpl. f_equal. eauto.
Qed.

(** Every team of the team table starts at [ELO_INITIAL], and no other
    team is in the table. *)
Lemma init_elo_ratings_fold (ts : list Team.t) (k : Z) :
  forall m : gmap Z R,
  fold_left (fun m t => <[Team.team_id t := IZR ELO_INITIAL]> m) ts m !! k =
  if existsb (Z.eqb k) (map Team.team_id ts) then Some (IZR ELO_INITIAL) else m !! k.
Proof.
  induction ts as [|t ts IH]; intros m; simpl; [reflexivity|].
  rewrite IH. destruct (existsb (Z.eqb k) (map Team.team_id ts)).
  - now rewrite orb_true_r.
  - rewrite orb_false_r. destruct (Z.eqb_spec k (Team.team_id t)) as [->|Hne].
    + apply lookup_insert_eq.
    + apply lookup_insert_ne. congruence.
Qed.

Lemma init_elo_ratings_registered (ts : list Team.t) (k : Z) :
  In k (map Team.team_id ts) -> init_elo_ratings ts !! k = Some (IZR ELO_INITIAL).
Proof.
  intros Hin. unfold init_elo_ratings. rewrite init_elo_ratings_fold.
  replace (existsb (Z.eqb k) (map Team.team_id ts)) with true; [reflexivity|].
  symmetry. apply existsb_exists. exists k. split; [exact Hin|apply Z.eqb_refl].
Qed.

Lemma init_elo_ratings_unregistered (ts : list Team.t) (k : Z) :
  ~ In k (map Team.team_id ts) -> init_elo_ratings ts !! k = None.
Proof.
  intros Hnin. unfold init_elo_ratings. rewrite init_elo_ratings_fold.
  destruct (existsb (Z.eqb k) (map Team.team_id ts)) eqn:E; [|apply lookup_empty].
  apply existsb_exists in E. destruct E as (x & Hx & ->%Z.eqb_eq). contradiction.
Qed.
End RatingTable.

(** ** Sorting *)

Section OrderBy.
Context {A : Type} (leb : A -> A -> bool).

Lemma insert_by_perm (x : A) (l : list A) : Permutation (insert_by leb x l) (x :: l).
Proof.
  induction l as [|y l IH]; simpl; [reflexivity|].
  destruct (leb x y); [reflexivity|].
  rewrite IH. apply perm_swap.
Qed.

Lemma order_by_perm (l : list A) : Permutation (order_by leb l) l.
Proof.
  induction l as [|x l IH]; simpl; [reflexivity|].
  rewrite insert_by_perm. now constructor.
Qed.

Lemma order_by_In (l : list A) (x : A) : In x (order_by leb l) <-> In x l.
Proof.
  split; apply Permutation_in; [|symmetry]; apply order_by_perm.
Qed.

Lemma order_by_length (l : list A) : length (order_by leb l) = length l.
Proof. apply Permutation_length, order_by_perm. Qed.

Lemma order_by_Forall (P : A -> Prop) (l : list A) :
  Forall P l -> Forall P (order_by leb l).
Proof.
  rewrite !List.Forall_forall. intros H x Hx. apply H, order_by_In, Hx.
Qed.
End OrderBy.

Section RatingClaims.
Local Open Scope R_scope.

(** The pass over [l1 ++ g :: l2], taken apart at [g]. *)
Lemma elo_loop_middle (elo0 final : gmap Z R) (l1 l2 out : list Game.t) (g : Game.t) :
  elo_loop elo0 (l1 ++ g :: l2) = Ok (out, final) ->
  exists out1 elo1 rh ra elo2 out2,
    elo_loop elo0 l1 = Ok (out1, elo1)
    /\ elo1 !! Game.home_team_id g = Some rh
    /\ elo1 !! Game.away_team_id g = Some ra
    /\ elo_game elo1 g = Ok (stamp g rh ra, elo2)
    /\ elo_loop elo2 l2 = Ok (out2, final)
    /\ out = out1 ++ stamp g rh ra :: out2
    /\ length out1 = length l1.
Proof.
  rewrite elo_loop_app. intros H.
  destruct (elo_loop elo0 l1) as [[out1 elo1]|] eqn:H1; [|discriminate].
  simpl in H.
  destruct (elo_game elo1 g) as [[g' elo2]|] eqn:Hg; [|discriminate]. simpl in H.
  destruct (elo_loop elo2 l2) as [[out2 final']|] eqn:H2; [|discriminate].
  simpl in H. inversion H; subst; clear H.
  assert (Hd := Hg). unfold elo_game in Hd.
  destruct (dict_get elo1 (Game.home_team_id g)) as [rh|] eqn:Hh; [|discriminate].
  destruct (dict_get elo1 (Game.away_team_id g)) as [ra|] eqn:Ha; [|discriminate].
  apply dict_get_Ok in Hh, Ha.
  rewrite (elo_game_eq _ _ _ _ Hh Ha) in Hg. inversion Hg as [[Hg' He]].
  exists out1, elo1, rh, ra, elo2, out2.
  rewrite (elo_game_eq _ _ _ _ Hh Ha), He.
  repeat split; try assumption; try reflexivity.
  eapply elo_loop_length; eauto.
Qed.

(** C5, as the code has it. When the two teams of every game are in the
    team table, the rating pass does not raise; and in the order of the
    pass, a team none of whose games comes before [g] is stamped
    [ELO_INITIAL] (1500) on [g]. *)
Theorem rating_pass_total_on_registered_teams (db : Db) :
  Forall (fun g => In (Game.home_team_id g) (team_ids db)
                   /\ In (Game.away_team_id g) (team_ids db)) (games db) ->
  exists stamped final,
    elo_loop (init_elo_ratings (teams db)) (order_by date_id_leb (games db))
      = Ok (stamped, final)
    /\ calculate_elo_ratings db
       = Ok (mkDb (teams db) (commit_games stamped (games db))
               (team_box_scores db) (odds_table db))
    /\ forall l1 g l2,
         order_by date_id_leb (games db) = l1 ++ g :: l2 ->
         exists g',
           nth_error stamped (length l1) = Some g'
           /\ (Forall (fun e => ~ plays_in (Game.home_team_id g) e) l1 ->
               Game.home_team_pregame_elo g' = Some (IZR ELO_INITIAL))
           /\ (Forall (fun e => ~ plays_in (Game.away_team_id g) e) l1 ->
               Game.away_team_pregame_elo g' = Some (IZR ELO_INITIAL)).
Proof.
  intros Hreg.
  assert (Hdom : Forall (fun g =>
            Game.home_team_id g ∈ dom (init_elo_ratings (teams db))
            /\ Game.away_team_id g ∈ dom (init_elo_ratings (teams db)))
            (order_by date_id_leb (games db))).
  { apply order_by_Forall. eapply List.Forall_impl; [|exact Hreg].
    intros g [Hh Ha]. split; apply elem_of_dom;
      rewrite init_elo_ratings_registered; eauto. }
  destruct (elo_loop_total _ _ Hdom) as (stamped & final & Hloop).
  exists stamped, final. split; [exact Hloop|]. split.
  { unfold calculate_elo_ratings. rewrite Hloop. reflexivity. }
  intros l1 g l2 Hsplit. rewrite Hsplit in Hloop, Hdom.
  destruct (elo_loop_middle _ _ _ _ _ _ Hloop)
    as (out1 & elo1 & rh & ra & elo2 & out2 & H1 & Hh & Ha & _ & _ & -> & Hlen).
  exists (stamp g rh ra). split.
  { rewrite <- Hlen, nth_error_app2, Nat.sub_diag by lia. reflexivity. }
  apply Forall_app in Hdom. destruct Hdom as [_ Hg].
  inversion Hg as [|? ? [Hgh Hga] _]; subst.
  apply elem_of_dom in Hgh, Hga. destruct Hgh as [vh Hvh], Hga as [va Hva].
  split; intros Hfresh; simpl; f_equal.
  - rewrite (elo_loop_other _ _ _ _ _ H1 Hfresh) in Hh.
    destruct (in_dec Z.eq_dec (Game.home_team_id g) (map Team.team_id (teams db))) as [i|n].
    + rewrite (init_elo_ratings_registered _ _ i) in Hh. congruence.
    + rewrite (init_elo_ratings_unregistered _ _ n) in Hvh. discriminate.
  - rewrite (elo_loop_other _ _ _ _ _ H1 Hfresh) in Ha.
    destruct (in_dec Z.eq_dec (Game.away_team_id g) (map Team.team_id (teams db))) as [i|n].
    + rewrite (init_elo_ratings_registered _ _ i) in Ha. congruence.
    + rewrite (init_elo_ratings_unregistered _ _ n) in Hva. discriminate.
Qed.

(** C5, as the claim has it, fails: with the home team of a game missing
    from the team table, the pass stops with [KeyError] at the first read
    of the rating table. *)
Lemma rating_pass_raises_on_unregistered_team :
  calculate_elo_ratings unregistered_db = Raise (KeyError 1)
  /\ ~ exists db', calculate_elo_ratings unregistered_db = Ok db'.
Proof.
  assert (H : calculate_elo_ratings unregistered_db = Raise (KeyError 1))
    by reflexivity.
  split; [exact H|]. intros [db' H']. congruence.
Qed.

(** A game without result, read at ratings [rh] and [ra], is stamped and
    leaves the rating table as it was. *)
Lemma elo_game_no_result (elo : gmap Z R) (g : Game.t) (rh ra : R) :
  has_result g = false ->
  elo !! Game.home_team_id g = Some rh ->
  elo !! Game.away_team_id g = Some ra ->
  elo_game elo g = Ok (stamp g rh ra, elo).
Proof.
  intros Hn Hh Ha. rewrite (elo_game_eq _ _ _ _ Hh Ha).
  unfold has_result in Hn.
  destruct (Game.home_score g); [|reflexivity].
  destruct (Game.away_score g); [discriminate|reflexivity].
Qed.

(** C6. A game [g] without recorded result: processing it stamps it and
    changes no rating. Whenever the pass over a sequence with [g] inserted
    at some place returns, the pass without [g] returns the same stamps for
    every other game and the same final ratings. With the two teams of [g]
    in the rating table the converse holds too: the pass with [g] returns
    what the pass without [g] returns, with the stamped [g] inserted, and
    stops with the same error where that one stops. *)
Theorem scheduled_game_leaves_ratings
    (elo0 : gmap Z R) (l1 l2 : list Game.t) (g : Game.t) :
  has_result g = false ->
  (forall (elo : gmap Z R) rh ra,
      elo !! Game.home_team_id g = Some rh ->
      elo !! Game.away_team_id g = Some ra ->
      elo_game elo g = Ok (stamp g rh ra, elo))
  /\ (forall out' final,
        elo_loop elo0 (l1 ++ g :: l2) = Ok (out', final) ->
        exists out g',
          elo_loop elo0 (l1 ++ l2) = Ok (out, final)
          /\ out' = take (length l1) out ++ g' :: drop (length l1) out)
  /\ (is_Some (elo0 !! Game.home_team_id g) ->
      is_Some (elo0 !! Game.away_team_id g) ->
      match elo_loop elo0 (l1 ++ l2) with
      | Ok (out, final) =>
          exists g',
            elo_loop elo0 (l1 ++ g :: l2)
            = Ok (take (length l1) out ++ g' :: drop (length l1) out, final)
      | Raise e => elo_loop elo0 (l1 ++ g :: l2) = Raise e
      end).
Proof.
  intros Hn. split; [|split].
  - intros elo rh ra. apply elo_game_no_result, Hn.
  - intros out' final Hloop.
    destruct (elo_loop_middle _ _ _ _ _ _ Hloop)
      as (out1 & elo1 & rh & ra & elo2 & out2 & H1 & Hh & Ha & Hg & H2 & -> & Hlen).
    rewrite (elo_game_no_result _ _ _ _ Hn Hh Ha) in Hg.
    inversion Hg; subst elo2.
    exists (out1 ++ out2), (stamp g rh ra). split.
    + rewrite elo_loop_app, H1. simpl. rewrite H2. reflexivity.
    + rewrite <- Hlen, take_app_length, drop_app_length. reflexivity.
  - intros Hh Ha. rewrite !elo_loop_app.
    destruct (elo_loop elo0 l1) as [[out1 elo1]|e] eqn:H1; simpl; [|reflexivity].
    assert (Hd := elo_loop_dom _ _ _ _ H1).
    apply elem_of_dom in Hh, Ha. rewrite <- Hd in Hh, Ha.
    apply elem_of_dom in Hh, Ha. destruct Hh as [rh Hh], Ha as [ra Ha].
    rewrite (elo_game_no_result _ _ _ _ Hn Hh Ha). simpl.
    assert (Hlen := elo_loop_length _ _ _ _ H1).
    destruct (elo_loop elo1 l2) as [[out2 final]|e]; simpl; [|reflexivity].
    exists (stamp g rh ra). rewrite <- Hlen.
    rewrite take_app_length, drop_app_length. reflexivity.
Qed.




End RatingClaims.

(** ** The current rating at inference time *)

Section CurrentRating.
Local Open Scope R_scope.

(** [order_by(date.desc()).first()] is a row of the latest date. *)
Lemma first_order_by_date_desc (l : list Game.t) :
  match first (order_by date_desc_leb l) with
  | None => l = []
  | Some g => In g l /\ forall g', In g' l -> (Game.date g' <= Game.date g)%Z
  end.
Proof.
  induction l as [|x l IH]; simpl; [reflexivity|].
  destruct (order_by date_desc_leb l) as [|y rest]; simpl in *.
  - subst l. split; [auto|]. intros g' [<-|[]]. lia.
  - destruct IH as [Hy Hmax]. unfold date_desc_leb at 1.
    destruct (Z.leb_spec (Game.date y) (Game.date x)) as [Hle|Hgt]; simpl.
    + split; [auto|]. intros g' [<-|Hin]; [lia|].
      specialize (Hmax g' Hin). lia.
    + split; [auto|]. intros g' [<-|Hin]; [lia|auto].
Qed.

Lemma team_games_with_elo_In (db : Db) (t : Z) (g : Game.t) :
  In g (team_games_with_elo db t) <->
  In g (games db) /\ plays_in t g /\ is_Some (Game.home_team_pregame_elo g).
Proof.
  unfold team_games_with_elo, plays_in. rewrite filter_In.
  rewrite andb_true_iff, orb_true_iff, !Z.eqb_eq.
  destruct (Game.home_team_pregame_elo g) as [e|].
  - split; intros (? & ? & ?); repeat split; eauto.
  - split; intros (? & ? & H); [discriminate|destruct H; discriminate].
Qed.

(** C4, as the code has it. [get_current_elo] is [ELO_INITIAL] for a team
    without a stamped game; otherwise it takes a stamped game of the team
    of the latest date and returns the team's pre-game stamp on it, plus
    15 when the team won that game, minus 15 when the game has a result
    that the team did not win, and untouched when the game has no
    result. *)
Theorem get_current_elo_nudges_last_stamp (db : Db) (t : Z) :
  ((forall g, In g (games db) -> plays_in t g ->
              Game.home_team_pregame_elo g = None)
   /\ get_current_elo db t = Ok (Some (IZR ELO_INITIAL)))
  \/ exists g,
       In g (games db) /\ plays_in t g
       /\ is_Some (Game.home_team_pregame_elo g)
       /\ (forall g', In g' (games db) -> plays_in t g' ->
                      is_Some (Game.home_team_pregame_elo g') ->
                      (Game.date g' <= Game.date g)%Z)
       /\ get_current_elo db t = nudged_stamp t g
       /\ (forall hs aws e,
             Game.home_score g = Some hs -> Game.away_score g = Some aws ->
             pregame_elo_of t g = Some e ->
             get_current_elo db t
             = Ok (Some (if team_won t g hs aws then e + 15 else e - 15))).
Proof.
  unfold get_current_elo.
  assert (H := first_order_by_date_desc (team_games_with_elo db t)).
  destruct (first (order_by date_desc_leb (team_games_with_elo db t))) as [g|].
  - right. exists g. destruct H as [Hin Hmax].
    apply team_games_with_elo_In in Hin. destruct Hin as (Hin & Hp & Hs).
    repeat split; try assumption.
    + intros g' Hin' Hp' Hs'. apply Hmax, team_games_with_elo_In. auto.
    + unfold nudged_stamp.
      destruct (Game.home_score g), (Game.away_score g),
        (pregame_elo_of t g); try reflexivity.
      destruct (team_won t g z z0); reflexivity.
    + intros hs aws e -> -> ->. destruct (team_won t g hs aws); reflexivity.
  - left. split; [|reflexivity].
    intros g Hin Hp. destruct (Game.home_team_pregame_elo g) eqn:E; [|reflexivity].
    assert (Hg : In g (team_games_with_elo db t)).
    { apply team_games_with_elo_In. rewrite E. eauto. }
    rewrite H in Hg. destruct Hg.
Qed.

Lemma Rpower_10_neg (x : R) : x < 0 -> Rpower 10 x < 1.
Proof.
  intros Hx. unfold Rpower. rewrite <- exp_0. apply exp_increasing.
  assert (Hln : 0 < ln 10). { rewrite <- ln_1. apply ln_increasing; lra. }
  rewrite <- (Rmult_0_l (ln 10)). apply Rmult_lt_compat_r; assumption.
Qed.

(** C4, as the claim has it, fails. After the pass over one game that the
    Lakers won at home, the Lakers' rating in the rating table is below
    1510, and [get_current_elo] gives 1515. *)
Lemma get_current_elo_is_not_post_update :
  exists db' final post,
    calculate_elo_ratings league_db = Ok db'
    /\ ratings_after_pass league_db = Ok final
    /\ final !! 1%Z = Some post
    /\ post < 1510
    /\ get_current_elo db' 1 = Ok (Some 1515)
    /\ get_current_elo db' 1 <> Ok (Some post).
Proof.
  set (E := expected_home_win_of 1500 1500).
  assert (HE : 1 / 2 < E).
  { unfold E, expected_home_win_of, ELO_HOME_ADVANTAGE.
    assert (Hp : Rpower 10 ((1500 - (1500 + 100)) / 400) < 1)
      by (apply Rpower_10_neg; lra).
    assert (Hpos : 0 < Rpower 10 ((1500 - (1500 + 100)) / 400))
      by (unfold Rpower; apply exp_pos).
    set (p := Rpower 10 ((1500 - (1500 + 100)) / 400)) in *.
    assert (Hq : (1 + p) * / (1 + p) = 1) by (apply Rinv_r; lra).
    assert (Hqpos : 0 < / (1 + p)) by (apply Rinv_0_lt_compat; lra).
    unfold Rdiv. nra. }
  exists (mkDb [lakers; celtics] [stamp lal_bos 1500 1500] [] []).
  exists (<[2%Z := 1500 + 20 * (0 - (1 - E))]>
            (<[1%Z := 1500 + 20 * (1 - E)]> (init_elo_ratings [lakers; celtics]))).
  exists (1500 + 20 * (1 - E)).
  assert (Hcur : get_current_elo
                   (mkDb [lakers; celtics] [stamp lal_bos 1500 1500] [] []) 1
                 = Ok (Some (1500 + 15))) by reflexivity.
  split; [reflexivity|]. split; [reflexivity|]. split; [reflexivity|].
  split; [lra|]. split.
  - rewrite Hcur. do 2 f_equal. lra.
  - rewrite Hcur. intros Heq. inversion Heq. lra.
Qed.
End CurrentRating.

(** ** The form window *)

Section InsertedRows.
Context {A : Type} (P : A -> Prop).

Lemma inserted_rows_refl (l : list A) : inserted_rows P l l.
Proof. induction l; constructor; assumption. Qed.

Lemma inserted_rows_app (l1 l2 new : list A) :
  Forall P new -> inserted_rows P (l1 ++ l2) (l1 ++ new ++ l2).
Proof.
  intros Hnew. induction l1 as [|x l1 IH]; simpl.
  - induction Hnew; simpl; [apply inserted_rows_refl|].
    constructor; assumption.
  - constructor. exact IH.
Qed.

(** A filter that rejects the inserted rows does not see them. *)
Lemma filter_inserted_rows (f : A -> bool) (l l' : list A) :
  inserted_rows P l l' ->
  (forall y, P y -> f y = false) ->
  List.filter f l' = List.filter f l.
Proof.
  intros Hins Hf. induction Hins as [|x l l' _ IH|y l l' Hy _ IH]; simpl.
  - reflexivity.
  - now rewrite IH.
  - now rewrite (Hf y Hy).
Qed.

Lemma inserted_rows_In (l l' : list A) (x : A) :
  inserted_rows P l l' -> In x l' -> In x l \/ P x.
Proof.
  intros Hins. induction Hins as [|z l l' _ IH|y l l' Hy _ IH]; simpl.
  - tauto.
  - intros [->|Hin]; [auto|]. destruct (IH Hin); auto.
  - intros [->|Hin]; [auto|]. exact (IH Hin).
Qed.
End InsertedRows.

Section FilterFacts.
Context {A B : Type}.

Lemma filter_flat_map (f : B -> bool) (k : A -> list B) (l : list A) :
  List.filter f (flat_map k l) = flat_map (fun x => List.filter f (k x)) l.
Proof.
  induction l as [|x l IH]; simpl; [reflexivity|].
  now rewrite List.filter_app, IH.
Qed.

Lemma filter_map_swap (f : B -> bool) (h : A -> B) (l : list A) :
  List.filter f (map h l) = map h (List.filter (fun x => f (h x)) l).
Proof.
  induction l as [|x l IH]; simpl; [reflexivity|].
  destruct (f (h x)); simpl; now rewrite IH.
Qed.

Lemma filter_filter_andb (f1 f2 : A -> bool) (l : list A) :
  List.filter f1 (List.filter f2 l) = List.filter (fun x => f2 x && f1 x) l.
Proof.
  induction l as [|x l IH]; simpl; [reflexivity|].
  destruct (f2 x); simpl; [destruct (f1 x)|]; now rewrite IH.
Qed.

Lemma filter_none (f : A -> bool) (l : list A) :
  (forall x, In x l -> f x = false) -> List.filter f l = [].
Proof.
  induction l as [|x l IH]; simpl; intros H; [reflexivity|].
  rewrite (H x) by auto. apply IH. auto.
Qed.
End FilterFacts.

Section NoLeakage.
Variables (team_id game_date : Z).

Lemma played_before_later (bs : TeamBoxScore.t) (g : Game.t) :
  dated_from game_date g -> played_before team_id game_date bs g = false.
Proof.
  unfold dated_from, played_before. intros H.
  replace (Game.date g <? game_date) with false by (symmetry; apply Z.ltb_ge, H).
  now rewrite andb_false_r.
Qed.

Lemma played_before_spec (bs : TeamBoxScore.t) (g : Game.t) :
  played_before team_id game_date bs g = true <->
  TeamBoxScore.team_id bs = team_id /\ Game.date g < game_date
  /\ is_completed g = true.
Proof.
  unfold played_before. rewrite !andb_true_iff, Z.eqb_eq, Z.ltb_lt. tauto.
Qed.

(** The form query sees the same rows after the insertion of games dated
    at or after the cutoff, together with box scores that belong to no
    earlier game. *)
Lemma join_box_scores_later (gs gs' : list Game.t) (bss bss' : list TeamBoxScore.t) :
  inserted_rows (dated_from game_date) gs gs' ->
  inserted_rows (fun bs => ~ In (TeamBoxScore.game_id bs) (map Game.game_id gs))
    bss bss' ->
  List.filter (fun r => played_before team_id game_date (fst r) (snd r))
    (join_box_scores bss' gs')
  = List.filter (fun r => played_before team_id game_date (fst r) (snd r))
      (join_box_scores bss gs).
Proof.
  intros Hgs Hbss. unfold join_box_scores. rewrite !filter_flat_map.
  induction Hbss as [|b bss bss' _ IH|b bss bss' Hb _ IH]; simpl.
  - reflexivity.
  - rewrite IH. f_equal.
    rewrite !filter_map_swap, !filter_filter_andb. f_equal. simpl.
    apply (filter_inserted_rows (dated_from game_date)); [exact Hgs|].
    intros g Hg. rewrite (played_before_later _ _ Hg). apply andb_false_r.
  - rewrite IH.
    rewrite filter_map_swap, filter_filter_andb, filter_none; [reflexivity|].
    intros g Hin. simpl.
    destruct (inserted_rows_In _ _ _ _ Hgs Hin) as [Hold|Hnew].
    + replace (String.eqb (TeamBoxScore.game_id b) (Game.game_id g)) with false;
        [reflexivity|].
      symmetry. apply String.eqb_neq. intros E. apply Hb. rewrite E.
      now apply in_map.
    + rewrite (played_before_later _ _ Hnew). apply andb_false_r.
Qed.

(** The same for the rest query, which joins from the games. *)
Lemma join_games_later (ids : list string) (bss bss' : list TeamBoxScore.t) :
  inserted_rows (fun bs => ~ In (TeamBoxScore.game_id bs) ids) bss bss' ->
  forall gs gs' : list Game.t,
  inserted_rows (dated_from game_date) gs gs' ->
  (forall g, In g gs -> In (Game.game_id g) ids) ->
  List.filter (fun r => played_before team_id game_date (snd r) (fst r))
    (join_games gs' bss')
  = List.filter (fun r => played_before team_id game_date (snd r) (fst r))
      (join_games gs bss).
Proof.
  intros Hbss gs gs' Hgs. unfold join_games. rewrite !filter_flat_map.
  induction Hgs as [|g gs gs' _ IH|g gs gs' Hg _ IH]; simpl; intros Hids.
  - reflexivity.
  - rewrite IH by auto. f_equal. f_equal. f_equal.
    apply (filter_inserted_rows _ _ _ _ Hbss).
    intros b Hb. apply String.eqb_neq. intros E. apply Hb. rewrite E. auto.
  - rewrite IH by auto.
    rewrite filter_map_swap, filter_none; [reflexivity|].
    intros b _. simpl. apply played_before_later, Hg.
Qed.

Lemma h2h_games_later (opponent_id : Z) (db db' : Db) :
  inserted_rows (dated_from game_date) (games db) (games db') ->
  h2h_games db' team_id opponent_id game_date
  = h2h_games db team_id opponent_id game_date.
Proof.
  intros Hgs. unfold h2h_games.
  apply (filter_inserted_rows _ _ _ _ Hgs).
  intros g Hg. unfold dated_from in Hg.
  replace (Game.date g <? game_date) with false by (symmetry; apply Z.ltb_ge, Hg).
  now rewrite andb_false_r.
Qed.
End NoLeakage.

Section FormWindowClaims.

Lemma In_take {A : Type} (n : nat) (l : list A) (x : A) : In x (take n l) -> In x l.
Proof.
  revert l. induction n as [|n IH]; intros [|y l]; simpl; try tauto.
  intros [->|H]; auto.
Qed.

Lemma rolling_box_scores_before (db : Db) (team_id game_date : Z) (window : nat) :
  Forall (fun r => TeamBoxScore.team_id (fst r) = team_id
                   /\ Game.date (snd r) < game_date
                   /\ is_completed (snd r) = true)
    (rolling_box_scores db team_id game_date window).
Proof.
  apply List.Forall_forall. intros r Hr. unfold rolling_box_scores in Hr.
  apply In_take, order_by_In, filter_In in Hr.
  apply played_before_spec, Hr.
Qed.

Lemma h2h_games_before (db : Db) (team_id opponent_id game_date : Z) :
  Forall (fun g => Game.date g < game_date /\ is_completed g = true)
    (h2h_games db team_id opponent_id game_date).
Proof.
  apply List.Forall_forall. intros g Hg. unfold h2h_games in Hg.
  apply filter_In in Hg. destruct Hg as [_ Hg].
  rewrite !andb_true_iff, Z.ltb_lt in Hg. tauto.
Qed.

Lemma rest_games_before (db : Db) (team_id game_date : Z) :
  Forall (fun r => TeamBoxScore.team_id (snd r) = team_id
                   /\ Game.date (fst r) < game_date
                   /\ is_completed (fst r) = true)
    (rest_games db team_id game_date).
Proof.
  apply List.Forall_forall. intros r Hr. unfold rest_games in Hr.
  apply order_by_In, filter_In in Hr.
  apply played_before_spec, Hr.
Qed.

(** C2. Let the tables of [db'] be those of [db] with games dated at or
    after the cutoff inserted anywhere, together with any box scores that
    belong to no game of [db]. Then the rolling form, the head-to-head win
    rate and the rest days at that cutoff are the same on [db'] as on
    [db]; and every game the three queries read on [db'] is completed and
    dated strictly before the cutoff. *)
Theorem form_window_sees_no_later_game
    (db db' : Db) (team_id opponent_id game_date : Z) (window : nat) :
  inserted_rows (dated_from game_date) (games db) (games db') ->
  inserted_rows (fun bs => ~ In (TeamBoxScore.game_id bs) (game_ids db))
    (team_box_scores db) (team_box_scores db') ->
  get_rolling_averages db' team_id game_date window
    = get_rolling_averages db team_id game_date window
  /\ get_h2h_win_pct db' team_id opponent_id game_date
     = get_h2h_win_pct db team_id opponent_id game_date
  /\ get_days_rest db' team_id game_date = get_days_rest db team_id game_date
  /\ Forall (fun r => Game.date (snd r) < game_date /\ is_completed (snd r) = true)
       (rolling_box_scores db' team_id game_date window)
  /\ Forall (fun g => Game.date g < game_date /\ is_completed g = true)
       (h2h_games db' team_id opponent_id game_date)
  /\ Forall (fun r => Game.date (fst r) < game_date /\ is_completed (fst r) = true)
       (rest_games db' team_id game_date).
Proof.
  intros Hgs Hbss. unfold game_ids in Hbss.
  repeat split.
  - unfold get_rolling_averages, rolling_box_scores.
    now rewrite (join_box_scores_later _ _ _ _ _ _ Hgs Hbss).
  - unfold get_h2h_win_pct. now rewrite (h2h_games_later _ _ _ _ _ Hgs).
  - unfold get_days_rest, rest_games.
    rewrite (join_games_later _ _ _ _ _ Hbss _ _ Hgs); [reflexivity|].
    intros g Hg. now apply in_map.
  - eapply List.Forall_impl; [|apply rolling_box_scores_before]. simpl. tauto.
  - apply h2h_games_before.
  - eapply List.Forall_impl; [|apply rest_games_before]. simpl. tauto.
Qed.

(** When every box score is of a team that plays in its game, a team
    without completed game before the cutoff has no box score on one. *)
Lemma no_completed_game_no_prior_game (db : Db) (team_id game_date : Z) :
  (forall bs g, In bs (team_box_scores db) -> In g (games db) ->
                TeamBoxScore.game_id bs = Game.game_id g ->
                plays_in (TeamBoxScore.team_id bs) g) ->
  (forall g, In g (games db) -> plays_in team_id g ->
             Game.date g < game_date -> Game.home_score g = None) ->
  no_prior_game db team_id game_date.
Proof.
  intros Hint Hnone bs g Hbs Hg Hid Ht Hd.
  apply Hnone; [exact Hg| |exact Hd].
  rewrite <- Ht. apply (Hint bs g Hbs Hg Hid).
Qed.

(** C7. A team without box score on a completed game before the cutoff
    gets all-zero rolling averages and 3 rest days; two teams without a
    completed game against each other before the cutoff get a
    head-to-head rate of exactly 1/2. The three functions are total: each
    of these calls returns its default. *)
Theorem cold_start_defaults
    (db : Db) (team_id opponent_id game_date : Z) (window : nat) :
  (no_prior_game db team_id game_date ->
     get_rolling_averages db team_id game_date window = zero_averages
     /\ get_days_rest db team_id game_date = 3)
  /\ (no_prior_meeting db team_id opponent_id game_date ->
        get_h2h_win_pct db team_id opponent_id game_date = (1 # 2)%Q).
Proof.
  split.
  - intros Hnone.
    assert (Hbox : List.filter
              (fun r => played_before team_id game_date (fst r) (snd r))
              (join_box_scores (team_box_scores db) (games db)) = []).
    { apply filter_none. intros [bs g] Hin. simpl.
      destruct (played_before team_id game_date bs g) eqn:E; [|reflexivity].
      apply played_before_spec in E. destruct E as (Ht & Hd & Hc).
      unfold join_box_scores in Hin. apply in_flat_map in Hin.
      destruct Hin as (b & Hb & Hin). apply in_map_iff in Hin.
      destruct Hin as (g0 & Heq & Hg0). inversion Heq; subst b g0.
      apply filter_In in Hg0. destruct Hg0 as [Hg Hid].
      apply String.eqb_eq in Hid.
      unfold is_completed in Hc. rewrite (Hnone bs g Hb Hg Hid Ht Hd) in Hc.
      discriminate. }
    assert (Hgame : List.filter
              (fun r => played_before team_id game_date (snd r) (fst r))
              (join_games (games db) (team_box_scores db)) = []).
    { apply filter_none. intros [g bs] Hin. simpl.
      destruct (played_before team_id game_date bs g) eqn:E; [|reflexivity].
      apply played_before_spec in E. destruct E as (Ht & Hd & Hc).
      unfold join_games in Hin. apply in_flat_map in Hin.
      destruct Hin as (g0 & Hg & Hin). apply in_map_iff in Hin.
      destruct Hin as (b & Heq & Hb). inversion Heq; subst b g0.
      apply filter_In in Hb. destruct Hb as [Hb Hid].
      apply String.eqb_eq in Hid.
      unfold is_completed in Hc. rewrite (Hnone bs g Hb Hg Hid Ht Hd) in Hc.
      discriminate. }
    split.
    + unfold get_rolling_averages, rolling_box_scores. rewrite Hbox. simpl.
      destruct window; reflexivity.
    + unfold get_days_rest, rest_games. rewrite Hgame. reflexivity.
  - intros Hnone. unfold get_h2h_win_pct.
    replace (h2h_games db team_id opponent_id game_date) with (@nil Game.t);
      [reflexivity|].
    symmetry. apply filter_none. intros g Hg.
    destruct (_ && _ && is_completed g) eqn:E; [|reflexivity].
    rewrite !andb_true_iff, orb_true_iff, !andb_true_iff, !Z.eqb_eq, Z.ltb_lt in E.
    destruct E as [[Hteams Hd] Hc].
    unfold is_completed in Hc. rewrite (Hnone g Hg Hteams Hd) in Hc. discriminate.
Qed.
End FormWindowClaims.

(** ** The training rows *)

Section TrainingRows.

Lemma feature_games_In (db : Db) (season_filter : option Z) (g : Game.t) :
  In g (feature_games db season_filter) <->
  In g (games db) /\ is_completed g = true /\ season_selected season_filter g = true.
Proof.
  unfold feature_games, season_selected. rewrite order_by_In.
  destruct season_filter as [s|].
  - destruct (Z.eqb_spec s 0) as [->|Hs]; simpl.
    + rewrite filter_In. tauto.
    + rewrite !filter_In. tauto.
  - rewrite filter_In. tauto.
Qed.

Lemma NoDup_map_filter {A B : Type} (f : A -> B) (p : A -> bool) (l : list A) :
  List.NoDup (map f l) -> List.NoDup (map f (List.filter p l)).
Proof.
  induction l as [|x l IH]; simpl; intros H; [constructor|].
  inversion H as [|? ? Hx Hl]; subst.
  destruct (p x); simpl; [|auto].
  constructor; [|auto].
  intros Hin. apply Hx. apply in_map_iff in Hin.
  destruct Hin as (y & Hy & Hin). apply filter_In in Hin.
  apply in_map_iff. exists y. tauto.
Qed.

Lemma feature_games_NoDup (db : Db) (season_filter : option Z) :
  List.NoDup (game_ids db) ->
  List.NoDup (map Game.game_id (feature_games db season_filter)).
Proof.
  intros Hnd. unfold feature_games.
  eapply Permutation_NoDup.
  { apply Permutation_map. symmetry. apply order_by_perm. }
  destruct season_filter as [s|]; [destruct (s =? 0)|];
    repeat apply NoDup_map_filter; exact Hnd.
Qed.

(** Every row of a game carries the key of the game. *)
Lemma game_rows_game_id (db : Db) (g : Game.t) :
  Forall (fun r => FeatureRow.game_id r = Game.game_id g) (game_rows db g).
Proof.
  unfold game_rows.
  destruct (Game.home_score g); [|constructor].
  destruct (Game.away_score g); repeat constructor.
Qed.

Lemma rows_of_game_same (db : Db) (g : Game.t) :
  rows_of_game (Game.game_id g) (game_rows db g) = game_rows db g.
Proof.
  unfold rows_of_game.
  assert (H := game_rows_game_id db g).
  induction H as [|r l Hr _ IH]; simpl; [reflexivity|].
  rewrite Hr, String.eqb_refl, IH. reflexivity.
Qed.

Lemma rows_of_game_other (db : Db) (g : Game.t) (gid : string) :
  Game.game_id g <> gid -> rows_of_game gid (game_rows db g) = [].
Proof.
  intros Hne. unfold rows_of_game. apply filter_none.
  intros r Hr. apply String.eqb_neq. intros E. apply Hne. rewrite <- E.
  symmetry. exact (proj1 (List.Forall_forall _ _) (game_rows_game_id db g) r Hr).
Qed.

Lemma rows_of_game_app (gid : string) (a b : list FeatureRow.t) :
  rows_of_game gid (a ++ b) = rows_of_game gid a ++ rows_of_game gid b.
Proof. apply List.filter_app. Qed.

Lemma rows_of_game_absent (db : Db) (gid : string) (l : list Game.t) :
  ~ In gid (map Game.game_id l) ->
  rows_of_game gid (flat_map (game_rows db) l) = [].
Proof.
  induction l as [|x l IH]; simpl; intros Hx; [reflexivity|].
  rewrite rows_of_game_app, rows_of_game_other, IH; auto.
Qed.

(** Among games with distinct keys, the rows with the key of [g] are the
    rows of [g]. *)
Lemma rows_of_game_flat_map (db : Db) (g : Game.t) (l : list Game.t) :
  List.NoDup (map Game.game_id l) -> In g l ->
  rows_of_game (Game.game_id g) (flat_map (game_rows db) l) = game_rows db g.
Proof.
  induction l as [|x l IH]; simpl; intros Hnd Hin; [destruct Hin|].
  inversion Hnd as [|? ? Hx Hl]; subst.
  rewrite rows_of_game_app. destruct Hin as [->|Hin].
  - rewrite rows_of_game_same, rows_of_game_absent by exact Hx.
    apply app_nil_r.
  - rewrite rows_of_game_other; [apply IH; assumption|].
    intros E. apply Hx. rewrite E. now apply in_map.
Qed.

(** C9. With distinct game keys, a game of the table with both scores
    (and of the selected season) has exactly two rows in the feature set,
    the home row followed by the away row; the away row's [elo_diff] and
    [rest_advantage] are the negations of the home row's, and the two
    [target_did_win] sum to 1. *)
Theorem training_rows_mirror_each_other
    (db : Db) (season_filter : option Z) (game : Game.t) (hs aws : Z) :
  List.NoDup (game_ids db) ->
  In game (games db) ->
  Game.home_score game = Some hs ->
  Game.away_score game = Some aws ->
  season_selected season_filter game = true ->
  exists home_row away_row,
    rows_of_game (Game.game_id game) (create_feature_set db season_filter)
      = [home_row; away_row]
    /\ FeatureRow.is_home home_row = 1
    /\ FeatureRow.team_id home_row = Game.home_team_id game
    /\ FeatureRow.is_home away_row = 0
    /\ FeatureRow.team_id away_row = Game.away_team_id game
    /\ FeatureRow.elo_diff away_row = (- FeatureRow.elo_diff home_row)%R
    /\ FeatureRow.rest_advantage away_row = - FeatureRow.rest_advantage home_row
    /\ FeatureRow.target_did_win home_row + FeatureRow.target_did_win away_row = 1.
Proof.
  intros Hnd Hin Hhs Haws Hsel.
  assert (Hfg : In game (feature_games db season_filter)).
  { apply feature_games_In. unfold is_completed. rewrite Hhs. auto. }
  unfold create_feature_set.
  rewrite (rows_of_game_flat_map db game _ (feature_games_NoDup _ _ Hnd) Hfg).
  unfold game_rows. rewrite Hhs, Haws.
  eexists. eexists. split; [reflexivity|]. simpl.
  repeat split; try lia. lra.
Qed.
End TrainingRows.

(** ** Odds conversion *)

Section OddsConversion.
Local Open Scope Q_scope.

Lemma moneyline_to_payout_spec (m : Z) (stake : Q) :
  m <> 0%Z -> moneyline_to_payout m stake = Ok (spec_payout m stake).
Proof.
  intros Hm. unfold moneyline_to_payout, spec_payout.
  destruct (m >? 0)%Z; [reflexivity|].
  destruct (Z.eqb_spec (Z.abs m) 0) as [E|_]; [lia|reflexivity].
Qed.

(** C8. For a moneyline [m] other than 0: the implied probability is
    [100/(m+100)] for positive [m] and [|m|/(|m|+100)] for negative [m];
    the payout is returned and is the stake plus the winnings,
    [stake*m/100] for positive and [stake*100/|m|] for negative [m]. And
    [+150] gives 0.4, [-150] gives 0.6, the payout of 100 at [+150] is
    250, and at [-150] it is 166.67 within 0.01. *)
Theorem odds_conversion :
  (forall (m : Z) (stake : Q),
      m <> 0%Z ->
      ((0 < m)%Z ->
         moneyline_to_implied_prob m == inject_Z 100 / inject_Z (m + 100))
      /\ ((m < 0)%Z ->
            moneyline_to_implied_prob m
            == inject_Z (Z.abs m) / inject_Z (Z.abs m + 100))
      /\ exists payout,
           moneyline_to_payout m stake = Ok payout
           /\ ((0 < m)%Z -> payout - stake == stake * inject_Z m / inject_Z 100)
           /\ ((m < 0)%Z ->
                 payout - stake == stake * inject_Z 100 / inject_Z (Z.abs m)))
  /\ moneyline_to_implied_prob 150 == 4 # 10
  /\ moneyline_to_implied_prob (-150) == 6 # 10
  /\ (exists payout,
        moneyline_to_payout 150 (100 # 1) = Ok payout /\ payout == 250 # 1)
  /\ (exists payout,
        moneyline_to_payout (-150) (100 # 1) = Ok payout
        /\ Qabs (payout - (16667 # 100)) <= 1 # 100).
Proof.
  split; [|split; [|split; [|split]]].
  - intros m stake Hm. split; [|split].
    + intros Hpos. unfold moneyline_to_implied_prob.
      replace (m >? 0)%Z with true by (symmetry; apply Z.gtb_lt, Hpos).
      reflexivity.
    + intros Hneg. unfold moneyline_to_implied_prob.
      replace (m >? 0)%Z with false; [reflexivity|].
      symmetry. rewrite Z.gtb_ltb. apply Z.ltb_ge. lia.
    + exists (spec_payout m stake). split; [apply moneyline_to_payout_spec, Hm|].
      unfold spec_payout. split.
      * intros Hpos.
        replace (m >? 0)%Z with true by (symmetry; apply Z.gtb_lt, Hpos).
        field.
      * intros Hneg.
        replace (m >? 0)%Z with false
          by (symmetry; rewrite Z.gtb_ltb; apply Z.ltb_ge; lia).
        field. intros E. unfold Qeq in E. simpl in E. lia.
  - vm_compute. reflexivity.
  - vm_compute. reflexivity.
  - eexists. split; [reflexivity|]. vm_compute. reflexivity.
  - eexists. split; [reflexivity|]. vm_compute. discriminate.
Qed.
End OddsConversion.

(** ** The backtest *)

Section BacktestClaims.
Variable model_win_proba : FeatureRow.t -> Q.
Variables (odds : list Odds.t) (edge_threshold bet_amount : Q).

Lemma odds_dict_append_lookup (d : gmap string (list Odds.t)) (o : Odds.t)
    (gid : string) :
  odds_dict_append d o !! gid =
  if String.eqb (Odds.game_id o) gid
  then Some (default [] (d !! gid) ++ [o])
  else d !! gid.
Proof.
  unfold odds_dict_append.
  destruct (String.eqb_spec (Odds.game_id o) gid) as [->|Hne].
  - destruct (d !! gid) as [l|] eqn:E.
    + rewrite E, lookup_insert_eq. reflexivity.
    + rewrite !lookup_insert_eq. reflexivity.
  - destruct (d !! Odds.game_id o) as [l|] eqn:E.
    + rewrite E. now rewrite lookup_insert_ne.
    + rewrite lookup_insert_eq. now rewrite !lookup_insert_ne.
Qed.

(** After the filling loop, a game maps to its quotes in query order. *)
Lemma odds_dict_fold_lookup (gid : string) (l : list Odds.t) :
  forall d : gmap string (list Odds.t),
  fold_left odds_dict_append l d !! gid =
  match List.filter (fun o => String.eqb (Odds.game_id o) gid) l with
  | [] => d !! gid
  | q :: qs => Some (default [] (d !! gid) ++ q :: qs)
  end.
Proof.
  induction l as [|o l IH]; intros d; simpl; [reflexivity|].
  rewrite IH, odds_dict_append_lookup.
  destruct (String.eqb (Odds.game_id o) gid); simpl.
  - destruct (List.filter _ l) as [|q qs]; [reflexivity|].
    now rewrite <- app_assoc.
  - reflexivity.
Qed.

Lemma build_odds_dict_lookup (game_ids : list string) (gid : string) :
  In gid game_ids ->
  build_odds_dict game_ids odds !! gid =
  match List.filter (fun o => String.eqb (Odds.game_id o) gid) odds with
  | [] => None
  | q :: qs => Some (q :: qs)
  end.
Proof.
  intros Hin. unfold build_odds_dict.
  rewrite odds_dict_fold_lookup, filter_filter_andb, lookup_empty. simpl.
  replace (List.filter _ odds)
    with (List.filter (fun o => String.eqb (Odds.game_id o) gid) odds);
    [reflexivity|].
  apply filter_ext. intros o.
  destruct (String.eqb_spec (Odds.game_id o) gid) as [->|_];
    [|now rewrite andb_false_r].
  symmetry. rewrite andb_true_r. apply existsb_exists.
  exists gid. split; [exact Hin|apply String.eqb_refl].
Qed.

(** One turn of the loop, on a row whose game is among the test games:
    nothing happens unless the row is a value bet; a value bet adds one
    bet, its profit and its ledger line, and one win if it won. *)
Lemma simulate_row_eq (game_ids : list string) (acc : Tally) (row : FeatureRow.t) :
  In (FeatureRow.game_id row) game_ids ->
  (spec_places_bet model_win_proba odds edge_threshold row = true ->
   is_win row = true -> spec_quote odds row <> Some 0) ->
  simulate_row model_win_proba (build_odds_dict game_ids odds)
    edge_threshold bet_amount acc row
  = Ok (if spec_places_bet model_win_proba odds edge_threshold row
        then mkTally (t_total_bets acc + 1)
               (if is_win row then t_total_won acc + 1 else t_total_won acc)
               (t_total_profit acc + spec_profit odds bet_amount row)%Q
               (t_bets_placed acc
                ++ [spec_ledger_line model_win_proba odds bet_amount row])
        else acc).
Proof.
  intros Hin Hnz. unfold simulate_row.
  rewrite (build_odds_dict_lookup _ _ Hin).
  unfold spec_places_bet, spec_ledger_line, spec_profit, is_win, spec_quote in *.
  destruct (List.filter _ odds) as [|o qs]; [reflexivity|].
  destruct (Z.eqb_spec (FeatureRow.is_home row) 0) as [E|E]; simpl.
  - destruct (Odds.away_team_moneyline o) as [m|]; [|reflexivity].
    destruct (Qgtb _ edge_threshold); [|reflexivity].
    destruct (FeatureRow.target_did_win row =? 1); [|reflexivity].
    rewrite moneyline_to_payout_spec by (intros ->; now apply Hnz).
    reflexivity.
  - destruct (Odds.home_team_moneyline o) as [m|]; [|reflexivity].
    destruct (Qgtb _ edge_threshold); [|reflexivity].
    destruct (FeatureRow.target_did_win row =? 1); [|reflexivity].
    rewrite moneyline_to_payout_spec by (intros ->; now apply Hnz).
    reflexivity.
Qed.

(** The whole loop: the tally grows by the value bets among the rows and
    by nothing else. *)
Lemma simulate_rows_eq (game_ids : list string) (rows : list FeatureRow.t) :
  forall acc : Tally,
  (forall row, In row rows -> In (FeatureRow.game_id row) game_ids) ->
  (forall row, In row rows ->
     spec_places_bet model_win_proba odds edge_threshold row = true ->
     is_win row = true -> spec_quote odds row <> Some 0) ->
  let bets := List.filter (spec_places_bet model_win_proba odds edge_threshold) rows in
  exists acc',
    simulate_rows model_win_proba (build_odds_dict game_ids odds)
      edge_threshold bet_amount acc rows = Ok acc'
    /\ t_total_bets acc' = t_total_bets acc + Z.of_nat (length bets)
    /\ t_total_won acc'
       = t_total_won acc + Z.of_nat (length (List.filter is_win bets))
    /\ t_total_profit acc'
       = fold_left Qplus (map (spec_profit odds bet_amount) bets) (t_total_profit acc)
    /\ t_bets_placed acc'
       = t_bets_placed acc
         ++ map (spec_ledger_line model_win_proba odds bet_amount) bets.
Proof.
  induction rows as [|row rows IH]; intros acc Hids Hnz; simpl.
  - exists acc. rewrite !Z.add_0_r, app_nil_r. auto.
  - assert (Hids' : forall r, In r rows -> In (FeatureRow.game_id r) game_ids)
      by (intros r Hr; apply Hids; right; exact Hr).
    assert (Hnz' : forall r, In r rows ->
              spec_places_bet model_win_proba odds edge_threshold r = true ->
              is_win r = true -> spec_quote odds r <> Some 0)
      by (intros r Hr; apply Hnz; right; exact Hr).
    rewrite (simulate_row_eq game_ids acc row);
      [|apply Hids; left; reflexivity|apply Hnz; left; reflexivity]. simpl.
    destruct (spec_places_bet model_win_proba odds edge_threshold row) eqn:Ev.
    + match goal with |- context [simulate_rows _ _ _ _ ?a rows] =>
        destruct (IH a Hids' Hnz') as (acc' & Hrun & Hb & Hw & Hp & Hl) end.
      exists acc'. simpl in *. rewrite Hrun, Hb, Hw, Hp, Hl.
      repeat split; try lia.
      * destruct (is_win row); simpl; lia.
      * now rewrite <- app_assoc.
    + destruct (IH acc Hids' Hnz') as (acc' & Hrun & Hb & Hw & Hp & Hl).
      exists acc'. auto.
Qed.
End BacktestClaims.

Section BacktestTheorem.
Local Open Scope Q_scope.

Lemma Qeq_bool_stake (n : Z) (stake : Q) :
  (0 < n)%Z -> ~ stake == 0 -> Qeq_bool (inject_Z n * stake) (0 # 1) = false.
Proof.
  intros Hn Hs. destruct (Qeq_bool (inject_Z n * stake) (0 # 1)) eqn:E;
    [|reflexivity].
  apply Qeq_bool_eq, Qmult_integral in E. destruct E as [E|E]; [|contradiction].
  unfold Qeq in E. simpl in E. lia.
Qed.

Lemma match_nonempty {A B : Type} (l : list A) (a b : B) :
  l <> [] -> match l with [] => a | _ :: _ => b end = b.
Proof. destruct l; [congruence|reflexivity]. Qed.

(** C3. On a test season with at least one row, a stake other than 0 and
    no winning value bet quoted at moneyline 0, the simulation returns a
    result in which: the bets are exactly the rows that have a quote (the
    moneyline, on the row's side, of the first quote of the game) and an
    edge [modelProb - impliedProb] strictly above the threshold, every
    other row adding nothing; the profit of a bet is [payout - stake] on a
    win and [-stake] on a loss; [win_rate] is [wins/bets*100] and [roi] is
    [totalProfit/(bets*stake)*100], both 0 without bets. On the three-row
    test set the result has 2 bets, 1 win, a total profit of -33.33 and a
    roi of -16.67 (within 0.01), from profits of 66.67 and -100. *)
Theorem backtest_tallies_value_bets :
  (forall (model_win_proba : FeatureRow.t -> Q) (odds : list Odds.t)
          (features_df : list FeatureRow.t) (test_season : Z)
          (edge_threshold bet_amount : Q),
      let test_df :=
        List.filter (fun row => (FeatureRow.season row =? test_season)%Z) features_df in
      let bets :=
        List.filter (spec_places_bet model_win_proba odds edge_threshold) test_df in
      let wins := List.filter is_win bets in
      test_df <> [] ->
      ~ bet_amount == 0 ->
      (forall row, In row wins -> spec_quote odds row <> Some 0%Z) ->
      exists sim,
        run_profitability_simulation model_win_proba odds features_df
          test_season edge_threshold bet_amount = Ok (Some sim)
        /\ total_bets sim = Z.of_nat (length bets)
        /\ total_won sim = Z.of_nat (length wins)
        /\ total_lost sim = (Z.of_nat (length bets) - Z.of_nat (length wins))%Z
        /\ total_profit sim = sumQ (map (spec_profit odds bet_amount) bets)
        /\ win_rate sim
           = spec_win_rate (Z.of_nat (length bets)) (Z.of_nat (length wins))
        /\ roi sim
           = spec_roi (Z.of_nat (length bets))
               (sumQ (map (spec_profit odds bet_amount) bets)) bet_amount
        /\ (length bets = 0%nat -> win_rate sim = 0 # 1 /\ roi sim = 0 # 1)
        /\ bets_placed sim
           = map (spec_ledger_line model_win_proba odds bet_amount) bets)
  /\ exists sim,
       run_profitability_simulation test_model test_odds [row_a; row_b; row_c]
         2024 (3 # 100) (100 # 1) = Ok (Some sim)
       /\ total_bets sim = 2%Z
       /\ total_won sim = 1%Z
       /\ Qabs (total_profit sim - (-3333 # 100)) <= 1 # 100
       /\ Qabs (roi sim - (-1667 # 100)) <= 1 # 100
       /\ exists bet_a bet_b,
            bets_placed sim = [bet_a; bet_b]
            /\ Bet.game_id bet_a = "A"%string
            /\ Bet.edge bet_a == 5 # 100
            /\ Qabs (Bet.profit bet_a - (6667 # 100)) <= 1 # 100
            /\ Bet.game_id bet_b = "B"%string
            /\ Bet.edge bet_b == 10 # 100
            /\ Bet.profit bet_b == - (100 # 1).
Proof.
  split.
  - intros model_win_proba odds features_df test_season edge_threshold
      bet_amount test_df bets wins Hne Hstake Hnz.
    assert (Hf : features_df <> [])
      by (intros E; apply Hne; unfold test_df; rewrite E; reflexivity).
    unfold run_profitability_simulation.
    rewrite (match_nonempty features_df _ _ Hf). fold test_df.
    rewrite (match_nonempty test_df _ _ Hne).
    assert (Hids : forall row, In row test_df ->
              In (FeatureRow.game_id row) (map FeatureRow.game_id test_df))
      by (intros row Hrow; now apply in_map).
    assert (Hnz' : forall row, In row test_df ->
              spec_places_bet model_win_proba odds edge_threshold row = true ->
              is_win row = true -> spec_quote odds row <> Some 0%Z).
    { intros row Hrow Hv Hwin. apply Hnz. unfold wins, bets.
      rewrite !filter_In. auto. }
    destruct (simulate_rows_eq model_win_proba odds edge_threshold bet_amount
                (map FeatureRow.game_id test_df) test_df
                (mkTally 0 0 (0 # 1) []) Hids Hnz')
      as (acc & Hrun & Hb & Hw & Hp & Hl).
    fold bets in Hb, Hw, Hp, Hl. fold wins in Hw.
    simpl in Hb, Hw, Hp, Hl. rewrite Z.add_0_l in Hb, Hw.
    rewrite Hrun. cbn [mbind result_bind].
    rewrite Hb, Hw, Hp, Hl. fold (sumQ (map (spec_profit odds bet_amount) bets)).
    unfold spec_win_rate, spec_roi.
    destruct (Z.ltb_spec 0 (Z.of_nat (length bets))) as [Hpos|Hzero].
    + rewrite (Qeq_bool_stake _ _ Hpos Hstake). cbn [mbind result_bind].
      eexists. split; [reflexivity|]. cbn [total_bets total_won total_lost
        win_rate total_profit roi bets_placed].
      repeat split;
        match goal with
        | H : length bets = 0%nat |- _ => rewrite H in Hpos; simpl in Hpos; lia
        end.
    + cbn [mbind result_bind].
      eexists. split; [reflexivity|]. cbn [total_bets total_won total_lost
        win_rate total_profit roi bets_placed].
      repeat split.
  - eexists. split; [vm_compute; reflexivity|]. simpl.
    split; [reflexivity|]. split; [reflexivity|].
    split; [vm_compute; discriminate|]. split; [vm_compute; discriminate|].
    eexists. eexists. split; [reflexivity|]. simpl.
    split; [reflexivity|]. split; [vm_compute; reflexivity|].
    split; [vm_compute; discriminate|]. split; [reflexivity|].
    split; vm_compute; reflexivity.
Qed.
End BacktestTheorem.

(** ** The properties on the sample data *)

Section SampleData.
Local Open Scope R_scope.

(** C5 on the league: both teams are registered, the pass returns. *)
Lemma rating_pass_total_on_registered_teams_witness :
  exists db', calculate_elo_ratings league_db = Ok db'.
Proof.
  destruct (rating_pass_total_on_registered_teams league_db)
    as (stamped & final & _ & Hc & _).
  - constructor; [split; vm_compute; auto|constructor].
  - eexists. exact Hc.
Defined.

(** C6 on the league: the scheduled return game after the first game. *)
Lemma scheduled_game_leaves_ratings_witness :
  match elo_loop (init_elo_ratings [lakers; celtics]) ([lal_bos] ++ []) with
  | Ok (out, final) =>
      exists g',
        elo_loop (init_elo_ratings [lakers; celtics])
          ([lal_bos] ++ bos_lal_scheduled :: [])
        = Ok (take (length [lal_bos]) out ++ g' :: drop (length [lal_bos]) out, final)
  | Raise e =>
      elo_loop (init_elo_ratings [lakers; celtics])
        ([lal_bos] ++ bos_lal_scheduled :: []) = Raise e
  end.
Proof.
  refine (proj2 (proj2 (scheduled_game_leaves_ratings
                          (init_elo_ratings [lakers; celtics])
                          [lal_bos] [] bos_lal_scheduled _)) _ _).
  - reflexivity.
  - eexists. reflexivity.
  - eexists. reflexivity.
Defined.


(** C4 on the rated league: the Lakers won their only stamped game, so
    their current rating is the stamp plus 15. *)
Lemma get_current_elo_nudges_last_stamp_witness :
  get_current_elo league_db_rated 1 = Ok (Some (1500 + 15)).
Proof.
  destruct (get_current_elo_nudges_last_stamp league_db_rated 1)
    as [[Hnone _]|(g & Hin & _ & _ & _ & _ & Hget)].
  - specialize (Hnone (stamp lal_bos 1500 1500)). simpl in Hnone.
    unfold plays_in in Hnone. simpl in Hnone.
    assert (H : Some 1500 = @None R) by (apply Hnone; auto).
    discriminate H.
  - destruct Hin as [<-|[]].
    exact (Hget 110%Z 102%Z 1500 eq_refl eq_refl eq_refl).
Defined.

(** The ELO entries of the feature dict of a prediction on the rated
    league: 1515 for the winner of the last game, 1485 for the loser. *)
Lemma prediction_elo_features_league :
  prediction_elo_features league_db_rated 1 2
  = Ok (Some (1500 + 15), Some (1500 - 15), 1500 + 15 - (1500 - 15)).
Proof. reflexivity. Qed.

(** C2 on the season: the return game, played on the cutoff day, changes
    nothing at that cutoff. *)
Lemma form_window_sees_no_later_game_witness :
  get_rolling_averages season_db_later 1 738917 ROLLING_WINDOW
    = get_rolling_averages season_db 1 738917 ROLLING_WINDOW
  /\ get_h2h_win_pct season_db_later 1 2 738917 = get_h2h_win_pct season_db 1 2 738917
  /\ get_days_rest season_db_later 1 738917 = get_days_rest season_db 1 738917.
Proof.
  destruct (form_window_sees_no_later_game season_db season_db_later
              1 2 738917 ROLLING_WINDOW) as (Hr & Hh & Hd & _).
  - apply inserted_new; [unfold dated_from; simpl; lia|].
    apply inserted_keep, inserted_nil.
  - apply inserted_keep.
    apply inserted_new; [simpl; intros [H|[]]; discriminate H|].
    apply inserted_keep.
    apply inserted_new; [simpl; intros [H|[]]; discriminate H|].
    apply inserted_nil.
  - auto.
Defined.

(** C7 on the league, which has no box score, and two teams that have not
    met before the day of their first game. *)
Lemma cold_start_defaults_witness :
  get_rolling_averages league_db 1 738900 ROLLING_WINDOW = zero_averages
  /\ get_days_rest league_db 1 738900 = 3%Z
  /\ get_h2h_win_pct league_db 1 2 738900 = (1 # 2)%Q.
Proof.
  destruct (cold_start_defaults league_db 1 2 738900 ROLLING_WINDOW) as [Hteam Hpair].
  destruct Hteam as [Hr Hd].
  - intros bs g [].
  - split; [exact Hr|]. split; [exact Hd|].
    apply Hpair. intros g [<-|[]] _ Hdate. simpl in Hdate. lia.
Defined.

(** C9 on the first game of the rated league. *)
Lemma training_rows_mirror_each_other_witness :
  exists home_row away_row,
    rows_of_game "2024-01-15-LAL-BOS" (create_feature_set league_db_rated None)
      = [home_row; away_row]
    /\ FeatureRow.elo_diff away_row = - FeatureRow.elo_diff home_row
    /\ (FeatureRow.target_did_win home_row + FeatureRow.target_did_win away_row = 1)%Z.
Proof.
  destruct (training_rows_mirror_each_other league_db_rated None
              (stamp lal_bos 1500 1500) 110 102)
    as (h & a & Hrows & _ & _ & _ & _ & Helo & _ & Hwin).
  - repeat constructor. simpl. tauto.
  - simpl. auto.
  - reflexivity.
  - reflexivity.
  - reflexivity.
  - exists h, a. auto.
Defined.

(** C8 at [+150] with a stake of 100. *)
Lemma odds_conversion_witness :
  (moneyline_to_implied_prob 150 == inject_Z 100 / inject_Z (150 + 100))%Q
  /\ exists payout,
       moneyline_to_payout 150 (100 # 1) = Ok payout
       /\ (payout - (100 # 1) == (100 # 1) * inject_Z 150 / inject_Z 100)%Q.
Proof.
  destruct (proj1 odds_conversion 150%Z (100 # 1)%Q) as (Hpos & _ & p & Hp & Hwin & _).
  - lia.
  - split; [apply Hpos; lia|]. exists p. split; [exact Hp|apply Hwin; lia].
Defined.

(** C3 on the three-row test set: two bets, one of them won. *)
Lemma backtest_tallies_value_bets_witness :
  exists sim,
    run_profitability_simulation test_model test_odds [row_a; row_b; row_c]
      2024 (3 # 100) (100 # 1) = Ok (Some sim)
    /\ total_bets sim = 2%Z /\ total_won sim = 1%Z /\ total_lost sim = 1%Z.
Proof.
  destruct (proj1 backtest_tallies_value_bets test_model test_odds
              [row_a; row_b; row_c] 2024%Z (3 # 100)%Q (100 # 1)%Q)
    as (sim & Hrun & Hb & Hw & Hl & _).
  - vm_compute. discriminate.
  - vm_compute. discriminate.
  - intros row Hin. vm_compute in Hin. destruct Hin as [<-|[]].
    vm_compute. discriminate.
  - exists sim. split; [exact Hrun|]. split; [exact Hb|]. split; [exact Hw|exact Hl].
Defined.
End SampleData.

(** * Further properties of the code *)

(** ** The rating update *)

Section RatingUpdate.
Local Open Scope R_scope.

Lemma Rpower_10_pos (x : R) : 0 < Rpower 10 x.
Proof. unfold Rpower. apply exp_pos. Qed.

Lemma ln_10_pos : 0 < ln 10.
Proof. rewrite <- ln_1. apply ln_increasing; lra. Qed.

Lemma Rpower_10_lt_1 (x : R) : Rpower 10 x < 1 <-> x < 0.
Proof.
  split; [|apply Rpower_10_neg].
  intros H. destruct (Rlt_le_dec x 0) as [Hlt|Hge]; [exact Hlt|exfalso].
  assert (Hle : 1 <= Rpower 10 x).
  { unfold Rpower. rewrite <- exp_0.
    destruct Hge as [Hgt | <-].
    - left. apply exp_increasing. apply Rmult_lt_0_compat; [exact Hgt|apply ln_10_pos].
    - rewrite Rmult_0_l. right. reflexivity. }
  lra.
Qed.

Lemma Rpower_10_le (x y : R) : x <= y -> Rpower 10 x <= Rpower 10 y.
Proof.
  intros [Hlt | ->]; [left|right; reflexivity].
  unfold Rpower. apply exp_increasing.
  apply Rmult_lt_compat_r; [apply ln_10_pos|exact Hlt].
Qed.

(** [1 / (1 + p)] for a positive [p]. *)
Lemma logistic_bounds (p : R) : 0 < p -> 0 < 1 / (1 + p) < 1.
Proof.
  intros Hp.
  assert (Hq : (1 + p) * / (1 + p) = 1) by (apply Rinv_r; lra).
  assert (Hqpos : 0 < / (1 + p)) by (apply Rinv_0_lt_compat; lra).
  unfold Rdiv. split; nra.
Qed.

Lemma logistic_antitone (p q : R) : 0 < p -> p <= q -> 1 / (1 + q) <= 1 / (1 + p).
Proof.
  intros Hp Hpq. unfold Rdiv. rewrite !Rmult_1_l.
  apply Rinv_le_contravar; lra.
Qed.

Lemma logistic_half (p : R) : 0 < p -> (1 / 2 < 1 / (1 + p) <-> p < 1).
Proof.
  intros Hp.
  assert (Hq : (1 + p) * / (1 + p) = 1) by (apply Rinv_r; lra).
  assert (Hqpos : 0 < / (1 + p)) by (apply Rinv_0_lt_compat; lra).
  unfold Rdiv. split; intros H; nra.
Qed.

Lemma expected_home_win_bounds (rh ra : R) : 0 < expected_home_win_of rh ra < 1.
Proof. unfold expected_home_win_of. apply logistic_bounds, Rpower_10_pos. Qed.

(** X1. The expected home score lies strictly between 0 and 1; the home
    team is the favourite (expected score above 1/2) exactly when the away
    rating is below the home rating plus the home advantage, so at equal
    ratings the home team is the favourite; and the expected home score
    does not fall when the home rating rises or the away rating falls. *)
Theorem expected_home_win_favours_home :
  (forall rh ra, 0 < expected_home_win_of rh ra < 1)
  /\ (forall rh ra,
        1 / 2 < expected_home_win_of rh ra <-> ra < rh + IZR ELO_HOME_ADVANTAGE)
  /\ (forall r, 1 / 2 < expected_home_win_of r r)
  /\ (forall rh rh' ra ra',
        rh <= rh' -> ra' <= ra ->
        expected_home_win_of rh ra <= expected_home_win_of rh' ra').
Proof.
  split; [exact expected_home_win_bounds|]. split; [|split].
  - intros rh ra. unfold expected_home_win_of.
    rewrite logistic_half by apply Rpower_10_pos.
    rewrite Rpower_10_lt_1. unfold ELO_HOME_ADVANTAGE. split; intros H; lra.
  - intros r. unfold expected_home_win_of.
    apply logistic_half; [apply Rpower_10_pos|].
    apply Rpower_10_lt_1. unfold ELO_HOME_ADVANTAGE. lra.
  - intros rh rh' ra ra' Hh Ha. unfold expected_home_win_of.
    apply logistic_antitone; [apply Rpower_10_pos|].
    apply Rpower_10_le. unfold ELO_HOME_ADVANTAGE. lra.
Qed.

(** X2. A decisive game between two different teams raises the rating of
    the winner and lowers the rating of the loser, each by an amount
    strictly between 0 and [K] (20), and leaves every other rating as it
    was. Floats are taken as exact reals; whether the two amounts are
    equal is the matter of C10. *)
Theorem decisive_game_raises_winner_lowers_loser
    (elo : gmap Z R) (g : Game.t) (rh ra : R) (hs aws : Z) :
  elo !! Game.home_team_id g = Some rh ->
  elo !! Game.away_team_id g = Some ra ->
  Game.home_team_id g <> Game.away_team_id g ->
  Game.home_score g = Some hs ->
  Game.away_score g = Some aws ->
  hs <> aws ->
  exists gain loss elo',
    0 < gain < IZR ELO_K_FACTOR
    /\ 0 < loss < IZR ELO_K_FACTOR
    /\ elo_game elo g = Ok (stamp g rh ra, elo')
    /\ elo' !! Game.home_team_id g
       = Some (if (aws <? hs)%Z then rh + gain else rh - loss)
    /\ elo' !! Game.away_team_id g
       = Some (if (aws <? hs)%Z then ra - loss else ra + gain)
    /\ forall t, ~ plays_in t g -> elo' !! t = elo !! t.
Proof.
  intros Hh Ha Hne Ehs Eaws Hdec.
  assert (HE := expected_home_win_bounds rh ra).
  rewrite (elo_game_eq _ _ _ _ Hh Ha), Ehs, Eaws.
  unfold actual_scores. rewrite Z.gtb_ltb.
  destruct (Z.ltb_spec aws hs) as [Hw|Hl].
  - exists (IZR ELO_K_FACTOR * (1 - expected_home_win_of rh ra)).
    exists (- (IZR ELO_K_FACTOR * (0 - (1 - expected_home_win_of rh ra)))). eexists.
    split; [unfold ELO_K_FACTOR; lra|]. split; [unfold ELO_K_FACTOR; lra|].
    split; [reflexivity|]. simpl.
    split; [|split].
    + rewrite lookup_insert_ne by congruence. rewrite lookup_insert_eq. reflexivity.
    + rewrite lookup_insert_eq. f_equal. lra.
    + intros t Ht. unfold plays_in in Ht.
      rewrite !lookup_insert_ne; [reflexivity|intros E; apply Ht; auto..].
  - replace (hs <? aws)%Z with true by (symmetry; apply Z.ltb_lt; lia).
    exists (IZR ELO_K_FACTOR * (1 - (1 - expected_home_win_of rh ra))).
    exists (- (IZR ELO_K_FACTOR * (0 - expected_home_win_of rh ra))). eexists.
    split; [unfold ELO_K_FACTOR; lra|]. split; [unfold ELO_K_FACTOR; lra|].
    split; [reflexivity|]. simpl.
    split; [|split].
    + rewrite lookup_insert_ne by congruence. rewrite lookup_insert_eq. f_equal. lra.
    + rewrite lookup_insert_eq. reflexivity.
    + intros t Ht. unfold plays_in in Ht.
      rewrite !lookup_insert_ne; [reflexivity|intros E; apply Ht; auto..].
Qed.
End RatingUpdate.

(** ** The rating pass on the database *)

Section RatingPassDb.
Local Open Scope R_scope.

Lemma elo_game_stamped (elo elo' : gmap Z R) (g g' : Game.t) :
  elo_game elo g = Ok (g', elo') ->
  exists rh ra,
    elo !! Game.home_team_id g = Some rh
    /\ elo !! Game.away_team_id g = Some ra
    /\ g' = stamp g rh ra.
Proof.
  intros H. assert (Hd := H). unfold elo_game in Hd.
  destruct (dict_get elo (Game.home_team_id g)) as [rh|] eqn:Hh; [|discriminate].
  destruct (dict_get elo (Game.away_team_id g)) as [ra|] eqn:Ha; [|discriminate].
  apply dict_get_Ok in Hh, Ha.
  rewrite (elo_game_eq _ _ _ _ Hh Ha) in H. inversion H. eauto.
Qed.

(** The output of the loop is its input, row by row, with stamps written. *)
Lemma elo_loop_stamped (gs : list Game.t) :
  forall (elo final : gmap Z R) (out : list Game.t),
  elo_loop elo gs = Ok (out, final) -> Forall2 stamped_of gs out.
Proof.
  induction gs as [|g gs IH]; intros elo final out H.
  - simpl in H. inversion H. constructor.
  - apply elo_loop_cons_inv in H. destruct H as (g' & elo' & out' & Hg & Hl & ->).
    constructor; [|eauto].
    apply elo_game_stamped in Hg. destruct Hg as (rh & ra & _ & _ & ->).
    exists rh, ra. reflexivity.
Qed.

Lemma stamped_of_game_id (g g' : Game.t) :
  stamped_of g g' -> Game.game_id g' = Game.game_id g.
Proof. intros (rh & ra & ->). reflexivity. Qed.

Lemma stamped_of_map_game_id (gs out : list Game.t) :
  Forall2 stamped_of gs out -> map Game.game_id out = map Game.game_id gs.
Proof.
  induction 1 as [|g s gs out Hs _ IH]; simpl; [reflexivity|].
  now rewrite (stamped_of_game_id _ _ Hs), IH.
Qed.

Lemma find_app_skip {A : Type} (f : A -> bool) (l1 l2 : list A) (y : A) :
  (forall x, In x l1 -> f x = false) -> f y = true ->
  find f (l1 ++ y :: l2) = Some y.
Proof.
  intros Hskip Hy. induction l1 as [|x l1 IH]; simpl.
  - now rewrite Hy.
  - rewrite (Hskip x) by (left; reflexivity). apply IH.
    intros z Hz. apply Hskip. now right.
Qed.

(** With distinct keys, the committed row of [g] is the stamped row the
    loop produced at the place of [g]. *)
Lemma find_stamped_middle (l1 l2 out1 out2 : list Game.t) (g s : Game.t) :
  List.NoDup (map Game.game_id (l1 ++ g :: l2)) ->
  Forall2 stamped_of l1 out1 ->
  Game.game_id s = Game.game_id g ->
  find (fun x => String.eqb (Game.game_id x) (Game.game_id g)) (out1 ++ s :: out2)
  = Some s.
Proof.
  intros Hnd H1 Hs. apply find_app_skip.
  - intros x Hx. apply String.eqb_neq. intros E.
    rewrite map_app in Hnd. simpl in Hnd. apply NoDup_remove_2 in Hnd.
    apply Hnd, in_or_app. left.
    rewrite <- (stamped_of_map_game_id _ _ H1), <- E. now apply in_map.
  - rewrite Hs. apply String.eqb_refl.
Qed.

(** What the pass writes for the game at one place of its order. *)
Lemma committed_stamp (db : Db) (stamped : list Game.t) (final : gmap Z R)
    (l1 l2 : list Game.t) (g : Game.t) :
  List.NoDup (game_ids db) ->
  elo_loop (init_elo_ratings (teams db)) (order_by date_id_leb (games db))
    = Ok (stamped, final) ->
  order_by date_id_leb (games db) = l1 ++ g :: l2 ->
  exists out1 elo1 rh ra,
    elo_loop (init_elo_ratings (teams db)) l1 = Ok (out1, elo1)
    /\ elo1 !! Game.home_team_id g = Some rh
    /\ elo1 !! Game.away_team_id g = Some ra
    /\ find (fun x => String.eqb (Game.game_id x) (Game.game_id g)) stamped
       = Some (stamp g rh ra).
Proof.
  intros Hnd Hloop Hsplit. rewrite Hsplit in Hloop.
  destruct (elo_loop_middle _ _ _ _ _ _ Hloop)
    as (out1 & elo1 & rh & ra & elo2 & out2 & H1 & Hh & Ha & _ & _ & -> & _).
  exists out1, elo1, rh, ra. repeat split; try assumption.
  apply (find_stamped_middle l1 l2).
  - rewrite <- Hsplit. eapply Permutation_NoDup; [|exact Hnd].
    apply Permutation_map. symmetry. apply order_by_perm.
  - eapply elo_loop_stamped; eauto.
  - reflexivity.
Qed.

Lemma Forall2_map_same {A B : Type} (R' : A -> B -> Prop) (f : A -> B) (l : list A) :
  (forall x, In x l -> R' x (f x)) -> Forall2 R' l (map f l).
Proof.
  induction l as [|x l IH]; simpl; intros H; constructor; auto.
Qed.

(** With distinct keys, committing writes stamps on the rows and changes
    nothing else. *)
Lemma commit_games_stamped_of (db : Db) (stamped : list Game.t) (final : gmap Z R) :
  List.NoDup (game_ids db) ->
  elo_loop (init_elo_ratings (teams db)) (order_by date_id_leb (games db))
    = Ok (stamped, final) ->
  Forall2 stamped_of (games db) (commit_games stamped (games db)).
Proof.
  intros Hnd Hloop. unfold commit_games. apply Forall2_map_same. intros g Hg.
  apply (order_by_In date_id_leb) in Hg.
  apply in_split in Hg. destruct Hg as (l1 & l2 & Hsplit).
  destruct (committed_stamp db stamped final l1 l2 g Hnd Hloop Hsplit)
    as (out1 & elo1 & rh & ra & _ & _ & _ & Hf).
  rewrite Hf. exists rh, ra. reflexivity.
Qed.

(** X3. With distinct game keys, a rating pass that returns leaves the
    team, box score and odds tables alone and changes the games table in the
    two stamp columns only: every row keeps its place, key, date, teams,
    scores and season, and gets both stamps. The stamps of a game are the
    ratings its two teams have in the rating table left by the games before
    it in the order of the pass. *)
Theorem calculate_elo_ratings_writes_stamps_only (db db' : Db) :
  List.NoDup (game_ids db) ->
  calculate_elo_ratings db = Ok db' ->
  teams db' = teams db
  /\ team_box_scores db' = team_box_scores db
  /\ odds_table db' = odds_table db
  /\ Forall2 stamped_of (games db) (games db')
  /\ forall l1 g l2,
       order_by date_id_leb (games db) = l1 ++ g :: l2 ->
       exists out1 elo1 rh ra,
         elo_loop (init_elo_ratings (teams db)) l1 = Ok (out1, elo1)
         /\ elo1 !! Game.home_team_id g = Some rh
         /\ elo1 !! Game.away_team_id g = Some ra
         /\ In (stamp g rh ra) (games db').
Proof.
  intros Hnd Hcalc. unfold calculate_elo_ratings in Hcalc.
  destruct (elo_loop (init_elo_ratings (teams db)) (order_by date_id_leb (games db)))
    as [[stamped final]|] eqn:Hloop; [|discriminate].
  simpl in Hcalc. inversion Hcalc; subst db'; clear Hcalc. simpl.
  repeat split.
  - eapply commit_games_stamped_of; eauto.
  - intros l1 g l2 Hsplit.
    destruct (committed_stamp db stamped final l1 l2 g Hnd Hloop Hsplit)
      as (out1 & elo1 & rh & ra & H1 & Hh & Ha & Hf).
    exists out1, elo1, rh, ra. repeat split; try assumption.
    unfold commit_games. apply in_map_iff. exists g. rewrite Hf.
    split; [reflexivity|].
    apply (order_by_In date_id_leb). rewrite Hsplit. apply in_or_app. right. now left.
Qed.

(** Sorting commutes with a change of the rows that the order does not
    look at. *)
Lemma insert_by_Forall2 {A : Type} (leb : A -> A -> bool) (R' : A -> A -> Prop) :
  (forall x x' y y', R' x x' -> R' y y' -> leb x' y' = leb x y) ->
  forall x x' l l',
    R' x x' -> Forall2 R' l l' ->
    Forall2 R' (insert_by leb x l) (insert_by leb x' l').
Proof.
  intros Hleb x x' l l' Hx Hl.
  induction Hl as [|y y' l l' Hy Hl IH]; simpl.
  - constructor; [exact Hx|constructor].
  - rewrite (Hleb x x' y y' Hx Hy). destruct (leb x y).
    + constructor; [exact Hx|]. constructor; assumption.
    + constructor; assumption.
Qed.

Lemma order_by_Forall2 {A : Type} (leb : A -> A -> bool) (R' : A -> A -> Prop) :
  (forall x x' y y', R' x x' -> R' y y' -> leb x' y' = leb x y) ->
  forall l l', Forall2 R' l l' -> Forall2 R' (order_by leb l) (order_by leb l').
Proof.
  intros Hleb l l' Hl. induction Hl as [|x x' l l' Hx Hl IH]; simpl.
  - constructor.
  - apply insert_by_Forall2; assumption.
Qed.

(** The rating update does not read the stamps a game already carries. *)
Lemma elo_game_reads_no_stamp (elo : gmap Z R) (g g' : Game.t) :
  stamped_of g g' -> elo_game elo g' = elo_game elo g.
Proof. intros (rh & ra & ->). reflexivity. Qed.

Lemma elo_loop_reads_no_stamp (gs gs' : list Game.t) :
  Forall2 stamped_of gs gs' ->
  forall elo : gmap Z R, elo_loop elo gs' = elo_loop elo gs.
Proof.
  induction 1 as [|g g' gs gs' Hg _ IH]; intros elo; simpl; [reflexivity|].
  rewrite (elo_game_reads_no_stamp _ _ _ Hg).
  destruct (elo_game elo g) as [[s elo']|e]; simpl; [|reflexivity].
  now rewrite IH.
Qed.

(** Committing twice is committing once. *)
Lemma commit_games_twice (stamped table : list Game.t) :
  commit_games stamped (commit_games stamped table) = commit_games stamped table.
Proof.
  unfold commit_games. rewrite map_map. apply map_ext. intros g.
  destruct (find (fun s => String.eqb (Game.game_id s) (Game.game_id g)) stamped)
    as [s|] eqn:Hf.
  - assert (Hid := Hf). apply find_some in Hid. destruct Hid as [_ Hid].
    apply String.eqb_eq in Hid. rewrite Hid, Hf. reflexivity.
  - rewrite Hf. reflexivity.
Qed.

(** X4. With distinct game keys the rating pass is idempotent: run on the
    database it returned, it returns that database again. Stamps the games
    already carry have no effect on the ratings. *)
Theorem calculate_elo_ratings_idempotent (db db' : Db) :
  List.NoDup (game_ids db) ->
  calculate_elo_ratings db = Ok db' ->
  calculate_elo_ratings db' = Ok db'.
Proof.
  intros Hnd Hcalc.
  unfold calculate_elo_ratings in *.
  destruct (elo_loop (init_elo_ratings (teams db)) (order_by date_id_leb (games db)))
    as [[stamped final]|] eqn:Hloop; [|discriminate].
  assert (Hg := commit_games_stamped_of db stamped final Hnd Hloop).
  simpl in Hcalc. inversion Hcalc; subst db'; clear Hcalc. simpl in *.
  assert (Hsorted : Forall2 stamped_of (order_by date_id_leb (games db))
            (order_by date_id_leb (commit_games stamped (games db)))).
  { apply order_by_Forall2; [|exact Hg].
    intros x x' y y' (a & b & ->) (c & d & ->). reflexivity. }
  rewrite (elo_loop_reads_no_stamp _ _ Hsorted), Hloop. simpl.
  now rewrite commit_games_twice.
Qed.

Lemma Forall2_In_right {A B : Type} (R' : A -> B -> Prop) (l : list A) (l' : list B)
    (y : B) :
  Forall2 R' l l' -> In y l' -> exists x, In x l /\ R' x y.
Proof.
  induction 1 as [|x y' l l' Hxy _ IH]; simpl; [tauto|].
  intros [<-|Hin]; [eauto|].
  destruct (IH Hin) as (x0 & Hx0 & HR). eauto.
Qed.

(** X5. On the database a rating pass returned (distinct game keys),
    [get_current_elo] returns a rating for every team, so the ELO entries of
    a prediction are always built: no [TypeError] on a missing stamp. *)
Theorem get_current_elo_returns_on_rated_db (db db' : Db) :
  List.NoDup (game_ids db) ->
  calculate_elo_ratings db = Ok db' ->
  (forall t, exists v, get_current_elo db' t = Ok (Some v))
  /\ forall home away,
       exists vh va,
         prediction_elo_features db' home away = Ok (Some vh, Some va, vh - va).
Proof.
  intros Hnd Hcalc.
  assert (Hg : Forall2 stamped_of (games db) (games db')).
  { unfold calculate_elo_ratings in Hcalc.
    destruct (elo_loop (init_elo_ratings (teams db)) (order_by date_id_leb (games db)))
      as [[stamped final]|] eqn:Hloop; [|discriminate].
    simpl in Hcalc. inversion Hcalc. simpl.
    eapply commit_games_stamped_of; eauto. }
  assert (Hstamps : forall g', In g' (games db') ->
            forall t, exists e, pregame_elo_of t g' = Some e).
  { intros g' Hin t. apply (Forall2_In_right _ _ _ _ Hg) in Hin.
    destruct Hin as (g & _ & rh & ra & ->). unfold pregame_elo_of. simpl.
    destruct (_ =? _)%Z; eauto. }
  assert (Hget : forall t, exists v, get_current_elo db' t = Ok (Some v)).
  { intros t. unfold get_current_elo.
    assert (Hf := first_order_by_date_desc (team_games_with_elo db' t)).
    destruct (first (order_by date_desc_leb (team_games_with_elo db' t))) as [g'|];
      [|eauto].
    destruct Hf as [Hin _]. apply team_games_with_elo_In in Hin.
    destruct Hin as (Hin & _ & _).
    destruct (Hstamps g' Hin t) as [e He]. rewrite He.
    destruct (Game.home_score g'), (Game.away_score g'); eauto.
    destruct (team_won t g' z z0); eauto. }
  split; [exact Hget|].
  intros home away. destruct (Hget home) as [vh Hh], (Hget away) as [va Ha].
  exists vh, va. unfold prediction_elo_features. rewrite Hh. simpl. rewrite Ha.
  reflexivity.
Qed.

(** X6. The rating table a pass leaves behind has exactly the teams of the
    team table as keys, and a team that plays in no game still has
    [ELO_INITIAL]. *)
Theorem ratings_after_pass_keys_and_idle_teams (db : Db) (final : gmap Z R) :
  ratings_after_pass db = Ok final ->
  (forall t, is_Some (final !! t) <-> In t (team_ids db))
  /\ forall t,
       In t (team_ids db) ->
       (forall g, In g (games db) -> ~ plays_in t g) ->
       final !! t = Some (IZR ELO_INITIAL).
Proof.
  unfold ratings_after_pass. intros H.
  destruct (elo_loop (init_elo_ratings (teams db)) (order_by date_id_leb (games db)))
    as [[out final']|] eqn:Hloop; [|discriminate].
  simpl in H. inversion H; subst final'; clear H. split.
  - intros t. rewrite <- elem_of_dom, (elo_loop_dom _ _ _ _ Hloop), elem_of_dom.
    unfold team_ids.
    destruct (in_dec Z.eq_dec t (map Team.team_id (teams db))) as [i|n].
    + rewrite (init_elo_ratings_registered _ _ i). split; eauto.
    + rewrite (init_elo_ratings_unregistered _ _ n). split; [intros [? ?]; discriminate|tauto].
  - intros t Ht Hidle.
    rewrite (elo_loop_other _ _ _ _ _ Hloop).
    + apply init_elo_ratings_registered, Ht.
    + apply List.Forall_forall. intros g Hg. apply Hidle.
      apply (order_by_In date_id_leb), Hg.
Qed.
End RatingPassDb.

(** ** Sorted queries *)

Section SortedQueries.
Context {A : Type} (leb : A -> A -> bool).
Hypothesis leb_total : forall x y, leb x y = true \/ leb y x = true.
Hypothesis leb_trans : forall x y z, leb x y = true -> leb y z = true -> leb x z = true.

Lemma insert_by_sorted (x : A) (l : list A) :
  StronglySorted (fun a b => leb a b = true) l ->
  StronglySorted (fun a b => leb a b = true) (insert_by leb x l).
Proof.
  induction 1 as [|y l Hl IH Hy]; simpl.
  - constructor; constructor.
  - destruct (leb x y) eqn:E.
    + constructor; [constructor; assumption|].
      constructor; [exact E|].
      eapply List.Forall_impl; [|exact Hy]. intros z Hz. eapply leb_trans; eauto.
    + constructor; [exact IH|].
      apply List.Forall_forall. intros z Hz.
      apply (Permutation_in _ (insert_by_perm leb x l)) in Hz.
      destruct Hz as [<-|Hz].
      * destruct (leb_total x y) as [H|H]; congruence.
      * exact (proj1 (List.Forall_forall _ _) Hy z Hz).
Qed.

Lemma order_by_sorted (l : list A) :
  StronglySorted (fun a b => leb a b = true) (order_by leb l).
Proof.
  induction l as [|x l IH]; simpl; [constructor|].
  apply insert_by_sorted, IH.
Qed.

(** In a sorted list every row of a prefix may stand before every row
    after it. *)
Lemma sorted_take_drop (n : nat) (l : list A) (x y : A) :
  StronglySorted (fun a b => leb a b = true) l ->
  In x (take n l) -> In y (drop n l) -> leb x y = true.
Proof.
  intros Hs. revert n. induction Hs as [|z l Hl IH Hz]; intros n Hx Hy.
  - destruct n; destruct Hx.
  - destruct n as [|n]; simpl in *; [destruct Hx|].
    destruct Hx as [<-|Hx].
    + apply (proj1 (List.Forall_forall _ _) Hz).
      revert Hy. clear. revert l. induction n as [|n IH]; intros [|a l]; simpl; auto.
    + eapply IH; eauto.
Qed.
End SortedQueries.

(** [order_by(key.desc()).first()] is a row with the greatest key. *)
Lemma first_order_by_key_desc {A : Type} (key : A -> Z) (l : list A) :
  match first (order_by (fun x y => key y <=? key x) l) with
  | None => l = []
  | Some x => In x l /\ forall y, In y l -> key y <= key x
  end.
Proof.
  induction l as [|x l IH]; simpl; [reflexivity|].
  destruct (order_by (fun x y => key y <=? key x) l) as [|y rest]; simpl in *.
  - subst l. split; [auto|]. intros z [<-|[]]. lia.
  - destruct IH as [Hy Hmax].
    destruct (Z.leb_spec (key y) (key x)) as [Hle|Hgt]; simpl.
    + split; [auto|]. intros z [<-|Hin]; [lia|].
      specialize (Hmax z Hin). lia.
    + split; [auto|]. intros z [<-|Hin]; [lia|auto].
Qed.

(** ** More on the form window *)

Section FormWindowMore.

(** X7. The rest days are always at least 1: either the default 3, when
    the team has no box score on a completed game before the cutoff, or the
    number of days from the latest such game to the cutoff; the floor
    [max(0, .)] never applies. *)
Theorem get_days_rest_at_least_one (db : Db) (team_id game_date : Z) :
  1 <= get_days_rest db team_id game_date
  /\ ((rest_games db team_id game_date = []
       /\ get_days_rest db team_id game_date = 3)
      \/ exists g bs,
           In g (games db) /\ In bs (team_box_scores db)
           /\ TeamBoxScore.game_id bs = Game.game_id g
           /\ played_before team_id game_date bs g = true
           /\ (forall r, In r (rest_games db team_id game_date) ->
                         Game.date (fst r) <= Game.date g)
           /\ get_days_rest db team_id game_date = game_date - Game.date g).
Proof.
  unfold get_days_rest.
  assert (Hf := first_order_by_key_desc (fun r : Game.t * TeamBoxScore.t => Game.date (fst r))
                  (List.filter (fun r => played_before team_id game_date (snd r) (fst r))
                     (join_games (games db) (team_box_scores db)))).
  change (order_by _ _) with (rest_games db team_id game_date) in Hf.
  destruct (first (rest_games db team_id game_date)) as [[g bs]|] eqn:E.
  - destruct Hf as [Hin Hmax]. apply filter_In in Hin. destruct Hin as [Hin Hp].
    simpl in Hp. assert (Hp' := Hp). apply played_before_spec in Hp'.
    destruct Hp' as (_ & Hd & _).
    unfold join_games in Hin. apply in_flat_map in Hin.
    destruct Hin as (g0 & Hg & Hin). apply in_map_iff in Hin.
    destruct Hin as (b & Heq & Hb). inversion Heq; subst b g0.
    apply filter_In in Hb. destruct Hb as [Hb Hid]. apply String.eqb_eq in Hid.
    split; [lia|]. right. exists g, bs. repeat split; try assumption.
    + intros r Hr. apply (Hmax r). unfold rest_games in Hr.
      apply order_by_In in Hr. exact Hr.
    + lia.
  - split; [lia|]. left. split; [|reflexivity].
    unfold rest_games in *. destruct (order_by _ _) eqn:E'; [reflexivity|discriminate].
Qed.

Lemma h2h_games_sym (db : Db) (team_id opponent_id game_date : Z) :
  h2h_games db opponent_id team_id game_date
  = h2h_games db team_id opponent_id game_date.
Proof.
  unfold h2h_games. apply filter_ext. intros g. f_equal. f_equal. apply orb_comm.
Qed.

(** The counting loop of [get_h2h_win_pct]. *)
Lemma count_fold {A : Type} (p : A -> bool) (l : list A) :
  forall w : Z,
  fold_left (fun wins g => if p g then wins + 1 else wins) l w
  = w + Z.of_nat (length (List.filter p l)).
Proof.
  induction l as [|x l IH]; intros w; simpl; [lia|].
  rewrite IH. destruct (p x); simpl; lia.
Qed.

Lemma filter_length_le {A : Type} (p : A -> bool) (l : list A) :
  (length (List.filter p l) <= length l)%nat.
Proof. induction l as [|x l IH]; simpl; [lia|]. destruct (p x); simpl; lia. Qed.

(** Two tests that never hold together split at most the whole list; two
    tests of which exactly one holds split exactly the whole list. *)
Lemma filter_length_disjoint {A : Type} (p q : A -> bool) (l : list A) :
  (forall x, In x l -> p x = true -> q x = false) ->
  (length (List.filter p l) + length (List.filter q l) <= length l)%nat.
Proof.
  induction l as [|x l IH]; simpl; intros H; [lia|].
  assert (IH' := IH (fun y Hy => H y (or_intror Hy))).
  destruct (p x) eqn:Ep; simpl.
  - rewrite (H x (or_introl eq_refl) Ep). lia.
  - destruct (q x); simpl; lia.
Qed.

Lemma filter_length_exclusive {A : Type} (p q : A -> bool) (l : list A) :
  (forall x, In x l -> q x = negb (p x)) ->
  (length (List.filter p l) + length (List.filter q l) = length l)%nat.
Proof.
  induction l as [|x l IH]; simpl; intros H; [lia|].
  assert (IH' := IH (fun y Hy => H y (or_intror Hy))).
  rewrite (H x (or_introl eq_refl)). destruct (p x); simpl; lia.
Qed.

Lemma get_h2h_win_pct_eq (db : Db) (team_id opponent_id game_date : Z) :
  h2h_games db team_id opponent_id game_date <> [] ->
  get_h2h_win_pct db team_id opponent_id game_date
  = (inject_Z (Z.of_nat (length (List.filter (h2h_is_win team_id)
                                   (h2h_games db team_id opponent_id game_date))))
     / inject_Z (Z.of_nat (length (h2h_games db team_id opponent_id game_date))))%Q.
Proof.
  intros Hne. unfold get_h2h_win_pct.
  destruct (h2h_games db team_id opponent_id game_date) as [|g gs] eqn:E;
    [congruence|].
  rewrite count_fold, Z.add_0_l.
  replace (0 <? Z.of_nat (length (g :: gs))) with true; [reflexivity|].
  symmetry. apply Z.ltb_lt. simpl. lia.
Qed.

Lemma h2h_games_between (db : Db) (team_id opponent_id game_date : Z) (g : Game.t) :
  In g (h2h_games db team_id opponent_id game_date) ->
  (Game.home_team_id g = team_id /\ Game.away_team_id g = opponent_id)
  \/ (Game.home_team_id g = opponent_id /\ Game.away_team_id g = team_id).
Proof.
  unfold h2h_games. rewrite filter_In.
  rewrite !andb_true_iff, orb_true_iff, !andb_true_iff, !Z.eqb_eq. tauto.
Qed.

Lemma Qdiv_nat_range (w n : nat) :
  (w <= n)%nat -> (0 < n)%nat ->
  (0 <= inject_Z (Z.of_nat w) / inject_Z (Z.of_nat n)
   /\ inject_Z (Z.of_nat w) / inject_Z (Z.of_nat n) <= 1)%Q.
Proof.
  intros Hw Hn.
  assert (Hpos : (0 < inject_Z (Z.of_nat n))%Q).
  { unfold Qlt. simpl. lia. }
  split.
  - apply Qle_shift_div_l; [exact Hpos|]. rewrite Qmult_0_l.
    unfold Qle. simpl. lia.
  - apply Qle_shift_div_r; [exact Hpos|]. rewrite Qmult_1_l.
    unfold Qle. simpl. lia.
Qed.

(** X8. The head-to-head rate lies between 0 and 1. For two different teams
    the rate of one and the rate of the other add up to at most 1, and to
    exactly 1 when they have met before the cutoff and every such game has
    both scores and a winner; a tie, or a game with its away score missing,
    counts as a win for neither. *)
Theorem h2h_win_pct_range_and_complement
    (db : Db) (team_id opponent_id game_date : Z) :
  (0 <= get_h2h_win_pct db team_id opponent_id game_date
   /\ get_h2h_win_pct db team_id opponent_id game_date <= 1)%Q
  /\ (team_id <> opponent_id ->
      h2h_games db team_id opponent_id game_date <> [] ->
      (get_h2h_win_pct db team_id opponent_id game_date
       + get_h2h_win_pct db opponent_id team_id game_date <= 1)%Q
      /\ ((forall g, In g (h2h_games db team_id opponent_id game_date) ->
             exists hs aws,
               Game.home_score g = Some hs /\ Game.away_score g = Some aws
               /\ hs <> aws) ->
          (get_h2h_win_pct db team_id opponent_id game_date
           + get_h2h_win_pct db opponent_id team_id game_date == 1)%Q)).
Proof.
  split.
  - destruct (h2h_games db team_id opponent_id game_date) as [|g gs] eqn:E.
    + unfold get_h2h_win_pct. rewrite E. split; unfold Qle; simpl; lia.
    + rewrite get_h2h_win_pct_eq by (rewrite E; discriminate).
      apply Qdiv_nat_range; [apply filter_length_le|rewrite E; simpl; lia].
  - intros Hne Hmet.
    assert (Hmet' : h2h_games db opponent_id team_id game_date <> [])
      by (now rewrite h2h_games_sym).
    rewrite (get_h2h_win_pct_eq db team_id opponent_id) by exact Hmet.
    rewrite (get_h2h_win_pct_eq db opponent_id team_id) by exact Hmet'.
    rewrite (h2h_games_sym db team_id opponent_id game_date).
    set (gs := h2h_games db team_id opponent_id game_date) in *.
    assert (Hn : (0 < length gs)%nat) by (destruct gs; [congruence|simpl; lia]).
    assert (Hpos : ~ inject_Z (Z.of_nat (length gs)) == 0).
    { unfold Qeq. simpl. lia. }
    assert (Hdis : forall g, In g gs ->
              h2h_is_win team_id g = true -> h2h_is_win opponent_id g = false).
    { intros g Hg. unfold h2h_is_win.
      destruct (Game.home_score g) as [hs|]; [|discriminate].
      destruct (Game.away_score g) as [aws|]; [|discriminate].
      rewrite !orb_true_iff, !andb_true_iff, !Z.eqb_eq, !Z.gtb_lt.
      intros Hw.
      destruct (_ || _) eqn:Eo; [|reflexivity].
      rewrite !orb_true_iff, !andb_true_iff, !Z.eqb_eq, !Z.gtb_lt in Eo.
      destruct (h2h_games_between _ _ _ _ _ Hg) as [[? ?]|[? ?]]; lia. }
    split.
    + assert (Hle := filter_length_disjoint _ _ gs Hdis).
      assert (Heq :
        (inject_Z (Z.of_nat (length (List.filter (h2h_is_win team_id) gs)))
         / inject_Z (Z.of_nat (length gs))
         + inject_Z (Z.of_nat (length (List.filter (h2h_is_win opponent_id) gs)))
           / inject_Z (Z.of_nat (length gs))
         == inject_Z (Z.of_nat (length (List.filter (h2h_is_win team_id) gs)
                                + length (List.filter (h2h_is_win opponent_id) gs)))
            / inject_Z (Z.of_nat (length gs)))%Q).
      { rewrite Nat2Z.inj_add, inject_Z_plus. field. exact Hpos. }
      rewrite Heq. apply Qdiv_nat_range; assumption.
    + intros Hdec.
      assert (Hex : forall g, In g gs ->
                h2h_is_win opponent_id g = negb (h2h_is_win team_id g)).
      { intros g Hg. destruct (Hdec g Hg) as (hs & aws & Ehs & Eaws & Hd).
        unfold h2h_is_win. rewrite Ehs, Eaws.
        destruct (h2h_games_between _ _ _ _ _ Hg) as [[Eh Ea]|[Eh Ea]];
          rewrite Eh, Ea.
        - rewrite !Z.eqb_refl. 
          replace (opponent_id =? team_id) with false
            by (symmetry; apply Z.eqb_neq; congruence).
          replace (team_id =? opponent_id) with false
            by (symmetry; apply Z.eqb_neq; congruence).
          simpl. rewrite !orb_false_r, !Z.gtb_ltb.
          destruct (Z.ltb_spec aws hs), (Z.ltb_spec hs aws); simpl; try reflexivity; lia.
        - rewrite !Z.eqb_refl.
          replace (opponent_id =? team_id) with false
            by (symmetry; apply Z.eqb_neq; congruence).
          replace (team_id =? opponent_id) with false
            by (symmetry; apply Z.eqb_neq; congruence).
          simpl. rewrite !orb_false_r, !Z.gtb_ltb.
          destruct (Z.ltb_spec aws hs), (Z.ltb_spec hs aws); simpl; try reflexivity; lia. }
      assert (Hsum := filter_length_exclusive _ _ gs Hex).
      assert (Hn' : (inject_Z (Z.of_nat (length gs))
                     = inject_Z (Z.of_nat (length (List.filter (h2h_is_win team_id) gs)))
                       + inject_Z (Z.of_nat (length (List.filter (h2h_is_win opponent_id) gs))))%Q).
      { rewrite <- inject_Z_plus, <- Nat2Z.inj_add, Hsum. reflexivity. }
      revert Hpos. rewrite Hn'. intros Hpos. field. exact Hpos.
Qed.

(** X9. The rolling window holds the most recent qualifying box scores of
    the team: [window] of them, or all when there are fewer, and every row
    left out is of a game dated no later than every game in the window. *)
Theorem rolling_window_is_most_recent
    (db : Db) (team_id game_date : Z) (window : nat) :
  let qualifying :=
    List.filter (fun r => played_before team_id game_date (fst r) (snd r))
      (join_box_scores (team_box_scores db) (games db)) in
  length (rolling_box_scores db team_id game_date window)
    = Nat.min window (length qualifying)
  /\ exists rest,
       Permutation (rolling_box_scores db team_id game_date window ++ rest) qualifying
       /\ forall r r',
            In r (rolling_box_scores db team_id game_date window) ->
            In r' rest ->
            Game.date (snd r') <= Game.date (snd r).
Proof.
  intros qualifying. unfold rolling_box_scores. fold qualifying.
  set (leb := fun r1 r2 : TeamBoxScore.t * Game.t => date_desc_leb (snd r1) (snd r2)).
  split.
  - rewrite length_take, order_by_length. reflexivity.
  - exists (drop window (order_by leb qualifying)). split.
    + rewrite take_drop. apply order_by_perm.
    + intros r r' Hr Hr'.
      assert (H : leb r r' = true).
      { apply (sorted_take_drop leb window (order_by leb qualifying)); try assumption.
        apply order_by_sorted.
        - intros x y. unfold leb, date_desc_leb. rewrite !Z.leb_le. lia.
        - intros x y z. unfold leb, date_desc_leb. rewrite !Z.leb_le. lia. }
      unfold leb, date_desc_leb in H. apply Z.leb_le in H. exact H.
Qed.
End FormWindowMore.

(** ** More on the training rows *)

Section TrainingRowsMore.

Lemma game_rows_date (db : Db) (g : Game.t) :
  Forall (fun r => FeatureRow.date r = Game.date g) (game_rows db g).
Proof.
  unfold game_rows.
  destruct (Game.home_score g); [|constructor].
  destruct (Game.away_score g); repeat constructor.
Qed.

Lemma game_rows_length (db : Db) (g : Game.t) :
  length (game_rows db g) = if has_result g then 2%nat else 0%nat.
Proof.
  unfold game_rows, has_result.
  destruct (Game.home_score g); [|reflexivity].
  destruct (Game.away_score g); reflexivity.
Qed.

Lemma flat_map_game_rows_length (db : Db) (l : list Game.t) :
  length (flat_map (game_rows db) l) = (2 * length (List.filter has_result l))%nat.
Proof.
  induction l as [|g l IH]; simpl; [reflexivity|].
  rewrite length_app, IH, game_rows_length.
  destruct (has_result g); simpl; lia.
Qed.

Lemma filter_length_perm {A : Type} (p : A -> bool) (l l' : list A) :
  Permutation l l' -> length (List.filter p l) = length (List.filter p l').
Proof.
  induction 1 as [|x l l' _ IH|x y l|l l' l'' _ IH1 _ IH2]; simpl.
  - reflexivity.
  - destruct (p x); simpl; now rewrite IH.
  - destruct (p x), (p y); reflexivity.
  - now rewrite IH1.
Qed.

Lemma has_result_completed (g : Game.t) : has_result g = true -> is_completed g = true.
Proof.
  unfold has_result, is_completed. destruct (Game.home_score g); [reflexivity|discriminate].
Qed.

Lemma StronglySorted_app_intro {A : Type} (R' : A -> A -> Prop) (l1 l2 : list A) :
  StronglySorted R' l1 -> StronglySorted R' l2 ->
  (forall x y, In x l1 -> In y l2 -> R' x y) ->
  StronglySorted R' (l1 ++ l2).
Proof.
  induction 1 as [|x l1 Hl1 IH Hx]; simpl; intros H2 Hcross; [exact H2|].
  constructor.
  - apply IH; [exact H2|]. intros a b Ha Hb. apply Hcross; [now right|exact Hb].
  - apply Forall_app. split; [exact Hx|].
    apply List.Forall_forall. intros y Hy. apply Hcross; [now left|exact Hy].
Qed.

Lemma same_date_sorted (rows : list FeatureRow.t) (d : Z) :
  Forall (fun r => FeatureRow.date r = d) rows ->
  StronglySorted (fun r1 r2 => FeatureRow.date r1 <= FeatureRow.date r2) rows.
Proof.
  induction 1 as [|r rows Hr Hrows IH]; constructor; [exact IH|].
  eapply List.Forall_impl; [|exact Hrows]. intros r' Hr'. simpl in Hr'. lia.
Qed.

Lemma flat_map_game_rows_sorted (db : Db) (l : list Game.t) :
  StronglySorted (fun g1 g2 => date_asc_leb g1 g2 = true) l ->
  StronglySorted (fun r1 r2 => FeatureRow.date r1 <= FeatureRow.date r2)
    (flat_map (game_rows db) l).
Proof.
  induction 1 as [|g l Hl IH Hg]; simpl; [constructor|].
  apply StronglySorted_app_intro.
  - apply (same_date_sorted _ (Game.date g)), game_rows_date.
  - exact IH.
  - intros r r' Hr Hr'. apply in_flat_map in Hr'.
    destruct Hr' as (g' & Hg' & Hr').
    rewrite (proj1 (List.Forall_forall _ _) (game_rows_date db g) r Hr).
    rewrite (proj1 (List.Forall_forall _ _) (game_rows_date db g') r' Hr').
    apply Z.leb_le. exact (proj1 (List.Forall_forall _ _) Hg g' Hg').
Qed.

Lemma filter_filter_implied {A : Type} (p q : A -> bool) (l : list A) :
  (forall x, q x = true -> p x = true) ->
  List.filter q (List.filter p l) = List.filter q l.
Proof.
  intros H. induction l as [|x l IH]; simpl; [reflexivity|].
  destruct (p x) eqn:Ep; simpl.
  - now rewrite IH.
  - destruct (q x) eqn:Eq; [|exact IH]. rewrite (H x Eq) in Ep. discriminate.
Qed.

Lemma filter_perm {A : Type} (p : A -> bool) (l l' : list A) :
  Permutation l l' -> Permutation (List.filter p l) (List.filter p l').
Proof.
  induction 1 as [|x l l' _ IH|x y l|l l' l'' _ IH1 _ IH2]; simpl.
  - constructor.
  - destruct (p x); [now constructor|exact IH].
  - destruct (p x), (p y); try reflexivity. constructor.
  - now transitivity (List.filter p l').
Qed.

Lemma filter_StronglySorted {A : Type} (R' : A -> A -> Prop) (p : A -> bool)
    (l : list A) :
  StronglySorted R' l -> StronglySorted R' (List.filter p l).
Proof.
  induction 1 as [|x l Hl IH Hx]; simpl; [constructor|].
  destruct (p x); [|exact IH]. constructor; [exact IH|].
  apply List.Forall_forall. intros y Hy. apply filter_In in Hy.
  exact (proj1 (List.Forall_forall _ _) Hx y (proj1 Hy)).
Qed.

Lemma StronglySorted_weaken {A : Type} (R1 R2 : A -> A -> Prop) (l : list A) :
  (forall x y, R1 x y -> R2 x y) -> StronglySorted R1 l -> StronglySorted R2 l.
Proof.
  intros H. induction 1 as [|x l Hl IH Hx]; constructor; [exact IH|].
  eapply List.Forall_impl; [|exact Hx]. intros y. apply H.
Qed.

Lemma flat_map_game_rows_has_result (db : Db) (l : list Game.t) :
  flat_map (game_rows db) (List.filter has_result l) = flat_map (game_rows db) l.
Proof.
  induction l as [|g l IH]; simpl; [reflexivity|].
  destruct (has_result g) eqn:E; simpl; [now rewrite IH|].
  rewrite IH. assert (H := game_rows_length db g). rewrite E in H.
  destruct (game_rows db g); [reflexivity|discriminate].
Qed.

(** The games with a result that the query of the feature set selects. *)
Lemma feature_games_with_result (db : Db) (season_filter : option Z) :
  Permutation (List.filter has_result (feature_games db season_filter))
    (List.filter (fun g => has_result g && season_selected season_filter g) (games db)).
Proof.
  unfold feature_games.
  rewrite (filter_perm _ _ _ (order_by_perm date_asc_leb _)).
  assert (Hext : forall (q : Game.t -> bool) l,
            (forall g, q g = true -> is_completed g = true) ->
            List.filter q (List.filter is_completed l) = List.filter q l).
  { intros q l Hq. rewrite filter_filter_andb. apply filter_ext. intros g.
    destruct (q g) eqn:E; [rewrite (Hq g E); reflexivity|apply andb_false_r]. }
  unfold season_selected.
  destruct season_filter as [s|]; [destruct (s =? 0) eqn:Es|]; simpl.
  - rewrite Hext by apply has_result_completed.
    apply Permutation_refl'. apply filter_ext. intros g. now rewrite andb_true_r.
  - rewrite filter_filter_andb, filter_filter_andb.
    apply Permutation_refl'. apply filter_ext.
    intros g. destruct (has_result g) eqn:E.
    + rewrite (has_result_completed g E).
      destruct (Game.season g =? s); reflexivity.
    + destruct (is_completed g), (Game.season g =? s); reflexivity.
  - rewrite Hext by apply has_result_completed.
    apply Permutation_refl'. apply filter_ext. intros g. now rewrite andb_true_r.
Qed.

Lemma game_rows_pair (db : Db) (g : Game.t) :
  has_result g = true ->
  exists home_row away_row,
    game_rows db g = [home_row; away_row]
    /\ FeatureRow.game_id home_row = Game.game_id g
    /\ FeatureRow.game_id away_row = Game.game_id g
    /\ FeatureRow.team_id home_row = Game.home_team_id g
    /\ FeatureRow.team_id away_row = Game.away_team_id g
    /\ FeatureRow.is_home home_row = 1
    /\ FeatureRow.is_home away_row = 0
    /\ FeatureRow.date home_row = Game.date g
    /\ FeatureRow.date away_row = Game.date g.
Proof.
  unfold game_rows, has_result.
  destruct (Game.home_score g); [|discriminate].
  destruct (Game.away_score g); [|discriminate].
  intros _. eexists. eexists. split; [reflexivity|]. simpl. repeat split.
Qed.

(** X10. The feature set is the rows of the games of the table that have
    both scores and are of the selected season, each such game once, in a
    stable order of the game dates: for each game its home row followed by
    its away row, and no other row. So it is in the order of the dates and
    has twice as many rows as there are such games. *)
Theorem create_feature_set_chronological (db : Db) (season_filter : option Z) :
  exists gs,
    Permutation gs
      (List.filter (fun g => has_result g && season_selected season_filter g)
         (games db))
    /\ StronglySorted (fun g1 g2 => Game.date g1 <= Game.date g2) gs
    /\ create_feature_set db season_filter = flat_map (game_rows db) gs
    /\ (forall g, In g gs ->
        exists home_row away_row,
          game_rows db g = [home_row; away_row]
          /\ FeatureRow.game_id home_row = Game.game_id g
          /\ FeatureRow.game_id away_row = Game.game_id g
          /\ FeatureRow.team_id home_row = Game.home_team_id g
          /\ FeatureRow.team_id away_row = Game.away_team_id g
          /\ FeatureRow.is_home home_row = 1
          /\ FeatureRow.is_home away_row = 0
          /\ FeatureRow.date home_row = Game.date g
          /\ FeatureRow.date away_row = Game.date g)
    /\ StronglySorted (fun r1 r2 => FeatureRow.date r1 <= FeatureRow.date r2)
         (create_feature_set db season_filter)
    /\ length (create_feature_set db season_filter)
       = (2 * length (List.filter
                        (fun g => has_result g && season_selected season_filter g)
                        (games db)))%nat.
Proof.
  assert (Hsorted : StronglySorted (fun g1 g2 => date_asc_leb g1 g2 = true)
                      (feature_games db season_filter)).
  { unfold feature_games. apply order_by_sorted.
    - intros x y. unfold date_asc_leb. rewrite !Z.leb_le. lia.
    - intros x y z. unfold date_asc_leb. rewrite !Z.leb_le. lia. }
  assert (Hperm := feature_games_with_result db season_filter).
  exists (List.filter has_result (feature_games db season_filter)).
  split; [exact Hperm|]. split; [|split; [|split; [|split]]].
  - apply filter_StronglySorted.
    eapply StronglySorted_weaken; [|exact Hsorted].
    intros x y H. now apply Z.leb_le.
  - unfold create_feature_set. now rewrite flat_map_game_rows_has_result.
  - intros g Hg. apply filter_In in Hg. now apply game_rows_pair.
  - unfold create_feature_set. now apply flat_map_game_rows_sorted.
  - unfold create_feature_set.
    rewrite <- flat_map_game_rows_has_result, flat_map_game_rows_length.
    f_equal. rewrite filter_filter_implied by auto.
    now apply Permutation_length.
Qed.

(** X11. In every row of the feature set the flags are 0 or 1; a positive
    margin goes with the label 1 and a negative one with 0. A tied game has
    margin 0 in both rows and is labelled 0 in the home row and 1 in the
    away row. *)
Theorem feature_row_labels (db : Db) (season_filter : option Z) (row : FeatureRow.t) :
  In row (create_feature_set db season_filter) ->
  (FeatureRow.is_home row = 0 \/ FeatureRow.is_home row = 1)
  /\ (FeatureRow.target_did_win row = 0 \/ FeatureRow.target_did_win row = 1)
  /\ (0 < FeatureRow.target_win_margin row -> FeatureRow.target_did_win row = 1)
  /\ (FeatureRow.target_win_margin row < 0 -> FeatureRow.target_did_win row = 0)
  /\ (FeatureRow.target_win_margin row = 0 ->
      FeatureRow.target_did_win row = 1 - FeatureRow.is_home row).
Proof.
  unfold create_feature_set. intros Hin. apply in_flat_map in Hin.
  destruct Hin as (g & _ & Hin). unfold game_rows in Hin.
  destruct (Game.home_score g) as [hs|]; [|destruct Hin].
  destruct (Game.away_score g) as [aws|]; [|destruct Hin].
  destruct Hin as [<-|[<-|[]]]; simpl;
    destruct (Z.gtb_spec hs aws); repeat split; intros; lia.
Qed.

Lemma inserted_rows_old_In {A : Type} (P : A -> Prop) (l l' : list A) (x : A) :
  inserted_rows P l l' -> In x l -> In x l'.
Proof.
  induction 1 as [|z l l' _ IH|y l l' _ _ IH]; simpl; [tauto| |].
  - intros [->|Hin]; auto.
  - intros Hin. right. auto.
Qed.

Lemma inserted_rows_NoDup_map {A B : Type} (P : A -> Prop) (f : A -> B) (l l' : list A) :
  inserted_rows P l l' -> List.NoDup (map f l') -> List.NoDup (map f l).
Proof.
  induction 1 as [|z l l' Hins IH|y l l' _ _ IH]; simpl; intros Hnd.
  - constructor.
  - inversion Hnd as [|? ? Hz Hl]; subst. constructor; [|auto].
    intros Hin. apply Hz. apply in_map_iff in Hin. destruct Hin as (a & Ha & Hin).
    apply in_map_iff. exists a. split; [exact Ha|].
    eapply inserted_rows_old_In; eauto.
  - inversion Hnd; subst. auto.
Qed.

Lemma NoDup_map_inj_In {A B : Type} (f : A -> B) (l : list A) (x y : A) :
  List.NoDup (map f l) -> In x l -> In y l -> f x = f y -> x = y.
Proof.
  induction l as [|a l IH]; simpl; intros Hnd Hx Hy E; [destruct Hx|].
  inversion Hnd as [|? ? Ha Hl]; subst.
  destruct Hx as [->|Hx], Hy as [->|Hy].
  - reflexivity.
  - exfalso. apply Ha. rewrite E. now apply in_map.
  - exfalso. apply Ha. rewrite <- E. now apply in_map.
  - auto.
Qed.

(** The rows of one game of the table in the feature set (distinct keys). *)
Lemma rows_of_game_in_feature_set (db : Db) (season_filter : option Z) (g : Game.t) :
  List.NoDup (game_ids db) -> In g (games db) ->
  rows_of_game (Game.game_id g) (create_feature_set db season_filter)
  = if is_completed g && season_selected season_filter g
    then game_rows db g else [].
Proof.
  intros Hnd Hg. unfold create_feature_set.
  destruct (is_completed g && season_selected season_filter g) eqn:E.
  - apply rows_of_game_flat_map; [now apply feature_games_NoDup|].
    apply feature_games_In. apply andb_true_iff in E. tauto.
  - apply rows_of_game_absent. intros Hin. apply in_map_iff in Hin.
    destruct Hin as (g' & Hid & Hg').
    apply feature_games_In in Hg'. destruct Hg' as (Hg' & Hc & Hs).
    assert (g' = g) by (eapply (NoDup_map_inj_In Game.game_id); eauto).
    subst g'. rewrite Hc, Hs in E. discriminate.
Qed.

End TrainingRowsMore.

(** ** The order of the pass *)

Section PassOrder.

Lemma ascii_compare_eq (a b : Ascii.ascii) : Ascii.compare a b = Eq -> a = b.
Proof.
  unfold Ascii.compare. intros H. apply N.compare_eq in H.
  rewrite <- (Ascii.ascii_N_embedding a), <- (Ascii.ascii_N_embedding b). now rewrite H.
Qed.

Lemma string_compare_lt_trans (s1 : string) :
  forall s2 s3,
  String.compare s1 s2 = Lt -> String.compare s2 s3 = Lt -> String.compare s1 s3 = Lt.
Proof.
  induction s1 as [|a s1 IH]; intros [|b s2] [|c s3]; simpl; try discriminate; auto.
  unfold Ascii.compare.
  destruct (N.compare_spec (Ascii.N_of_ascii a) (Ascii.N_of_ascii b)) as [Eab|Lab|Gab];
    destruct (N.compare_spec (Ascii.N_of_ascii b) (Ascii.N_of_ascii c)) as [Ebc|Lbc|Gbc];
    try discriminate; intros H1 H2.
  - rewrite Eab, Ebc, N.compare_refl. eauto.
  - rewrite Eab. now apply N.compare_lt_iff in Lbc as ->.
  - rewrite <- Ebc. now apply N.compare_lt_iff in Lab as ->.
  - assert (H : (Ascii.N_of_ascii a < Ascii.N_of_ascii c)%N) by lia.
    now apply N.compare_lt_iff in H as ->.
Qed.

Lemma string_leb_refl (s : string) : String.leb s s = true.
Proof. destruct (String.leb_total s s); assumption. Qed.

Lemma string_leb_trans (s1 s2 s3 : string) :
  String.leb s1 s2 = true -> String.leb s2 s3 = true -> String.leb s1 s3 = true.
Proof.
  unfold String.leb.
  destruct (String.compare s1 s2) eqn:E12; try discriminate;
    destruct (String.compare s2 s3) eqn:E23; try discriminate; intros _ _.
  - apply String.compare_eq_iff in E12, E23. subst.
    change (String.leb s3 s3 = true). apply string_leb_refl.
  - apply String.compare_eq_iff in E12. subst. now rewrite E23.
  - apply String.compare_eq_iff in E23. subst. now rewrite E12.
  - now rewrite (string_compare_lt_trans _ _ _ E12 E23).
Qed.

Lemma date_id_leb_total (x y : Game.t) :
  date_id_leb x y = true \/ date_id_leb y x = true.
Proof.
  unfold date_id_leb.
  destruct (Z.lt_total (Game.date x) (Game.date y)) as [H|[H|H]].
  - left. apply orb_true_iff. left. now apply Z.ltb_lt.
  - rewrite H, Z.eqb_refl, Z.ltb_irrefl. simpl. apply String.leb_total.
  - right. apply orb_true_iff. left. now apply Z.ltb_lt.
Qed.

Lemma date_id_leb_spec (x y : Game.t) :
  date_id_leb x y = true <->
  Game.date x < Game.date y
  \/ (Game.date x = Game.date y
      /\ String.leb (Game.game_id x) (Game.game_id y) = true).
Proof.
  unfold date_id_leb. rewrite orb_true_iff, andb_true_iff, Z.ltb_lt, Z.eqb_eq.
  reflexivity.
Qed.

Lemma date_id_leb_trans (x y z : Game.t) :
  date_id_leb x y = true -> date_id_leb y z = true -> date_id_leb x z = true.
Proof.
  rewrite !date_id_leb_spec. intros [H1|(H1 & L1)] [H2|(H2 & L2)].
  - left. lia.
  - left. lia.
  - left. lia.
  - right. split; [lia|]. eapply string_leb_trans; eauto.
Qed.

Lemma date_id_leb_refl (x : Game.t) : date_id_leb x x = true.
Proof. destruct (date_id_leb_total x x); assumption. Qed.

Lemma date_id_leb_antisym (x y : Game.t) :
  date_id_leb x y = true -> date_id_leb y x = true ->
  Game.game_id x = Game.game_id y.
Proof.
  rewrite !date_id_leb_spec. intros [H1|(H1 & L1)] [H2|(H2 & L2)]; try lia.
  now apply String.leb_antisym.
Qed.

(** A game that comes after [h] in the order of the pass is dated no
    earlier than [h]. *)
Lemma after_in_pass_dated_from (h y : Game.t) :
  date_id_leb y h = false -> Game.date h <= Game.date y.
Proof.
  intros H. destruct (Z.le_gt_cases (Game.date h) (Game.date y)) as [Hle|Hgt];
    [exact Hle|].
  assert (E : date_id_leb y h = true) by (apply date_id_leb_spec; left; lia).
  congruence.
Qed.
End PassOrder.

Section SortedFilter.
Context {A : Type} (leb : A -> A -> bool).
Hypothesis leb_total : forall x y, leb x y = true \/ leb y x = true.
Hypothesis leb_trans : forall x y z, leb x y = true -> leb y z = true -> leb x z = true.

(** On a sorted list, filtering commutes with inserting. *)
Lemma filter_insert_by (p : A -> bool) (x : A) (l : list A) :
  StronglySorted (fun a b => leb a b = true) l ->
  List.filter p (insert_by leb x l)
  = if p x then insert_by leb x (List.filter p l) else List.filter p l.
Proof.
  induction 1 as [|y l Hl IH Hy]; simpl.
  - destruct (p x); reflexivity.
  - destruct (leb x y) eqn:E; simpl.
    + destruct (p x) eqn:Ex; [|reflexivity].
      destruct (p y) eqn:Ey; simpl; [now rewrite E|].
      (* [x] stands before every row of the rest *)
      assert (Hall : forall z, In z (List.filter p l) -> leb x z = true).
      { intros z Hz. apply filter_In in Hz. destruct Hz as (Hz & _).
        eapply leb_trans; [exact E|].
        exact (proj1 (List.Forall_forall _ _) Hy z Hz). }
      destruct (List.filter p l) as [|z rest]; [reflexivity|]. simpl.
      now rewrite (Hall z (or_introl eq_refl)).
    + rewrite IH. destruct (p y) eqn:Ey; simpl.
      * destruct (p x); [now rewrite E|reflexivity].
      * reflexivity.
Qed.

(** Filtering commutes with the stable sort. *)
Lemma filter_order_by (p : A -> bool) (l : list A) :
  List.filter p (order_by leb l) = order_by leb (List.filter p l).
Proof.
  induction l as [|x l IH]; simpl; [reflexivity|].
  rewrite filter_insert_by by (apply order_by_sorted; assumption).
  rewrite IH. destruct (p x); reflexivity.
Qed.
End SortedFilter.

Section PassPrefix.

(** In the sorted games with distinct keys, the rows before [h] are the
    rows that come strictly before [h] in the order. *)
Lemma sorted_prefix_before (a b : list Game.t) (h : Game.t) :
  StronglySorted (fun x y => date_id_leb x y = true) (a ++ h :: b) ->
  List.NoDup (map Game.game_id (a ++ h :: b)) ->
  List.filter (fun z => negb (date_id_leb h z)) (a ++ h :: b) = a.
Proof.
  induction a as [|z a IH]; simpl; intros Hs Hnd.
  - rewrite date_id_leb_refl. simpl. apply filter_none.
    intros y Hy. inversion Hs as [|? ? _ Hall]; subst.
    now rewrite (proj1 (List.Forall_forall _ _) Hall y Hy).
  - inversion Hs as [|? ? Hs' Hall]; subst.
    inversion Hnd as [|? ? Hz Hnd']; subst.
    assert (Hzh : date_id_leb z h = true).
    { apply (proj1 (List.Forall_forall _ _) Hall). apply in_or_app. right. now left. }
    destruct (date_id_leb h z) eqn:Ehz.
    + exfalso. apply Hz. rewrite (date_id_leb_antisym z h Hzh Ehz).
      apply in_map, in_or_app. right. now left.
    + simpl. f_equal. now apply IH.
Qed.

Lemma inserted_rows_impl {A : Type} (P Q : A -> Prop) (l l' : list A) :
  (forall y, P y -> Q y) -> inserted_rows P l l' -> inserted_rows Q l l'.
Proof. intros H. induction 1; constructor; auto. Qed.

(** Games inserted after [h] leave the games before [h] in the order of
    the pass as they were. *)
Lemma pass_prefix_stable (l l' a b a' b' : list Game.t) (h : Game.t) :
  List.NoDup (map Game.game_id l') ->
  inserted_rows (fun y => date_id_leb y h = false) l l' ->
  order_by date_id_leb l = a ++ h :: b ->
  order_by date_id_leb l' = a' ++ h :: b' ->
  a' = a.
Proof.
  intros Hnd' Hins Hs Hs'.
  assert (Hnd : List.NoDup (map Game.game_id l))
    by exact (inserted_rows_NoDup_map _ Game.game_id _ _ Hins Hnd').
  assert (Hsorted : forall k, StronglySorted (fun x y => date_id_leb x y = true)
                                (order_by date_id_leb k))
    by (intros k; apply order_by_sorted;
        [apply date_id_leb_total|apply date_id_leb_trans]).
  assert (Hkeys : forall k, List.NoDup (map Game.game_id k) ->
                    List.NoDup (map Game.game_id (order_by date_id_leb k))).
  { intros k Hk. eapply Permutation_NoDup; [|exact Hk].
    apply Permutation_map. symmetry. apply order_by_perm. }
  rewrite <- (sorted_prefix_before a b h), <- (sorted_prefix_before a' b' h).
  - rewrite <- Hs, <- Hs'.
    rewrite !(filter_order_by date_id_leb date_id_leb_total date_id_leb_trans).
    f_equal. apply (filter_inserted_rows _ _ _ _ Hins).
    intros y Hy. destruct (date_id_leb_total h y) as [E|E]; [now rewrite E|congruence].
  - rewrite <- Hs'. apply Hsorted.
  - rewrite <- Hs'. now apply Hkeys.
  - rewrite <- Hs. apply Hsorted.
  - rewrite <- Hs. now apply Hkeys.
Qed.

(** The row the pass commits for [h] is the same after the insertion of
    games that come after [h]. *)
Lemma committed_row_stable (db db' : Db) (stamped stamped' : list Game.t)
    (final final' : gmap Z R) (h : Game.t) :
  List.NoDup (game_ids db') ->
  teams db' = teams db ->
  inserted_rows (fun y => date_id_leb y h = false) (games db) (games db') ->
  In h (games db) ->
  elo_loop (init_elo_ratings (teams db)) (order_by date_id_leb (games db))
    = Ok (stamped, final) ->
  elo_loop (init_elo_ratings (teams db')) (order_by date_id_leb (games db'))
    = Ok (stamped', final') ->
  exists rh ra,
    find (fun x => String.eqb (Game.game_id x) (Game.game_id h)) stamped
    = Some (stamp h rh ra)
    /\ find (fun x => String.eqb (Game.game_id x) (Game.game_id h)) stamped'
       = Some (stamp h rh ra).
Proof.
  intros Hnd' Ht Hins Hh Hloop Hloop'.
  assert (Hnd : List.NoDup (game_ids db))
    by exact (inserted_rows_NoDup_map _ Game.game_id _ _ Hins Hnd').
  assert (Hh' : In h (games db')) by (eapply inserted_rows_old_In; eauto).
  apply (order_by_In date_id_leb) in Hh, Hh'.
  apply in_split in Hh, Hh'.
  destruct Hh as (a & b & Hs). destruct Hh' as (a' & b' & Hs').
  assert (Ea : a' = a)
    by exact (pass_prefix_stable _ _ a b a' b' h Hnd' Hins Hs Hs').
  subst a'.
  destruct (committed_stamp db stamped final a b h Hnd Hloop Hs)
    as (out1 & elo1 & rh & ra & H1 & Hrh & Hra & Hf).
  destruct (committed_stamp db' stamped' final' a b' h Hnd' Hloop' Hs')
    as (out1' & elo1' & rh' & ra' & H1' & Hrh' & Hra' & Hf').
  rewrite Ht, H1 in H1'. injection H1' as <- <-.
  rewrite Hrh in Hrh'. rewrite Hra in Hra'. injection Hrh' as <-. injection Hra' as <-.
  exists rh, ra. split; assumption.
Qed.
End PassPrefix.

(** ** What the form window reads of the games *)

Section FormReadsEarlierGames.
Variables (team_id game_date : Z).

Lemma played_before_dated (bs : TeamBoxScore.t) (g : Game.t) :
  played_before team_id game_date bs g
  = (Game.date g <? game_date) && played_before team_id game_date bs g.
Proof.
  unfold played_before. destruct (Game.date g <? game_date);
    [reflexivity|now rewrite andb_false_r].
Qed.

(** The form query reads only the games dated before the cutoff. *)
Lemma join_box_scores_before (bss : list TeamBoxScore.t) (gs : list Game.t) :
  List.filter (fun r => played_before team_id game_date (fst r) (snd r))
    (join_box_scores bss gs)
  = List.filter (fun r => played_before team_id game_date (fst r) (snd r))
      (join_box_scores bss (List.filter (fun g => Game.date g <? game_date) gs)).
Proof.
  unfold join_box_scores. rewrite !filter_flat_map.
  induction bss as [|b bss IH]; simpl; [reflexivity|].
  rewrite IH. f_equal.
  rewrite !filter_map_swap, !filter_filter_andb. f_equal. simpl.
  apply filter_ext. intros g. rewrite (played_before_dated b g).
  destruct (Game.date g <? game_date), (String.eqb _ _); reflexivity.
Qed.

Lemma join_games_before (gs : list Game.t) (bss : list TeamBoxScore.t) :
  List.filter (fun r => played_before team_id game_date (snd r) (fst r))
    (join_games gs bss)
  = List.filter (fun r => played_before team_id game_date (snd r) (fst r))
      (join_games (List.filter (fun g => Game.date g <? game_date) gs) bss).
Proof.
  unfold join_games. rewrite !filter_flat_map.
  induction gs as [|g gs IH]; simpl; [reflexivity|].
  destruct (Game.date g <? game_date) eqn:E; simpl; [now rewrite IH|].
  rewrite IH, filter_map_swap, filter_none; [reflexivity|].
  intros b _. simpl. rewrite played_before_dated, E. reflexivity.
Qed.

Lemma h2h_games_filter_before (opponent_id : Z) (gs : list Game.t) :
  List.filter (fun g =>
    (((Game.home_team_id g =? team_id) && (Game.away_team_id g =? opponent_id))
     || ((Game.home_team_id g =? opponent_id) && (Game.away_team_id g =? team_id)))
    && (Game.date g <? game_date)
    && is_completed g) gs
  = List.filter (fun g =>
      (((Game.home_team_id g =? team_id) && (Game.away_team_id g =? opponent_id))
       || ((Game.home_team_id g =? opponent_id) && (Game.away_team_id g =? team_id)))
      && (Game.date g <? game_date)
      && is_completed g) (List.filter (fun g => Game.date g <? game_date) gs).
Proof.
  rewrite filter_filter_andb. apply filter_ext. intros g.
  destruct (Game.date g <? game_date); [reflexivity|].
  now rewrite andb_false_r.
Qed.

(** Two databases whose games dated before the cutoff are the same rows,
    the second with more box scores, of games that are not among them. *)
Variables (db db' : Db) (ids : list string).
Hypothesis games_before :
  List.filter (fun g => Game.date g <? game_date) (games db')
  = List.filter (fun g => Game.date g <? game_date) (games db).
Hypothesis ids_of_games : forall g, In g (games db) -> In (Game.game_id g) ids.
Hypothesis more_box_scores :
  inserted_rows (fun bs => ~ In (TeamBoxScore.game_id bs) ids)
    (team_box_scores db) (team_box_scores db').

Lemma ids_of_games_before (g : Game.t) :
  In g (List.filter (fun g => Game.date g <? game_date) (games db)) ->
  In (Game.game_id g) ids.
Proof. intros H. apply filter_In in H. apply ids_of_games, H. Qed.

Lemma rolling_box_scores_same_before (window : nat) :
  rolling_box_scores db' team_id game_date window
  = rolling_box_scores db team_id game_date window.
Proof.
  unfold rolling_box_scores. do 2 f_equal.
  rewrite (join_box_scores_before (team_box_scores db')), games_before.
  rewrite (join_box_scores_before (team_box_scores db)).
  apply join_box_scores_later; [apply inserted_rows_refl|].
  eapply inserted_rows_impl; [|exact more_box_scores].
  intros bs Hbs Hin. apply Hbs. apply in_map_iff in Hin.
  destruct Hin as (g & <- & Hg). now apply ids_of_games_before.
Qed.

Lemma rest_games_same_before :
  rest_games db' team_id game_date = rest_games db team_id game_date.
Proof.
  unfold rest_games. f_equal.
  rewrite (join_games_before (games db')), games_before.
  rewrite (join_games_before (games db)).
  apply (join_games_later team_id game_date ids _ _ more_box_scores);
    [apply inserted_rows_refl|].
  intros g. apply ids_of_games_before.
Qed.

Lemma h2h_games_same_before (opponent_id : Z) :
  h2h_games db' team_id opponent_id game_date
  = h2h_games db team_id opponent_id game_date.
Proof.
  unfold h2h_games.
  rewrite (h2h_games_filter_before opponent_id (games db')), games_before.
  now rewrite <- h2h_games_filter_before.
Qed.
End FormReadsEarlierGames.

Section TrainingPipelineLeakage.

Lemma game_rows_same_before (db db' : Db) (ids : list string) (s : Game.t) :
  List.filter (fun g => Game.date g <? Game.date s) (games db')
  = List.filter (fun g => Game.date g <? Game.date s) (games db) ->
  (forall g, In g (games db) -> In (Game.game_id g) ids) ->
  inserted_rows (fun bs => ~ In (TeamBoxScore.game_id bs) ids)
    (team_box_scores db) (team_box_scores db') ->
  game_rows db' s = game_rows db s.
Proof.
  intros Hg Hids Hb. unfold game_rows, get_rolling_averages, get_h2h_win_pct,
    get_days_rest.
  rewrite !(rolling_box_scores_same_before _ _ db db' ids Hg Hids Hb).
  rewrite !(rest_games_same_before _ _ db db' ids Hg Hids Hb).
  rewrite !(h2h_games_same_before _ _ db db' Hg).
  reflexivity.
Qed.

Lemma Forall2_map_same_inv {A B : Type} (R' : A -> B -> Prop) (f : A -> B)
    (l : list A) :
  Forall2 R' l (map f l) -> forall x, In x l -> R' x (f x).
Proof.
  induction l as [|a l IH]; simpl; intros H x Hx; [destruct Hx|].
  inversion H; subst. destruct Hx as [<-|Hx]; auto.
Qed.

Lemma calculate_elo_ratings_inv (db r : Db) :
  calculate_elo_ratings db = Ok r ->
  exists stamped final,
    elo_loop (init_elo_ratings (teams db)) (order_by date_id_leb (games db))
    = Ok (stamped, final)
    /\ r = mkDb (teams db) (commit_games stamped (games db))
             (team_box_scores db) (odds_table db).
Proof.
  unfold calculate_elo_ratings.
  destruct (elo_loop _ _) as [[stamped final]|]; [|discriminate].
  simpl. intros [= <-]. eauto.
Qed.

(** X12. The training pipeline sees no later game. Take a game [g] of a
    table, and insert games that come after [g] in the order of the
    rating pass (a later date, or the date of [g] and a greater key),
    between the same teams, with box scores that belong to none of the
    earlier games. After the rating pass on either table, [g] carries the
    same stamps and has the same rows in the feature set: the rating,
    form, head-to-head and rest columns of [g] do not depend on the
    inserted games. *)
Theorem training_rows_see_no_later_game
    (db db' rated rated' : Db) (season_filter : option Z) (g : Game.t) :
  List.NoDup (game_ids db') ->
  teams db' = teams db ->
  In g (games db) ->
  inserted_rows (fun y => date_id_leb y g = false) (games db) (games db') ->
  inserted_rows (fun bs => ~ In (TeamBoxScore.game_id bs) (game_ids db))
    (team_box_scores db) (team_box_scores db') ->
  calculate_elo_ratings db = Ok rated ->
  calculate_elo_ratings db' = Ok rated' ->
  exists s,
    stamped_of g s
    /\ In s (games rated)
    /\ In s (games rated')
    /\ game_rows rated' s = game_rows rated s
    /\ rows_of_game (Game.game_id g) (create_feature_set rated' season_filter)
       = rows_of_game (Game.game_id g) (create_feature_set rated season_filter).
Proof.
  intros Hnd' Ht Hg Hins Hbss Hcalc Hcalc'.
  assert (Hnd : List.NoDup (game_ids db))
    by exact (inserted_rows_NoDup_map _ Game.game_id _ _ Hins Hnd').
  assert (Hg' : In g (games db')) by (eapply inserted_rows_old_In; eauto).
  destruct (calculate_elo_ratings_inv _ _ Hcalc) as (stamped & final & Hloop & ->).
  destruct (calculate_elo_ratings_inv _ _ Hcalc') as (stamped' & final' & Hloop' & ->).
  assert (Hst := commit_games_stamped_of db stamped final Hnd Hloop).
  assert (Hst' := commit_games_stamped_of db' stamped' final' Hnd' Hloop').
  set (row := fun (st : list Game.t) (x : Game.t) =>
         match find (fun y => String.eqb (Game.game_id y) (Game.game_id x)) st with
         | Some y => y
         | None => x
         end).
  assert (Hrow : forall h, In h (games db) ->
            inserted_rows (fun y => date_id_leb y h = false) (games db) (games db') ->
            row stamped' h = row stamped h /\ stamped_of h (row stamped h)).
  { intros h Hh Hi.
    destruct (committed_row_stable db db' stamped stamped' final final' h
                Hnd' Ht Hi Hh Hloop Hloop') as (rh & ra & Hf & Hf').
    unfold row. rewrite Hf, Hf'. split; [reflexivity|]. exists rh, ra. reflexivity. }
  destruct (Hrow g Hg Hins) as (Erow & Hs).
  exists (row stamped g). cbn [games team_box_scores].
  assert (Hin : In (row stamped g) (commit_games stamped (games db)))
    by (unfold commit_games; apply in_map_iff; exists g; auto).
  assert (Hin' : In (row stamped g) (commit_games stamped' (games db')))
    by (unfold commit_games; apply in_map_iff; exists g; split; [exact Erow|exact Hg']).
  assert (Hdate : Game.date (row stamped g) = Game.date g)
    by (destruct Hs as (rh & ra & ->); reflexivity).
  assert (Hid : Game.game_id (row stamped g) = Game.game_id g)
    by (now apply stamped_of_game_id).
  (* the games dated before [g] are the same rows in the two rated tables *)
  assert (Hbefore :
    List.filter (fun x => Game.date x <? Game.date (row stamped g))
      (commit_games stamped' (games db'))
    = List.filter (fun x => Game.date x <? Game.date (row stamped g))
        (commit_games stamped (games db))).
  { rewrite Hdate. unfold commit_games. rewrite !filter_map_swap. fold (row stamped').
    fold (row stamped).
    assert (Hd' : forall x, In x (games db') ->
              Game.date (row stamped' x) = Game.date x).
    { intros x Hx.
      destruct (Forall2_map_same_inv _ _ _ Hst' x Hx) as (rh & ra & E).
      unfold row. rewrite E. reflexivity. }
    assert (Hd : forall x, In x (games db) ->
              Game.date (row stamped x) = Game.date x).
    { intros x Hx.
      destruct (Forall2_map_same_inv _ _ _ Hst x Hx) as (rh & ra & E).
      unfold row. rewrite E. reflexivity. }
    rewrite (filter_ext_in _ (fun x => Game.date x <? Game.date g) (games db'))
      by (intros x Hx; cbv beta; f_equal; exact (Hd' x Hx)).
    rewrite (filter_ext_in _ (fun x => Game.date x <? Game.date g) (games db))
      by (intros x Hx; cbv beta; f_equal; exact (Hd x Hx)).
    rewrite (filter_inserted_rows _ _ _ _ Hins).
    2:{ intros y Hy. apply Z.ltb_ge. now apply after_in_pass_dated_from. }
    apply map_ext_in. intros h Hh. apply filter_In in Hh. destruct Hh as (Hh & Hlt).
    apply Z.ltb_lt in Hlt. apply (Hrow h Hh).
    eapply inserted_rows_impl; [|exact Hins].
    intros y Hy. apply after_in_pass_dated_from in Hy.
    destruct (date_id_leb y h) eqn:E; [|reflexivity].
    apply date_id_leb_spec in E. lia. }
  assert (Hids : forall x, In x (commit_games stamped (games db)) ->
            In (Game.game_id x) (game_ids db)).
  { intros x Hx. unfold game_ids. rewrite <- (stamped_of_map_game_id _ _ Hst).
    now apply in_map. }
  assert (Hrows : game_rows
                    (mkDb (teams db') (commit_games stamped' (games db'))
                       (team_box_scores db') (odds_table db'))
                    (row stamped g)
                  = game_rows
                      (mkDb (teams db) (commit_games stamped (games db))
                         (team_box_scores db) (odds_table db))
                      (row stamped g)).
  { apply (game_rows_same_before _ _ (game_ids db)); assumption. }
  split; [exact Hs|]. split; [exact Hin|]. split; [exact Hin'|].
  split; [exact Hrows|].
  rewrite <- Hid.
  rewrite (rows_of_game_in_feature_set _ season_filter (row stamped g));
    [|unfold game_ids; cbn [games];
      rewrite (stamped_of_map_game_id _ _ Hst'); exact Hnd'|exact Hin'].
  rewrite (rows_of_game_in_feature_set _ season_filter (row stamped g));
    [|unfold game_ids; cbn [games];
      rewrite (stamped_of_map_game_id _ _ Hst); exact Hnd|exact Hin].
  now rewrite Hrows.
Qed.
End TrainingPipelineLeakage.

(** ** Odds, once more *)

Section OddsMore.
Local Open Scope Q_scope.

(** An integer fraction with a positive denominator, as a [Qmake]. *)
Lemma Qdiv_inject_Z (a b : Z) :
  (0 < b)%Z -> inject_Z a / inject_Z b == a # Z.to_pos b.
Proof.
  intros Hb. destruct b as [|p|p]; try lia.
  unfold Qdiv, Qmult, Qinv, inject_Z, Qeq. simpl. lia.
Qed.

Lemma moneyline_to_implied_prob_eq (m : Z) :
  moneyline_to_implied_prob m
  == (if (m >? 0)%Z then 100 else Z.abs m)
     # Z.to_pos ((if (m >? 0)%Z then m else Z.abs m) + 100).
Proof.
  unfold moneyline_to_implied_prob.
  destruct (m >? 0)%Z eqn:E; apply Qdiv_inject_Z; lia.
Qed.

(** X13. The implied probability of any moneyline lies in [0, 1) and is 0
    only for the moneyline 0; it is at least one half exactly for the
    moneylines at or below -100 and for those from 1 to 100; and the two
    sides [m] and [-m] of a line without margin have probabilities that
    sum to 1. *)
Theorem implied_prob_range_and_sides (m : Z) :
  0 <= moneyline_to_implied_prob m
  /\ moneyline_to_implied_prob m < 1
  /\ (moneyline_to_implied_prob m == 0 <-> m = 0%Z)
  /\ (1 # 2 <= moneyline_to_implied_prob m <-> (m <= -100 \/ 0 < m <= 100)%Z)
  /\ (m <> 0%Z ->
      moneyline_to_implied_prob m + moneyline_to_implied_prob (- m) == 1).
Proof.
  assert (Hpos : forall k : Z, (0 <= k)%Z -> Z.pos (Z.to_pos (k + 100)) = (k + 100)%Z)
    by (intros k Hk; apply Z2Pos.id; lia).
  split; [|split; [|split; [|split]]].
  - rewrite moneyline_to_implied_prob_eq.
    destruct (Z.gtb_spec m 0); unfold Qle; simpl; lia.
  - rewrite moneyline_to_implied_prob_eq.
    destruct (Z.gtb_spec m 0); unfold Qlt; simpl; rewrite Hpos; lia.
  - rewrite moneyline_to_implied_prob_eq.
    destruct (Z.gtb_spec m 0); unfold Qeq; simpl; lia.
  - rewrite moneyline_to_implied_prob_eq.
    destruct (Z.gtb_spec m 0); unfold Qle; simpl; rewrite Hpos; lia.
  - intros Hm. rewrite !moneyline_to_implied_prob_eq.
    destruct (Z.gtb_spec m 0), (Z.gtb_spec (- m) 0); try lia;
      unfold Qeq, Qplus; cbn [Qnum Qden]; rewrite Pos2Z.inj_mul, !Hpos; lia.
Qed.

Lemma inject_Z_nonzero (k : Z) : k <> 0%Z -> ~ inject_Z k == 0.
Proof. intros Hk E. unfold Qeq in E. simpl in E. lia. Qed.

(** X14. The payout raises [ZeroDivisionError] exactly at the moneyline 0.
    At any other moneyline it is returned, it is fair for the implied
    probability (payout times implied probability is the stake), and it
    is at least the stake for a stake that is not negative, and more than
    a positive stake. The numbers are exact rationals: on binary64
    numbers the product is the stake up to rounding only. *)
Theorem payout_is_fair_and_covers_stake (m : Z) (stake : Q) :
  (moneyline_to_payout m stake = Raise ZeroDivisionError <-> m = 0%Z)
  /\ (m <> 0%Z ->
      exists payout,
        moneyline_to_payout m stake = Ok payout
        /\ payout * moneyline_to_implied_prob m == stake
        /\ (0 <= stake -> stake <= payout)
        /\ (0 < stake -> stake < payout)).
Proof.
  split.
  - unfold moneyline_to_payout. destruct (Z.gtb_spec m 0) as [Hp|Hp].
    + split; [discriminate|lia].
    + destruct (Z.eqb_spec (Z.abs m) 0) as [E|E].
      * split; [lia|reflexivity].
      * split; [discriminate|lia].
  - intros Hm. unfold moneyline_to_payout, moneyline_to_implied_prob.
    destruct (Z.gtb_spec m 0) as [Hp|Hp].
    + eexists. split; [reflexivity|].
      assert (Hk : 0 < inject_Z m / inject_Z 100).
      { rewrite Qdiv_inject_Z by lia. unfold Qlt. simpl. lia. }
      split; [|split; intros Hs; Lqa.nra].
      rewrite inject_Z_plus.
      field; repeat split; intros Hz; unfold Qeq, Qplus, inject_Z in Hz; simpl in Hz; lia.
    + destruct (Z.eqb_spec (Z.abs m) 0) as [E|E]; [lia|].
      eexists. split; [reflexivity|].
      assert (Hk : 0 < inject_Z 100 / inject_Z (Z.abs m)).
      { rewrite Qdiv_inject_Z by lia. unfold Qlt. simpl. lia. }
      split; [|split; intros Hs; Lqa.nra].
      rewrite inject_Z_plus.
      field; repeat split; intros Hz; unfold Qeq, Qplus, inject_Z in Hz; simpl in Hz; lia.
Qed.
End OddsMore.

(** ** The backtest, once more *)

Section BacktestMore.
Local Open Scope Q_scope.
Variable model_win_proba : FeatureRow.t -> Q.
Variables (odds : list Odds.t) (edge_threshold : Q).

Lemma simulate_row_exn (od : gmap string (list Odds.t)) (s : Q) (acc : Tally)
    (row : FeatureRow.t) (e : exn) :
  simulate_row model_win_proba od edge_threshold s acc row = Raise e ->
  e = ZeroDivisionError.
Proof.
  unfold simulate_row, moneyline_to_payout.
  destruct (od !! _) as [[|o qs]|]; try discriminate.
  destruct (if negb _ then _ else _) as [m|]; try discriminate.
  destruct (Qgtb _ _); try discriminate.
  destruct (_ =? 1)%Z; try discriminate.
  destruct (m >? 0)%Z; try discriminate.
  destruct (Z.abs m =? 0)%Z; simpl; congruence.
Qed.

Lemma simulate_rows_exn (od : gmap string (list Odds.t)) (s : Q)
    (rows : list FeatureRow.t) (e : exn) :
  forall acc : Tally,
  simulate_rows model_win_proba od edge_threshold s acc rows = Raise e ->
  e = ZeroDivisionError.
Proof.
  induction rows as [|row rows IH]; intros acc; simpl; [discriminate|].
  destruct (simulate_row _ _ _ _ _ _) as [acc'|e'] eqn:E; simpl.
  - apply IH.
  - intros [= <-]. eapply simulate_row_exn; eauto.
Qed.

Lemma simulate_row_zero_quote (game_ids : list string) (s : Q) (acc : Tally)
    (row : FeatureRow.t) :
  In (FeatureRow.game_id row) game_ids ->
  spec_places_bet model_win_proba odds edge_threshold row = true ->
  is_win row = true ->
  spec_quote odds row = Some 0%Z ->
  simulate_row model_win_proba (build_odds_dict game_ids odds) edge_threshold s acc row
  = Raise ZeroDivisionError.
Proof.
  intros Hin Hv Hw Hq. unfold simulate_row.
  rewrite (build_odds_dict_lookup _ _ _ Hin).
  unfold spec_places_bet in Hv. rewrite Hq in Hv.
  unfold spec_quote in Hq. unfold is_win in Hw.
  destruct (List.filter _ odds) as [|o qs]; [discriminate|].
  destruct (FeatureRow.is_home row =? 0)%Z; simpl; rewrite Hq, Hv, Hw; reflexivity.
Qed.

Lemma simulate_rows_zero_quote (game_ids : list string) (s : Q)
    (rows : list FeatureRow.t) :
  (forall row, In row rows -> In (FeatureRow.game_id row) game_ids) ->
  (exists row, In row rows
     /\ spec_places_bet model_win_proba odds edge_threshold row = true
     /\ is_win row = true /\ spec_quote odds row = Some 0%Z) ->
  forall acc : Tally,
  simulate_rows model_win_proba (build_odds_dict game_ids odds) edge_threshold s acc rows
  = Raise ZeroDivisionError.
Proof.
  induction rows as [|row rows IH]; intros Hids (bad & Hin & Hv & Hw & Hq) acc.
  - destruct Hin.
  - simpl.
    destruct (simulate_row _ _ _ _ _ _) as [acc'|e'] eqn:E; simpl.
    + destruct Hin as [->|Hin].
      * rewrite simulate_row_zero_quote in E by (auto; apply Hids; now left).
        discriminate.
      * apply IH; [intros r Hr; apply Hids; now right|]. exists bad. auto.
    + f_equal. eapply simulate_row_exn; eauto.
Qed.

(** Either some winning value bet is quoted at 0, or none is. *)
Lemma zero_quote_dec (rows : list FeatureRow.t) :
  (exists row, In row rows /\ spec_quote odds row = Some 0%Z)
  \/ (forall row, In row rows -> spec_quote odds row <> Some 0%Z).
Proof.
  induction rows as [|row rows [(bad & Hin & Hq)|IH]].
  - right. intros row [].
  - left. exists bad. split; [now right|exact Hq].
  - destruct (spec_quote odds row) as [[|p|p]|] eqn:E.
    + left. exists row. split; [now left|exact E].
    + right. intros r [<-|Hr]; [congruence|auto].
    + right. intros r [<-|Hr]; [congruence|auto].
    + right. intros r [<-|Hr]; [congruence|auto].
Qed.

Section Run.
Variables (features_df : list FeatureRow.t) (test_season : Z).

Lemma run_no_rows (s : Q) :
  features_df = [] ->
  run_profitability_simulation model_win_proba odds features_df test_season
    edge_threshold s = Raise (KeyErrorStr "season").
Proof. intros ->. reflexivity. Qed.

Lemma run_empty_season (s : Q) :
  features_df <> [] ->
  List.filter (fun row => (FeatureRow.season row =? test_season)%Z) features_df = [] ->
  run_profitability_simulation model_win_proba odds features_df test_season
    edge_threshold s = Ok None.
Proof.
  intros Hf E. unfold run_profitability_simulation.
  rewrite (match_nonempty features_df _ _ Hf). now rewrite E.
Qed.

Lemma rows_of_test_season :
  List.filter (fun row => (FeatureRow.season row =? test_season)%Z) features_df <> [] ->
  features_df <> [].
Proof. intros Hne E. apply Hne. rewrite E. reflexivity. Qed.

Lemma run_zero_quote (s : Q) (bad : FeatureRow.t) :
  In bad (List.filter is_win
            (List.filter (spec_places_bet model_win_proba odds edge_threshold)
               (List.filter (fun row => (FeatureRow.season row =? test_season)%Z)
                  features_df))) ->
  spec_quote odds bad = Some 0%Z ->
  run_profitability_simulation model_win_proba odds features_df test_season
    edge_threshold s = Raise ZeroDivisionError.
Proof.
  intros Hin Hq. apply filter_In in Hin. destruct Hin as (Hin & Hw).
  apply filter_In in Hin. destruct Hin as (Hin & Hv).
  assert (Hne : List.filter (fun row => (FeatureRow.season row =? test_season)%Z)
                  features_df <> [])
    by (intros E; rewrite E in Hin; destruct Hin).
  unfold run_profitability_simulation.
  rewrite (match_nonempty features_df _ _ (rows_of_test_season Hne)).
  rewrite (match_nonempty _ _ _ Hne).
  rewrite simulate_rows_zero_quote; [reflexivity| |].
  - intros row Hrow. now apply in_map.
  - exists bad. auto.
Qed.

(** What the simulation gives when no winning value bet is quoted at 0. *)
Lemma run_no_zero_quote (s : Q) :
  let test_df :=
    List.filter (fun row => (FeatureRow.season row =? test_season)%Z) features_df in
  let bets := List.filter (spec_places_bet model_win_proba odds edge_threshold) test_df in
  let wins := List.filter is_win bets in
  let n := Z.of_nat (length bets) in
  let w := Z.of_nat (length wins) in
  let profit := sumQ (map (spec_profit odds s) bets) in
  test_df <> [] ->
  (forall row, In row wins -> spec_quote odds row <> Some 0%Z) ->
  run_profitability_simulation model_win_proba odds features_df test_season
    edge_threshold s
  = if (0 <? n)%Z && Qeq_bool (inject_Z n * s) (0 # 1)
    then Raise ZeroDivisionError
    else Ok (Some (mkSimulation n w (n - w) (spec_win_rate n w) profit
                     (spec_roi n profit s)
                     (map (spec_ledger_line model_win_proba odds s) bets))).
Proof.
  intros test_df bets wins n w profit Hne Hnz.
  unfold run_profitability_simulation.
  rewrite (match_nonempty features_df _ _ (rows_of_test_season Hne)). fold test_df.
  rewrite (match_nonempty test_df _ _ Hne).
  assert (Hids : forall row, In row test_df ->
            In (FeatureRow.game_id row) (map FeatureRow.game_id test_df))
    by (intros row Hrow; now apply in_map).
  assert (Hnz' : forall row, In row test_df ->
            spec_places_bet model_win_proba odds edge_threshold row = true ->
            is_win row = true -> spec_quote odds row <> Some 0%Z).
  { intros row Hrow Hv Hwin. apply Hnz. unfold wins, bets.
    rewrite !filter_In. auto. }
  destruct (simulate_rows_eq model_win_proba odds edge_threshold s
              (map FeatureRow.game_id test_df) test_df
              (mkTally 0 0 (0 # 1) []) Hids Hnz')
    as (acc & Hrun & Hb & Hw & Hp & Hl).
  fold bets in Hb, Hw, Hp, Hl. fold wins in Hw.
  simpl in Hb, Hw, Hp, Hl. rewrite Z.add_0_l in Hb, Hw.
  rewrite Hrun. cbn [mbind result_bind].
  rewrite Hb, Hw, Hp, Hl. fold (sumQ (map (spec_profit odds s) bets)).
  fold n w profit. unfold spec_win_rate, spec_roi.
  destruct (0 <? n)%Z; [|reflexivity]. simpl.
  destruct (Qeq_bool (inject_Z n * s) (0 # 1)); reflexivity.
Qed.
End Run.
End BacktestMore.

Section StakeAndThreshold.
Local Open Scope Q_scope.

(** X15. The exceptions of the simulation itself (the model, the scaler,
    the database and the export apart). On a frame without rows, and so
    without columns, it raises [KeyError] on the column [season], and on
    no other frame. It raises [ZeroDivisionError] exactly when a winning
    value bet of the test season is quoted at the moneyline 0, or when
    there is a value bet and the stake is 0. It raises nothing else, and
    it returns [None] exactly when the frame has rows and none of the
    test season. *)
Theorem simulation_exceptions_characterised
    (model_win_proba : FeatureRow.t -> Q) (odds : list Odds.t)
    (features_df : list FeatureRow.t) (test_season : Z)
    (edge_threshold bet_amount : Q) :
  let run :=
    run_profitability_simulation model_win_proba odds features_df test_season
      edge_threshold bet_amount in
  let test_df :=
    List.filter (fun row => (FeatureRow.season row =? test_season)%Z) features_df in
  let bets := List.filter (spec_places_bet model_win_proba odds edge_threshold) test_df in
  let wins := List.filter is_win bets in
  (run = Raise (KeyErrorStr "season") <-> features_df = [])
  /\ (run = Raise ZeroDivisionError <->
      (exists row, In row wins /\ spec_quote odds row = Some 0%Z)
      \/ (bets <> [] /\ bet_amount == 0))
  /\ (forall e, run = Raise e -> e = KeyErrorStr "season" \/ e = ZeroDivisionError)
  /\ (run = Ok None <-> features_df <> [] /\ test_df = []).
Proof.
  intros run test_df bets wins.
  assert (Hframe : features_df = [] \/ features_df <> [])
    by (destruct features_df; [left; reflexivity|right; discriminate]).
  destruct Hframe as [Hno|Hf].
  { assert (Hrun : run = Raise (KeyErrorStr "season")) by (apply run_no_rows; exact Hno).
    assert (Hwins : wins = []) by (unfold wins, bets, test_df; now rewrite Hno).
    assert (Hbets : bets = []) by (unfold bets, test_df; now rewrite Hno).
    rewrite Hrun, Hwins. split; [tauto|]. split; [|split].
    - split; [discriminate|]. intros [(row & [] & _)|(Hb & _)]. now elim Hb.
    - intros e [= <-]. now left.
    - split; [discriminate|]. intros (H & _). contradiction. }
  assert (Hcase : test_df = [] \/ test_df <> [])
    by (destruct test_df; [left; reflexivity|right; discriminate]).
  destruct Hcase as [Hnil|Hne].
  - assert (Hrun : run = Ok None) by (apply run_empty_season; assumption).
    assert (Hbets : bets = []) by (unfold bets; now rewrite Hnil).
    assert (Hwins : wins = []) by (unfold wins; now rewrite Hbets).
    rewrite Hrun, Hwins. split; [|split; [|split]].
    + split; [discriminate|contradiction].
    + split; [discriminate|]. intros [(row & [] & _)|(Hb & _)]. now elim Hb.
    + discriminate.
    + tauto.
  - destruct (zero_quote_dec odds wins) as [(bad & Hin & Hq)|Hnz].
    + assert (Hrun : run = Raise ZeroDivisionError)
        by (eapply run_zero_quote; eauto).
      rewrite Hrun. split; [|split; [|split]].
      * split; [discriminate|contradiction].
      * split; [|reflexivity]. intros _. left. exists bad. auto.
      * intros e [= <-]. now right.
      * split; [discriminate|]. intros (_ & H). contradiction.
    + assert (Hrun := run_no_zero_quote model_win_proba odds edge_threshold
                        features_df test_season bet_amount Hne Hnz).
      fold run test_df bets in Hrun. rewrite Hrun.
      destruct (Z.ltb_spec 0 (Z.of_nat (length bets))) as [Hpos|Hzero];
        [destruct (Qeq_bool (inject_Z (Z.of_nat (length bets)) * bet_amount) (0 # 1))
           eqn:Hs|]; simpl.
      * split; [|split; [|split]].
        -- split; [discriminate|contradiction].
        -- split; [|reflexivity]. intros _. right. split.
           ++ intros E. rewrite E in Hpos. simpl in Hpos. lia.
           ++ apply Qeq_bool_eq, Qmult_integral in Hs. destruct Hs as [Hs|Hs]; [|exact Hs].
              unfold Qeq in Hs. simpl in Hs. lia.
        -- intros e [= <-]. now right.
        -- split; [discriminate|]. intros (_ & H). contradiction.
      * split; [|split; [|split]].
        -- split; [discriminate|contradiction].
        -- split; [discriminate|]. intros [(row & Hin & Hq)|(_ & Hz)].
           ++ now elim (Hnz row Hin).
           ++ exfalso. apply Qeq_bool_neq in Hs. apply Hs. rewrite Hz. ring.
        -- discriminate.
        -- split; [discriminate|]. intros (_ & H). contradiction.
      * split; [|split; [|split]].
        -- split; [discriminate|contradiction].
        -- split; [discriminate|]. intros [(row & Hin & Hq)|(Hb & _)].
           ++ now elim (Hnz row Hin).
           ++ destruct bets; [now elim Hb|simpl in Hzero; lia].
        -- discriminate.
        -- split; [discriminate|]. intros (_ & H). contradiction.
Qed.

Lemma fold_left_Qplus_acc (l : list Q) :
  forall a : Q, fold_left Qplus l a == a + fold_left Qplus l (0 # 1).
Proof.
  induction l as [|x l IH]; intros a; simpl; [ring|].
  rewrite (IH (a + x)), (IH (0 + x)). ring.
Qed.

Lemma sumQ_scale {A : Type} (f g : A -> Q) (k : Q) (l : list A) :
  (forall x, f x == k * g x) -> sumQ (map f l) == k * sumQ (map g l).
Proof.
  intros Hfg. unfold sumQ. induction l as [|x l IH]; simpl; [ring|].
  rewrite (fold_left_Qplus_acc _ (0 + f x)), (fold_left_Qplus_acc _ (0 + g x)).
  rewrite IH, Hfg. ring.
Qed.

Lemma spec_profit_scale (odds : list Odds.t) (s : Q) (row : FeatureRow.t) :
  spec_profit odds s row == s * spec_profit odds 1 row.
Proof.
  unfold spec_profit, spec_payout.
  destruct (spec_quote odds row) as [m|]; [|ring].
  destruct (is_win row); [|ring].
  destruct (m >? 0)%Z; ring.
Qed.

Lemma Qeq_bool_stake_inv (n : Z) (s : Q) :
  Qeq_bool (inject_Z n * s) (0 # 1) = false -> ~ s == 0.
Proof. intros H E. apply Qeq_bool_neq in H. apply H. rewrite E. ring. Qed.

(** The simulation returned a result: the test season has rows, no winning
    value bet is quoted at 0, and the stake is not 0 when there are bets. *)
Lemma run_returns_inv (model_win_proba : FeatureRow.t -> Q) (odds : list Odds.t)
    (features_df : list FeatureRow.t) (test_season : Z)
    (edge_threshold s : Q) (sim : Simulation) :
  let test_df :=
    List.filter (fun row => (FeatureRow.season row =? test_season)%Z) features_df in
  let bets := List.filter (spec_places_bet model_win_proba odds edge_threshold) test_df in
  let wins := List.filter is_win bets in
  let n := Z.of_nat (length bets) in
  let w := Z.of_nat (length wins) in
  let profit := sumQ (map (spec_profit odds s) bets) in
  run_profitability_simulation model_win_proba odds features_df test_season
    edge_threshold s = Ok (Some sim) ->
  test_df <> []
  /\ (forall row, In row wins -> spec_quote odds row <> Some 0%Z)
  /\ (bets <> [] -> ~ s == 0)
  /\ sim = mkSimulation n w (n - w) (spec_win_rate n w) profit
             (spec_roi n profit s)
             (map (spec_ledger_line model_win_proba odds s) bets).
Proof.
  intros test_df bets wins n w profit Hrun.
  assert (Hf : features_df <> []).
  { intros E. rewrite run_no_rows in Hrun by exact E. discriminate. }
  assert (Hne : test_df <> []).
  { intros E. rewrite run_empty_season in Hrun by assumption. discriminate. }
  assert (Hnz : forall row, In row wins -> spec_quote odds row <> Some 0%Z).
  { destruct (zero_quote_dec odds wins) as [(bad & Hin & Hq)|Hnz]; [|exact Hnz].
    rewrite (run_zero_quote _ _ _ _ _ _ bad Hin Hq) in Hrun. discriminate. }
  rewrite (run_no_zero_quote model_win_proba odds edge_threshold features_df
             test_season s Hne Hnz) in Hrun.
  fold test_df bets wins n w profit in Hrun.
  split; [exact Hne|]. split; [exact Hnz|].
  destruct (Z.ltb_spec 0 n) as [Hpos|Hzero]; simpl in Hrun.
  - destruct (Qeq_bool (inject_Z n * s) (0 # 1)) eqn:Hs; [discriminate|].
    split; [intros _; eapply Qeq_bool_stake_inv; eauto|]. congruence.
  - split; [|congruence]. intros Hb. exfalso. unfold n in Hzero.
    destruct bets; [now elim Hb|simpl in Hzero; lia].
Qed.

(** X16. When the simulation returns a result for one stake, it returns
    one for any other stake that is not 0, with the same bets, wins,
    losses, win rate, edges and results; and, the stakes and profits
    being exact rationals, with the same roi and a total profit in
    proportion to the stake. On binary64 numbers the roi of two stakes
    agrees up to rounding only. *)
Theorem roi_does_not_depend_on_stake
    (model_win_proba : FeatureRow.t -> Q) (odds : list Odds.t)
    (features_df : list FeatureRow.t) (test_season : Z)
    (edge_threshold s1 s2 : Q) (sim1 : Simulation) :
  run_profitability_simulation model_win_proba odds features_df test_season
    edge_threshold s1 = Ok (Some sim1) ->
  ~ s2 == 0 ->
  exists sim2,
    run_profitability_simulation model_win_proba odds features_df test_season
      edge_threshold s2 = Ok (Some sim2)
    /\ total_bets sim2 = total_bets sim1
    /\ total_won sim2 = total_won sim1
    /\ total_lost sim2 = total_lost sim1
    /\ win_rate sim2 = win_rate sim1
    /\ roi sim2 == roi sim1
    /\ total_profit sim2 * s1 == total_profit sim1 * s2
    /\ map Bet.result (bets_placed sim2) = map Bet.result (bets_placed sim1)
    /\ map Bet.edge (bets_placed sim2) = map Bet.edge (bets_placed sim1).
Proof.
  intros Hrun Hs2.
  destruct (run_returns_inv _ _ _ _ _ _ _ Hrun) as (Hne & Hnz & Hs1 & ->).
  rewrite (run_no_zero_quote model_win_proba odds edge_threshold features_df
             test_season s2 Hne Hnz).
  set (test_df := List.filter _ features_df) in *.
  set (bets := List.filter _ test_df) in *.
  set (wins := List.filter is_win bets) in *.
  assert (Hp : forall s, sumQ (map (spec_profit odds s) bets)
                         == s * sumQ (map (spec_profit odds 1) bets))
    by (intros s; apply sumQ_scale; intros row; apply spec_profit_scale).
  destruct (Z.ltb_spec 0 (Z.of_nat (length bets))) as [Hpos|Hzero].
  - rewrite (Qeq_bool_stake _ _ Hpos Hs2). simpl.
    eexists. split; [reflexivity|]. simpl.
    assert (Hs1' : ~ s1 == 0).
    { apply Hs1. intros E. rewrite E in Hpos. simpl in Hpos. lia. }
    split; [reflexivity|]. split; [reflexivity|]. split; [reflexivity|].
    split; [reflexivity|]. split; [|split; [|split]].
    + unfold spec_roi. replace (0 <? Z.of_nat (length bets))%Z with true
        by (symmetry; now apply Z.ltb_lt).
      rewrite (Hp s1), (Hp s2). field. repeat split; try assumption.
      intros E. unfold Qeq in E. simpl in E. lia.
    + rewrite (Hp s1), (Hp s2). ring.
    + rewrite !map_map. reflexivity.
    + rewrite !map_map. reflexivity.
  - simpl. eexists. split; [reflexivity|]. simpl.
    assert (Hb : bets = []) by (destruct bets; [reflexivity|simpl in Hzero; lia]).
    rewrite Hb. simpl. unfold spec_roi. simpl.
    repeat split; reflexivity || ring.
Qed.

(** X17. A returned result adds up: the number of bets is the number of
    ledger lines, the wins are the lines marked [WIN], wins and losses
    make up the bets, there are at most as many bets as test rows, and
    the total profit is the sum of the profits of the lines. Every line
    has an edge above the threshold, which is its model probability
    minus the implied probability of its moneyline; a loss costs the
    stake and a win earns the payout minus the stake. *)
Theorem ledger_adds_up_to_totals
    (model_win_proba : FeatureRow.t -> Q) (odds : list Odds.t)
    (features_df : list FeatureRow.t) (test_season : Z)
    (edge_threshold bet_amount : Q) (sim : Simulation) :
  run_profitability_simulation model_win_proba odds features_df test_season
    edge_threshold bet_amount = Ok (Some sim) ->
  let won (b : Bet.t) := match Bet.result b with WIN => true | LOSS => false end in
  total_bets sim = Z.of_nat (length (bets_placed sim))
  /\ total_won sim = Z.of_nat (length (List.filter won (bets_placed sim)))
  /\ (total_won sim + total_lost sim = total_bets sim)%Z
  /\ (0 <= total_won sim <= total_bets sim)%Z
  /\ (total_bets sim
      <= Z.of_nat (length (List.filter
                             (fun row => (FeatureRow.season row =? test_season)%Z)
                             features_df)))%Z
  /\ total_profit sim = sumQ (map Bet.profit (bets_placed sim))
  /\ List.Forall
       (fun b =>
          Qgtb (Bet.edge b) edge_threshold = true
          /\ Bet.edge b = Bet.model_prob b - Bet.implied_prob b
          /\ Bet.implied_prob b = moneyline_to_implied_prob (Bet.moneyline b)
          /\ match Bet.result b with
             | WIN => exists payout,
                   moneyline_to_payout (Bet.moneyline b) bet_amount = Ok payout
                   /\ Bet.profit b = payout - bet_amount
             | LOSS => Bet.profit b = - bet_amount
             end)
       (bets_placed sim).
Proof.
  intros Hrun won.
  destruct (run_returns_inv _ _ _ _ _ _ _ Hrun) as (Hne & Hnz & Hs & ->).
  set (test_df := List.filter _ features_df) in *.
  set (bets := List.filter _ test_df) in *.
  set (wins := List.filter is_win bets) in *.
  cbn [total_bets total_won total_lost total_profit bets_placed].
  assert (Hwb : (length wins <= length bets)%nat) by apply filter_length_le.
  assert (Hbt : (length bets <= length test_df)%nat) by apply filter_length_le.
  split; [now rewrite length_map|].
  split.
  { rewrite filter_map_swap, length_map. unfold wins. do 2 f_equal.
    apply filter_ext. intros row. unfold won. simpl. now destruct (is_win row). }
  split; [lia|]. split; [lia|]. split; [lia|].
  split; [now rewrite map_map|].
  apply List.Forall_forall. intros b Hb. apply in_map_iff in Hb.
  destruct Hb as (row & <- & Hrow).
  assert (Hv : spec_places_bet model_win_proba odds edge_threshold row = true)
    by (apply filter_In in Hrow; tauto).
  assert (Hw : is_win row = true -> spec_quote odds row <> Some 0%Z)
    by (intros Hw; apply Hnz; apply filter_In; auto).
  unfold spec_ledger_line, spec_profit. unfold spec_places_bet in Hv.
  destruct (spec_quote odds row) as [m|]; [|discriminate]. simpl.
  split; [exact Hv|]. split; [reflexivity|]. split; [reflexivity|].
  destruct (is_win row); [|reflexivity].
  exists (spec_payout m bet_amount). split; [|reflexivity].
  apply moneyline_to_payout_spec. intros ->. now apply Hw.
Qed.

Lemma Qgtb_le (e t1 t2 : Q) : t1 <= t2 -> Qgtb e t2 = true -> Qgtb e t1 = true.
Proof.
  unfold Qgtb. intros Ht H.
  destruct (Qle_bool e t1) eqn:E1; [|reflexivity].
  apply Qle_bool_iff in E1.
  assert (E2 : Qle_bool e t2 = true) by (apply Qle_bool_iff; eapply Qle_trans; eauto).
  rewrite E2 in H. discriminate.
Qed.

Lemma filter_length_impl {A : Type} (p q : A -> bool) (l : list A) :
  (forall x, In x l -> p x = true -> q x = true) ->
  (length (List.filter p l) <= length (List.filter q l))%nat.
Proof.
  induction l as [|x l IH]; intros H; simpl; [lia|].
  assert (IH' := IH (fun y Hy => H y (or_intror Hy))).
  destruct (p x) eqn:Ep.
  - rewrite (H x (or_introl eq_refl) Ep). simpl. lia.
  - destruct (q x); simpl; lia.
Qed.

(** X18. A threshold at least as high places no new bet: when the
    simulation returns a result, it also returns one for any higher
    threshold, with at most as many bets, each of them a line of the
    first ledger. *)
Theorem stricter_threshold_places_no_new_bet
    (model_win_proba : FeatureRow.t -> Q) (odds : list Odds.t)
    (features_df : list FeatureRow.t) (test_season : Z)
    (t1 t2 bet_amount : Q) (sim1 : Simulation) :
  run_profitability_simulation model_win_proba odds features_df test_season
    t1 bet_amount = Ok (Some sim1) ->
  t1 <= t2 ->
  exists sim2,
    run_profitability_simulation model_win_proba odds features_df test_season
      t2 bet_amount = Ok (Some sim2)
    /\ (total_bets sim2 <= total_bets sim1)%Z
    /\ incl (bets_placed sim2) (bets_placed sim1).
Proof.
  intros Hrun Ht.
  destruct (run_returns_inv _ _ _ _ _ _ _ Hrun) as (Hne & Hnz & Hs & ->).
  set (test_df := List.filter _ features_df) in *.
  assert (Hmono : forall row,
            spec_places_bet model_win_proba odds t2 row = true ->
            spec_places_bet model_win_proba odds t1 row = true).
  { intros row. unfold spec_places_bet.
    destruct (spec_quote odds row); [apply Qgtb_le, Ht|auto]. }
  assert (Hsub : forall row,
            In row (List.filter (spec_places_bet model_win_proba odds t2) test_df) ->
            In row (List.filter (spec_places_bet model_win_proba odds t1) test_df)).
  { intros row Hrow. apply filter_In in Hrow. apply filter_In.
    split; [tauto|apply Hmono; tauto]. }
  assert (Hnz2 : forall row,
            In row (List.filter is_win
                      (List.filter (spec_places_bet model_win_proba odds t2) test_df)) ->
            spec_quote odds row <> Some 0%Z).
  { intros row Hrow. apply Hnz. apply filter_In in Hrow. apply filter_In.
    split; [apply Hsub; tauto|tauto]. }
  rewrite (run_no_zero_quote model_win_proba odds t2 features_df
             test_season bet_amount Hne Hnz2).
  fold test_df.
  set (bets2 := List.filter (spec_places_bet model_win_proba odds t2) test_df) in *.
  set (bets1 := List.filter (spec_places_bet model_win_proba odds t1) test_df) in *.
  assert (Hlen : (length bets2 <= length bets1)%nat)
    by (apply filter_length_impl; intros row _; apply Hmono).
  assert (Hok : (0 <? Z.of_nat (length bets2))%Z
                && Qeq_bool (inject_Z (Z.of_nat (length bets2)) * bet_amount) (0 # 1)
                = false).
  { destruct (Z.ltb_spec 0 (Z.of_nat (length bets2))) as [Hpos|_]; [|reflexivity].
    simpl. apply Qeq_bool_stake; [exact Hpos|]. apply Hs.
    intros E. rewrite E in Hlen. simpl in Hlen. lia. }
  rewrite Hok. eexists. split; [reflexivity|].
  cbn [total_bets bets_placed]. split; [lia|].
  intros b Hb. apply in_map_iff in Hb. destruct Hb as (row & <- & Hrow).
  apply in_map. apply Hsub. exact Hrow.
Qed.
End StakeAndThreshold.

(** ** Team lookup, prediction and value recommendation *)

Section TeamLookup.
Context {A : Type}.

Lemma first_filter_Some (p : A -> bool) (l : list A) (x : A) :
  first (List.filter p l) = Some x -> In x l /\ p x = true.
Proof.
  intros H. apply filter_In. destruct (List.filter p l) as [|y l']; [discriminate|].
  injection H as ->. now left.
Qed.

Lemma first_filter_None (p : A -> bool) (l : list A) :
  first (List.filter p l) = None <-> forall x, In x l -> p x = false.
Proof.
  split.
  - intros H x Hx. destruct (p x) eqn:E; [|reflexivity].
    assert (Hin : In x (List.filter p l)) by (apply filter_In; auto).
    destruct (List.filter p l); [destruct Hin|discriminate].
  - intros H. destruct (List.filter p l) as [|y l'] eqn:E; [reflexivity|].
    assert (Hin : In y (List.filter p l)) by (rewrite E; now left).
    apply filter_In in Hin. destruct Hin as (Hy & Hp). rewrite (H y Hy) in Hp.
    discriminate.
Qed.

(** With distinct keys, the first row of a key is the row of that key. *)
Lemma first_filter_key (key : A -> string) (l : list A) (x : A) (k : string) :
  List.NoDup (map key l) -> In x l -> key x = k ->
  first (List.filter (fun y => String.eqb (key y) k) l) = Some x.
Proof.
  intros Hnd Hx Hk.
  destruct (first (List.filter (fun y => String.eqb (key y) k) l)) as [y|] eqn:E.
  - apply first_filter_Some in E. destruct E as (Hy & Hyk).
    apply String.eqb_eq in Hyk. f_equal.
    apply (NoDup_map_inj_In key l); auto. congruence.
  - rewrite first_filter_None in E. specialize (E x Hx). simpl in E.
    rewrite Hk, String.eqb_refl in E. discriminate.
Qed.
End TeamLookup.

Section PredictionProperties.
Local Open Scope Q_scope.
Variable upper : string -> string.
Variable predict_proba : Features.t -> Q * Q.
Variable today : Z.

(** X19. The team lookup tries the name before the abbreviation. A team
    it returns is a row of the table whose name is the text asked for or
    whose abbreviation is that text in upper case, and it has the name
    asked for whenever some team has. The lookup fails only with
    [ValueError], and then no team matches either way. With distinct
    names a team is found by its name; with distinct abbreviations it is
    found by any text that is no team's name and whose upper case is its
    abbreviation. *)
Theorem get_team_by_name_name_before_abbreviation (db : Db) (team_name : string) :
  (forall team, get_team_by_name upper db team_name = Returned team ->
     In team (teams db)
     /\ (Team.team_name team = team_name
         \/ Team.abbreviation team = upper team_name)
     /\ ((exists t, In t (teams db) /\ Team.team_name t = team_name) ->
         Team.team_name team = team_name))
  /\ (forall e, get_team_by_name upper db team_name = Failed e ->
        e = ValueError
        /\ forall t, In t (teams db) ->
             Team.team_name t <> team_name
             /\ Team.abbreviation t <> upper team_name)
  /\ (forall t, In t (teams db) ->
        List.NoDup (map Team.team_name (teams db)) ->
        Team.team_name t = team_name ->
        get_team_by_name upper db team_name = Returned t)
  /\ (forall t, In t (teams db) ->
        List.NoDup (map Team.abbreviation (teams db)) ->
        (forall t', In t' (teams db) -> Team.team_name t' <> team_name) ->
        Team.abbreviation t = upper team_name ->
        get_team_by_name upper db team_name = Returned t).
Proof.
  unfold get_team_by_name.
  split; [|split; [|split]].
  - intros team H.
    destruct (first (List.filter _ (teams db))) as [t1|] eqn:E1.
    + injection H as <-. apply first_filter_Some in E1. destruct E1 as (Hin & Hn).
      apply String.eqb_eq in Hn. auto.
    + destruct (first (List.filter (fun t => String.eqb (Team.abbreviation t) _) _))
        as [t2|] eqn:E2; [|discriminate].
      injection H as <-. apply first_filter_Some in E2. destruct E2 as (Hin & Hn).
      apply String.eqb_eq in Hn. split; [exact Hin|]. split; [now right|].
      intros (t & Ht & Hname). rewrite first_filter_None in E1.
      specialize (E1 t Ht). simpl in E1. apply String.eqb_neq in E1. contradiction.
  - intros e H.
    destruct (first (List.filter _ (teams db))) as [t1|] eqn:E1; [discriminate|].
    destruct (first (List.filter (fun t => String.eqb (Team.abbreviation t) _) _))
      as [t2|] eqn:E2; [discriminate|].
    split; [congruence|]. intros t Ht.
    rewrite first_filter_None in E1, E2.
    specialize (E1 t Ht). specialize (E2 t Ht). simpl in E1, E2.
    apply String.eqb_neq in E1, E2. auto.
  - intros t Ht Hnd Hname.
    now rewrite (first_filter_key Team.team_name (teams db) t team_name Hnd Ht Hname).
  - intros t Ht Hnd Hnone Habbr.
    destruct (first (List.filter _ (teams db))) as [t1|] eqn:E1.
    + apply first_filter_Some in E1. destruct E1 as (Hin & Hn).
      apply String.eqb_eq in Hn. now elim (Hnone t1 Hin).
    + now rewrite (first_filter_key Team.abbreviation (teams db) t _ Hnd Ht Habbr).
Qed.

Lemma get_team_by_name_exn (db : Db) (team_name : string) (e : predict_exn) :
  get_team_by_name upper db team_name = Failed e -> e = ValueError.
Proof.
  unfold get_team_by_name.
  destruct (first _); [discriminate|]. destruct (first _); [discriminate|].
  congruence.
Qed.

Lemma get_current_elo_exn (db : Db) (team_id : Z) (e : exn) :
  get_current_elo db team_id = Raise e -> e = TypeError.
Proof.
  unfold get_current_elo.
  destruct (first _) as [g|]; [|discriminate].
  destruct (Game.home_score g), (Game.away_score g); try discriminate.
  destruct (pregame_elo_of team_id g); [|congruence].
  destruct (team_won _ _ _ _); discriminate.
Qed.

(** What [generate_prediction] gives, by the outcome of its steps. *)
Lemma generate_prediction_steps (model_exists scaler_exists : bool)
    (home_team_name away_team_name : string) (game_date : option Z) (db : Db) :
  let gp :=
    generate_prediction upper predict_proba today model_exists scaler_exists
      home_team_name away_team_name game_date db in
  (model_exists && scaler_exists = false /\ gp = Failed FileNotFoundError)
  \/ (model_exists && scaler_exists = true
      /\ ((get_team_by_name upper db home_team_name = Failed ValueError
           /\ gp = Failed ValueError)
          \/ exists home_team,
               get_team_by_name upper db home_team_name = Returned home_team
               /\ ((get_team_by_name upper db away_team_name = Failed ValueError
                    /\ gp = Failed ValueError)
                   \/ exists away_team,
                        get_team_by_name upper db away_team_name = Returned away_team
                        /\ ((gp = Failed (Other TypeError)
                             /\ forall h a,
                                  get_current_elo db (Team.team_id home_team)
                                  = Ok (Some h) ->
                                  get_current_elo db (Team.team_id away_team)
                                  <> Ok (Some a))
                            \/ exists h a p,
                                 get_current_elo db (Team.team_id home_team)
                                 = Ok (Some h)
                                 /\ get_current_elo db (Team.team_id away_team)
                                    = Ok (Some a)
                                 /\ gp = Returned p
                                 /\ Prediction.home_team p = Team.team_name home_team
                                 /\ Prediction.away_team p = Team.team_name away_team
                                 /\ Features.team_elo (Prediction.features p) = h
                                 /\ Features.opponent_elo (Prediction.features p) = a)))).
Proof.
  intros gp. unfold gp, generate_prediction, load_model_and_scaler.
  destruct model_exists; [|left; auto].
  destruct scaler_exists; [|left; auto].
  right. split; [reflexivity|]. cbn [negb mbind outcome_bind].
  destruct (get_team_by_name upper db home_team_name) as [ht|e] eqn:Eh.
  2:{ left. rewrite (get_team_by_name_exn _ _ _ Eh). auto. }
  right. exists ht. split; [reflexivity|]. cbn [mbind outcome_bind].
  destruct (get_team_by_name upper db away_team_name) as [awt|e] eqn:Ea.
  2:{ left. rewrite (get_team_by_name_exn _ _ _ Ea). auto. }
  right. exists awt. split; [reflexivity|]. cbn [mbind outcome_bind].
  destruct (get_current_elo db (Team.team_id ht)) as [[h|]|e] eqn:E1;
    cbn [call mbind outcome_bind].
  - destruct (get_current_elo db (Team.team_id awt)) as [[a|]|e] eqn:E2;
      cbn [call mbind outcome_bind].
    + right. eexists h, a, _. repeat split; reflexivity.
    + left. split; [reflexivity|discriminate].
    + left. rewrite (get_current_elo_exn _ _ _ E2). split; [reflexivity|discriminate].
  - destruct (get_current_elo db (Team.team_id awt)) as [[a|]|e] eqn:E2;
      cbn [call mbind outcome_bind].
    + left. split; [reflexivity|discriminate].
    + left. split; [reflexivity|discriminate].
    + left. rewrite (get_current_elo_exn _ _ _ E2). split; [reflexivity|discriminate].
  - left. rewrite (get_current_elo_exn _ _ _ E1). split; [reflexivity|discriminate].
Qed.

(** X20. The failures of [generate_prediction], in their order: it fails
    with [FileNotFoundError] exactly when the model or the scaler file is
    missing, whatever the teams; with [ValueError] exactly when both
    files are there and one of the two team lookups fails; any other
    failure is a [TypeError]; and it returns exactly when the files are
    there, both teams are found and both have a current rating. *)
Theorem generate_prediction_failures (model_exists scaler_exists : bool)
    (home_team_name away_team_name : string) (game_date : option Z) (db : Db) :
  let gp :=
    generate_prediction upper predict_proba today model_exists scaler_exists
      home_team_name away_team_name game_date db in
  (gp = Failed FileNotFoundError <-> model_exists && scaler_exists = false)
  /\ (gp = Failed ValueError <->
      model_exists && scaler_exists = true
      /\ (get_team_by_name upper db home_team_name = Failed ValueError
          \/ get_team_by_name upper db away_team_name = Failed ValueError))
  /\ (forall e, gp = Failed (Other e) -> e = TypeError)
  /\ ((exists p, gp = Returned p) <->
      model_exists && scaler_exists = true
      /\ exists home_team away_team h a,
           get_team_by_name upper db home_team_name = Returned home_team
           /\ get_team_by_name upper db away_team_name = Returned away_team
           /\ get_current_elo db (Team.team_id home_team) = Ok (Some h)
           /\ get_current_elo db (Team.team_id away_team) = Ok (Some a)).
Proof.
  intros gp.
  destruct (generate_prediction_steps model_exists scaler_exists home_team_name
              away_team_name game_date db)
    as [(Hf & Hgp)|(Hf & [(Hh & Hgp)|(ht & Hh & [(Ha & Hgp)|(awt & Ha &
         [(Hgp & Hno)|(h & a & p & E1 & E2 & Hgp & _)])])])];
    fold gp in Hgp; rewrite Hgp, Hf.
  - split; [tauto|]. split; [|split].
    + split; [discriminate|]. intros (Hd & _). discriminate.
    + discriminate.
    + split; [intros (p & Hp); discriminate|]. intros (Hd & _). discriminate.
  - split; [split; discriminate|]. split; [|split].
    + tauto.
    + discriminate.
    + split; [intros (p & Hp); discriminate|].
      intros (_ & ht & awt & h & a & Hh' & _). congruence.
  - split; [split; discriminate|]. split; [|split].
    + tauto.
    + discriminate.
    + split; [intros (p & Hp); discriminate|].
      intros (_ & ht' & awt & h & a & _ & Ha' & _). congruence.
  - split; [split; discriminate|]. split; [|split].
    + split; [discriminate|]. intros (_ & [H|H]); congruence.
    + now intros e [= <-].
    + split; [intros (p & Hp); discriminate|].
      intros (_ & ht' & awt' & h & a & Hh' & Ha' & E1 & E2).
      rewrite Hh in Hh'. rewrite Ha in Ha'.
      injection Hh' as <-. injection Ha' as <-. now elim (Hno h a E1).
  - split; [split; discriminate|]. split; [|split].
    + split; [discriminate|]. intros (_ & [H|H]); congruence.
    + discriminate.
    + split; [|eauto]. intros _. split; [reflexivity|].
      exists ht, awt, h, a. auto.
Qed.

Lemma Qgtb_true_iff (a b : Q) : Qgtb a b = true <-> b < a.
Proof.
  unfold Qgtb. rewrite negb_true_iff. split.
  - intros H. apply Qnot_le_lt. intros Hle. apply Qle_bool_iff in Hle. congruence.
  - intros H. destruct (Qle_bool a b) eqn:E; [|reflexivity].
    apply Qle_bool_iff in E. now elim (Qlt_not_le _ _ H).
Qed.

Lemma Qgtb_false_iff (a b : Q) : Qgtb a b = false <-> a <= b.
Proof.
  unfold Qgtb. rewrite negb_false_iff. apply Qle_bool_iff.
Qed.

(** The distance from one half, against a bound. *)
Lemma Qabs_half_gt (x y : Q) :
  Qgtb (Qabs (x - (5 # 10))) y = true <-> x < (5 # 10) - y \/ (5 # 10) + y < x.
Proof.
  rewrite Qgtb_true_iff. split.
  - intros H. destruct (Qlt_le_dec x ((5 # 10) - y)) as [Hl|Hl]; [now left|].
    destruct (Qlt_le_dec ((5 # 10) + y) x) as [Hr|Hr]; [now right|].
    exfalso. apply (Qlt_not_le _ _ H). apply Qabs_Qle_condition. split; Lqa.lra.
  - intros H. apply Qnot_le_lt. intros Hle. apply Qabs_Qle_condition in Hle.
    destruct Hle as (H1 & H2). destruct H as [H|H]; Lqa.lra.
Qed.

(** The three bands of [confidence]. *)
Lemma confidence_bands (x : Q) :
  let c :=
    if Qgtb (Qabs (x - (5 # 10))) (2 # 10) then High
    else if Qgtb (Qabs (x - (5 # 10))) (1 # 10) then Medium else Low in
  (c = High <-> x < 3 # 10 \/ 7 # 10 < x)
  /\ (c = Medium <-> (3 # 10 <= x /\ x < 4 # 10) \/ (6 # 10 < x /\ x <= 7 # 10))
  /\ (c = Low <-> 4 # 10 <= x /\ x <= 6 # 10).
Proof.
  intros c. unfold c.
  assert (H2 := Qabs_half_gt x (2 # 10)). assert (H1 := Qabs_half_gt x (1 # 10)).
  destruct (Qgtb (Qabs (x - (5 # 10))) (2 # 10)).
  - destruct H2 as (H2 & _). specialize (H2 eq_refl).
    split; [|split]; (split; [try discriminate; intros _|intros H; try reflexivity]).
    + destruct H2; [left|right]; Lqa.lra.
    + exfalso. destruct H2, H; Lqa.lra.
    + exfalso. destruct H2; Lqa.lra.
  - assert (H2' : ~ (x < (5 # 10) - (2 # 10) \/ (5 # 10) + (2 # 10) < x))
      by (intros H; apply H2 in H; discriminate).
    assert (Ha : 3 # 10 <= x)
      by (apply Qnot_lt_le; intros Hc; apply H2'; left; Lqa.lra).
    assert (Hb : x <= 7 # 10)
      by (apply Qnot_lt_le; intros Hc; apply H2'; right; Lqa.lra).
    clear H2 H2'.
    destruct (Qgtb (Qabs (x - (5 # 10))) (1 # 10)).
    + destruct H1 as (H1 & _). specialize (H1 eq_refl).
      split; [|split]; (split; [try discriminate; intros _|intros H; try reflexivity]).
      * exfalso. destruct H; Lqa.lra.
      * destruct H1; [left|right]; split; Lqa.lra.
      * exfalso. destruct H1; Lqa.lra.
    + assert (H1' : ~ (x < (5 # 10) - (1 # 10) \/ (5 # 10) + (1 # 10) < x))
        by (intros H; apply H1 in H; discriminate).
      assert (Hc : 4 # 10 <= x)
        by (apply Qnot_lt_le; intros Hc; apply H1'; left; Lqa.lra).
      assert (Hd : x <= 6 # 10)
        by (apply Qnot_lt_le; intros Hd; apply H1'; right; Lqa.lra).
      split; [|split]; (split; [try discriminate; intros _|intros H; try reflexivity]).
      * exfalso. destruct H; Lqa.lra.
      * exfalso. destruct H as [H|H]; destruct H; Lqa.lra.
      * auto.
Qed.

(** A returned prediction, by its parts. *)
Lemma generate_prediction_returned (model_exists scaler_exists : bool)
    (home_team_name away_team_name : string) (game_date : option Z) (db : Db)
    (p : Prediction.t) :
  generate_prediction upper predict_proba today model_exists scaler_exists
    home_team_name away_team_name game_date db = Returned p ->
  exists home_team away_team h a,
    get_team_by_name upper db home_team_name = Returned home_team
    /\ get_team_by_name upper db away_team_name = Returned away_team
    /\ get_current_elo db (Team.team_id home_team) = Ok (Some h)
    /\ get_current_elo db (Team.team_id away_team) = Ok (Some a)
    /\ let d := match game_date with Some d => d | None => today end in
       let home_rolling :=
         get_rolling_averages db (Team.team_id home_team) d ROLLING_WINDOW in
       let away_rolling :=
         get_rolling_averages db (Team.team_id away_team) d ROLLING_WINDOW in
       let home_rest := get_days_rest db (Team.team_id home_team) d in
       let away_rest := get_days_rest db (Team.team_id away_team) d in
       let f :=
         Features.mk 1 h a (h - a)%R
           (avg_pts_scored home_rolling) (avg_pts_allowed home_rolling)
           (avg_fg_pct home_rolling) (avg_tov home_rolling)
           (avg_plus_minus home_rolling) (avg_rebounds home_rolling)
           (avg_assists home_rolling)
           (avg_pts_scored away_rolling) (avg_pts_allowed away_rolling)
           (avg_fg_pct away_rolling) (avg_tov away_rolling)
           (avg_plus_minus away_rolling)
           (get_h2h_win_pct db (Team.team_id home_team) (Team.team_id away_team) d)
           home_rest away_rest (home_rest - away_rest)%Z in
       let hwp := snd (predict_proba f) in
       p = Prediction.mk (Team.team_name home_team) (Team.team_name away_team)
             hwp (fst (predict_proba f))
             (if Qgtb (Qabs (hwp - (5 # 10))) (2 # 10) then High
              else if Qgtb (Qabs (hwp - (5 # 10))) (1 # 10) then Medium else Low)
             (if Qgtb hwp (5 # 10)
              then Team.team_name home_team else Team.team_name away_team)
             f.
Proof.
  unfold generate_prediction, load_model_and_scaler.
  destruct model_exists; [|discriminate]. destruct scaler_exists; [|discriminate].
  cbn [negb mbind outcome_bind].
  destruct (get_team_by_name upper db home_team_name) as [ht|e]; [|discriminate].
  cbn [mbind outcome_bind].
  destruct (get_team_by_name upper db away_team_name) as [awt|e]; [|discriminate].
  cbn [mbind outcome_bind].
  destruct (get_current_elo db (Team.team_id ht)) as [[h|]|e] eqn:E1;
    destruct (get_current_elo db (Team.team_id awt)) as [[a|]|e'] eqn:E2;
    cbn [call mbind outcome_bind]; try discriminate.
  intros [= <-]. exists ht, awt, h, a.
  split; [reflexivity|]. split; [reflexivity|]. split; [exact E1|].
  split; [exact E2|]. reflexivity.
Qed.

(** X21. A returned prediction reads the model: the home probability is
    that of class 1 and the away probability that of class 0 for the
    feature vector it reports; the home team is predicted above one half
    and the away team at one half or below; the confidence is [High]
    outside [0.3, 0.7], [Low] inside [0.4, 0.6] and [Medium] between;
    and the vector is that of a home team. *)
Theorem prediction_reads_the_model (model_exists scaler_exists : bool)
    (home_team_name away_team_name : string) (game_date : option Z) (db : Db)
    (p : Prediction.t) :
  generate_prediction upper predict_proba today model_exists scaler_exists
    home_team_name away_team_name game_date db = Returned p ->
  let hwp := Prediction.home_win_probability p in
  hwp = snd (predict_proba (Prediction.features p))
  /\ Prediction.away_win_probability p = fst (predict_proba (Prediction.features p))
  /\ (5 # 10 < hwp -> Prediction.predicted_winner p = Prediction.home_team p)
  /\ (hwp <= 5 # 10 -> Prediction.predicted_winner p = Prediction.away_team p)
  /\ (Prediction.confidence p = High <-> hwp < 3 # 10 \/ 7 # 10 < hwp)
  /\ (Prediction.confidence p = Medium <->
      (3 # 10 <= hwp /\ hwp < 4 # 10) \/ (6 # 10 < hwp /\ hwp <= 7 # 10))
  /\ (Prediction.confidence p = Low <-> 4 # 10 <= hwp /\ hwp <= 6 # 10)
  /\ Features.is_home (Prediction.features p) = 1%Z.
Proof.
  intros Hgp.
  destruct (generate_prediction_returned _ _ _ _ _ _ _ Hgp)
    as (ht & awt & h & a & _ & _ & _ & _ & Hp).
  cbv zeta in Hp. rewrite Hp. cbn [Prediction.home_win_probability
    Prediction.away_win_probability Prediction.predicted_winner
    Prediction.home_team Prediction.away_team Prediction.confidence
    Prediction.features Features.is_home].
  match goal with |- context [snd (predict_proba ?f)] =>
    generalize (snd (predict_proba f)) end.
  intros x. cbv zeta.
  split; [reflexivity|]. split; [reflexivity|].
  split; [intros H; apply Qgtb_true_iff in H; now rewrite H|].
  split; [intros H; apply Qgtb_false_iff in H; now rewrite H|].
  destruct (confidence_bands x) as (H1 & H2 & H3).
  split; [exact H1|]. split; [exact H2|]. split; [exact H3|reflexivity].
Qed.

(** X22. Prediction and training compute the same form columns. For a
    game with a result between the two teams of a returned prediction,
    dated on the prediction date, the home row of the training set has
    the feature columns of the prediction, the three rating columns
    apart. *)
Theorem prediction_form_columns_match_training (model_exists scaler_exists : bool)
    (home_team_name away_team_name : string) (game_date : option Z) (db : Db)
    (p : Prediction.t) (home_team away_team : Team.t) (g : Game.t) (hs aws : Z) :
  generate_prediction upper predict_proba today model_exists scaler_exists
    home_team_name away_team_name game_date db = Returned p ->
  get_team_by_name upper db home_team_name = Returned home_team ->
  get_team_by_name upper db away_team_name = Returned away_team ->
  Game.home_team_id g = Team.team_id home_team ->
  Game.away_team_id g = Team.team_id away_team ->
  Game.date g = match game_date with Some d => d | None => today end ->
  Game.home_score g = Some hs ->
  Game.away_score g = Some aws ->
  exists home_row away_row,
    game_rows db g = [home_row; away_row]
    /\ feature_columns home_row
       = with_elo_columns (Prediction.features p)
           (FeatureRow.team_elo home_row) (FeatureRow.opponent_elo home_row)
           (FeatureRow.elo_diff home_row).
Proof.
  intros Hgp Hh Ha Hhid Haid Hd Hhs Haws.
  destruct (generate_prediction_returned _ _ _ _ _ _ _ Hgp)
    as (ht & awt & h & a & Hh' & Ha' & _ & _ & Hp).
  rewrite Hh in Hh'. rewrite Ha in Ha'. injection Hh' as <-. injection Ha' as <-.
  cbv zeta in Hp. rewrite Hp. unfold game_rows. rewrite Hhs, Haws, Hhid, Haid, Hd.
  eexists. eexists. split; reflexivity.
Qed.

(** X23. The value recommendation: it comes with the prediction that
    [generate_prediction] returns; it is [NoValue] when a moneyline is
    missing; with both, it is the home side when the home edge exceeds
    the threshold, else the away side when the away edge does, else
    [NoValue]. When the two probabilities sum to 1 and the implied
    probabilities of the two quotes to at least 1, the two edges never
    exceed the threshold together. *)
Theorem value_recommendation_sides (model_exists scaler_exists : bool)
    (home_team_name away_team_name : string)
    (home_moneyline away_moneyline : option Z) (game_date : option Z) (db : Db)
    (p : Prediction.t) (r : Recommendation) :
  generate_prediction_with_value upper predict_proba today model_exists
    scaler_exists home_team_name away_team_name home_moneyline away_moneyline
    game_date db = Returned (p, r) ->
  generate_prediction upper predict_proba today model_exists scaler_exists
    home_team_name away_team_name game_date db = Returned p
  /\ (home_moneyline = None \/ away_moneyline = None -> r = NoValue)
  /\ forall hm am,
       home_moneyline = Some hm -> away_moneyline = Some am ->
       let home_edge :=
         Prediction.home_win_probability p - moneyline_to_implied_prob hm in
       let away_edge :=
         Prediction.away_win_probability p - moneyline_to_implied_prob am in
       (VALUE_EDGE_THRESHOLD < home_edge -> r = BetHome home_team_name home_edge)
       /\ (home_edge <= VALUE_EDGE_THRESHOLD -> VALUE_EDGE_THRESHOLD < away_edge ->
           r = BetAway away_team_name away_edge)
       /\ (home_edge <= VALUE_EDGE_THRESHOLD -> away_edge <= VALUE_EDGE_THRESHOLD ->
           r = NoValue)
       /\ (Prediction.home_win_probability p + Prediction.away_win_probability p == 1 ->
           1 <= moneyline_to_implied_prob hm + moneyline_to_implied_prob am ->
           ~ (VALUE_EDGE_THRESHOLD < home_edge /\ VALUE_EDGE_THRESHOLD < away_edge)).
Proof.
  unfold generate_prediction_with_value.
  destruct (generate_prediction _ _ _ _ _ _ _ _ _) as [p'|e]; [|discriminate].
  cbn [mbind outcome_bind]. intros [= -> <-].
  split; [reflexivity|]. split.
  - intros [->| ->]; [reflexivity|]. now destruct home_moneyline.
  - intros hm am -> ->. cbv zeta.
    set (home_edge := Prediction.home_win_probability p - moneyline_to_implied_prob hm).
    set (away_edge := Prediction.away_win_probability p - moneyline_to_implied_prob am).
    split; [|split; [|split]].
    + intros H. apply Qgtb_true_iff in H. now rewrite H.
    + intros H1 H2. apply Qgtb_false_iff in H1. apply Qgtb_true_iff in H2.
      now rewrite H1, H2.
    + intros H1 H2. apply Qgtb_false_iff in H1, H2. now rewrite H1, H2.
    + intros Hsum Hvig (H1 & H2). unfold home_edge, away_edge in H1, H2.
      unfold VALUE_EDGE_THRESHOLD in H1, H2. Lqa.lra.
Qed.
End PredictionProperties.

(** ** The temporal split *)

Section TemporalSplit.

Lemma TRAIN_SEASONS_spec (s : Z) :
  existsb (Z.eqb s) TRAIN_SEASONS = true <-> 2010 <= s <= 2022.
Proof.
  unfold TRAIN_SEASONS. rewrite existsb_exists. split.
  - intros (x & Hin & Hx). apply Z.eqb_eq in Hx. subst x.
    apply in_map_iff in Hin. destruct Hin as (k & <- & Hk).
    apply in_seq in Hk. lia.
  - intros Hs. exists s. split; [|apply Z.eqb_refl].
    apply in_map_iff. exists (Z.to_nat (s - 2010)). split; [lia|].
    apply in_seq. lia.
Qed.

Lemma filter3_length {A : Type} (p q r : A -> bool) (l : list A) :
  (forall x, In x l ->
     (p x = true -> q x = false /\ r x = false) /\ (q x = true -> r x = false)) ->
  (length (List.filter p l) + length (List.filter q l) + length (List.filter r l)
   <= length l)%nat.
Proof.
  induction l as [|x l IH]; intros H; simpl; [lia|].
  assert (IH' := IH (fun y Hy => H y (or_intror Hy))).
  destruct (H x (or_introl eq_refl)) as (Hp & Hq).
  destruct (p x).
  - destruct (Hp eq_refl) as (-> & ->). simpl. lia.
  - destruct (q x).
    + rewrite (Hq eq_refl). simpl. lia.
    + destruct (r x); simpl; lia.
Qed.

(** X24. On the frame without rows, and so without columns, the split
    raises [KeyError] on the column [season]. On any other frame it is by
    season: the training set holds the rows of the seasons 2010 to 2022,
    the validation set those of 2023 and the test set those of 2024, each
    with its labels in row order; the test rows are the rows the backtest
    selects; and together the three sets are no longer than the table. *)
Theorem split_data_temporally_by_season (features_df : list FeatureRow.t) :
  (features_df = [] ->
   split_data_temporally features_df = Raise (KeyErrorStr "season"))
  /\ (features_df <> [] ->
      exists train_df val_df test_df,
        split_data_temporally features_df
        = Ok (map feature_columns train_df, map FeatureRow.target_did_win train_df,
              map feature_columns val_df, map FeatureRow.target_did_win val_df,
              map feature_columns test_df, map FeatureRow.target_did_win test_df)
        /\ (forall row, In row train_df <->
              In row features_df /\ 2010 <= FeatureRow.season row <= 2022)
        /\ (forall row, In row val_df <->
              In row features_df /\ FeatureRow.season row = 2023)
        /\ (forall row, In row test_df <->
              In row features_df /\ FeatureRow.season row = 2024)
        /\ test_df
           = List.filter (fun row => FeatureRow.season row =? TEST_SEASON) features_df
        /\ (length train_df + length val_df + length test_df
            <= length features_df)%nat).
Proof.
  split; [intros ->; reflexivity|]. intros Hf.
  unfold split_data_temporally. rewrite (match_nonempty features_df _ _ Hf).
  eexists. eexists. eexists. split; [reflexivity|].
  split; [|split; [|split; [|split]]].
  - intros row. rewrite filter_In, TRAIN_SEASONS_spec. reflexivity.
  - intros row. rewrite filter_In. unfold VAL_SEASON. now rewrite Z.eqb_eq.
  - intros row. rewrite filter_In. unfold TEST_SEASON. now rewrite Z.eqb_eq.
  - reflexivity.
  - apply filter3_length. intros row _. unfold VAL_SEASON, TEST_SEASON. split.
    + intros H. apply TRAIN_SEASONS_spec in H. split; apply Z.eqb_neq; lia.
    + intros H. apply Z.eqb_eq in H. apply Z.eqb_neq. lia.
Qed.
End TemporalSplit.

(** ** The pipelines *)

Section Pipelines.

Lemma sumZ_acc (l : list Z) : forall a : Z, fold_left Z.add l a = a + sumZ l.
Proof.
  unfold sumZ. induction l as [|x l IH]; intros a; simpl; [lia|].
  rewrite (IH (a + x)), (IH (0 + x)). lia.
Qed.

Lemma sumZ_cons (x : Z) (l : list Z) : sumZ (x :: l) = x + sumZ l.
Proof. unfold sumZ at 1. simpl. apply sumZ_acc. Qed.

Lemma sumZ_app (l1 l2 : list Z) : sumZ (l1 ++ l2) = sumZ l1 + sumZ l2.
Proof.
  induction l1 as [|x l1 IH]; simpl; [reflexivity|].
  rewrite !sumZ_cons, IH. lia.
Qed.

Lemma game_rows_season_filter (db : Db) (sel : Z -> bool) (g : Game.t) :
  List.filter (fun row => sel (FeatureRow.season row)) (game_rows db g)
  = if sel (Game.season g) then game_rows db g else [].
Proof.
  unfold game_rows.
  destruct (Game.home_score g); [|now destruct (sel _)].
  destruct (Game.away_score g); [|now destruct (sel _)].
  simpl. now destruct (sel (Game.season g)).
Qed.

(** The two rows of a game carry one label 1 between them. *)
Lemma game_rows_labels (db : Db) (g : Game.t) :
  sumZ (map FeatureRow.target_did_win (game_rows db g))
  = if has_result g then 1 else 0.
Proof.
  unfold game_rows, has_result.
  destruct (Game.home_score g) as [hs|]; [|reflexivity].
  destruct (Game.away_score g) as [aws|]; [|reflexivity].
  cbn [map FeatureRow.target_did_win]. rewrite !sumZ_cons.
  destruct (hs >? aws); reflexivity.
Qed.

(** The rows of the seasons that [sel] selects: two for each game with a
    result of these seasons, with one label 1 between them. *)
Lemma season_rows_of_games (db : Db) (sel : Z -> bool) (l : list Game.t) :
  length (List.filter (fun row => sel (FeatureRow.season row))
            (flat_map (game_rows db) l))
  = (2 * length (List.filter (fun g => has_result g && sel (Game.season g)) l))%nat
  /\ sumZ (map FeatureRow.target_did_win
             (List.filter (fun row => sel (FeatureRow.season row))
                (flat_map (game_rows db) l)))
     = Z.of_nat (length (List.filter (fun g => has_result g && sel (Game.season g)) l)).
Proof.
  induction l as [|g l (IHl & IHs)]; [split; reflexivity|].
  cbn [flat_map List.filter].
  rewrite List.filter_app, map_app, sumZ_app, length_app, game_rows_season_filter.
  rewrite IHl, IHs.
  destruct (sel (Game.season g)).
  - rewrite andb_true_r, game_rows_labels, game_rows_length.
    destruct (has_result g); cbn [length]; split; lia.
  - rewrite andb_false_r. cbn [length map]. split; [lia|reflexivity].
Qed.

Lemma season_rows_of_feature_set (db : Db) (sel : Z -> bool) :
  length (List.filter (fun row => sel (FeatureRow.season row))
            (create_feature_set db None))
  = (2 * length (List.filter (fun g => has_result g && sel (Game.season g))
                   (games db)))%nat
  /\ sumZ (map FeatureRow.target_did_win
             (List.filter (fun row => sel (FeatureRow.season row))
                (create_feature_set db None)))
     = Z.of_nat (length (List.filter (fun g => has_result g && sel (Game.season g))
                           (games db))).
Proof.
  assert (Hn : length (List.filter (fun g => has_result g && sel (Game.season g))
                         (games db))
               = length (List.filter (fun g => has_result g && sel (Game.season g))
                           (feature_games db None))).
  { unfold feature_games.
    rewrite (filter_length_perm _ _ _ (order_by_perm date_asc_leb _)).
    rewrite filter_filter_implied; [reflexivity|].
    intros g Hg. apply andb_true_iff in Hg. now apply has_result_completed. }
  rewrite Hn. apply season_rows_of_games.
Qed.

Lemma seasons_range_bool (lo hi s : Z) (b : bool) :
  (b = true <-> lo <= s <= hi) -> b = (lo <=? s) && (s <=? hi).
Proof.
  intros H. destruct b.
  - symmetry. apply andb_true_iff. rewrite Z.leb_le, Z.leb_le. now apply H.
  - symmetry. apply andb_false_iff.
    destruct (Z.leb_spec lo s); [|now left]. destruct (Z.leb_spec s hi); [|now right].
    assert (false = true) by (apply H; lia). discriminate.
Qed.

Lemma played_in_seasons_sel (lo hi : Z) (sel : Z -> bool) (db : Db) :
  (forall s, sel s = true <-> lo <= s <= hi) ->
  length (List.filter (fun g => has_result g && sel (Game.season g)) (games db))
  = played_in_seasons lo hi db.
Proof.
  intros H. unfold played_in_seasons. f_equal. apply filter_ext. intros g.
  rewrite (seasons_range_bool lo hi (Game.season g) _ (H (Game.season g))).
  now rewrite andb_assoc.
Qed.

Lemma filter_all_true {A : Type} (l : list A) : List.filter (fun _ => true) l = l.
Proof. induction l as [|x l IH]; simpl; [reflexivity|now rewrite IH]. Qed.

Lemma create_feature_set_no_result (db : Db) :
  create_feature_set db None = [] <->
  forall g, In g (games db) -> has_result g = false.
Proof.
  destruct (season_rows_of_feature_set db (fun _ => true)) as (Hlen & _).
  cbv beta in Hlen. rewrite filter_all_true in Hlen.
  split.
  - intros E g Hg. destruct (has_result g) eqn:Er; [|reflexivity].
    rewrite E in Hlen. simpl in Hlen.
    assert (Hin : In g (List.filter (fun g => has_result g && true) (games db)))
      by (apply filter_In; rewrite Er; auto).
    destruct (List.filter _ (games db)); [destruct Hin|simpl in Hlen; lia].
  - intros Hno.
    assert (E : List.filter (fun g => has_result g && true) (games db) = []).
    { destruct (List.filter _ (games db)) as [|g l] eqn:E; [reflexivity|].
      assert (Hin : In g (List.filter (fun g => has_result g && true) (games db)))
        by (rewrite E; now left).
      apply filter_In in Hin. destruct Hin as (Hg & Hr).
      rewrite (Hno g Hg) in Hr. discriminate. }
    rewrite E in Hlen. simpl in Hlen.
    destruct (create_feature_set db None); [reflexivity|discriminate].
Qed.

(** X25. The split of the full feature set of a database. When no game
    has both scores the frame has no columns and the split raises
    [KeyError] on the column [season]. Otherwise it returns, and it counts
    games: each partition holds two rows for every game with a result of
    its seasons (2010 to 2022, 2023, 2024) and none else, labels and
    features have the same length, and exactly one of the two labels of a
    game is 1, so that the labels of a partition sum to its number of
    games. *)
Theorem split_counts_games_and_balances_labels (db : Db) :
  ((forall g, In g (games db) -> has_result g = false) ->
   split_data_temporally (create_feature_set db None) = Raise (KeyErrorStr "season"))
  /\ ((exists g, In g (games db) /\ has_result g = true) ->
      exists X_train y_train X_val y_val X_test y_test,
        split_data_temporally (create_feature_set db None)
        = Ok (X_train, y_train, X_val, y_val, X_test, y_test)
        /\ length X_train = (2 * played_in_seasons 2010 2022 db)%nat
        /\ length y_train = length X_train
        /\ sumZ y_train = Z.of_nat (played_in_seasons 2010 2022 db)
        /\ length X_val = (2 * played_in_seasons 2023 2023 db)%nat
        /\ length y_val = length X_val
        /\ sumZ y_val = Z.of_nat (played_in_seasons 2023 2023 db)
        /\ length X_test = (2 * played_in_seasons 2024 2024 db)%nat
        /\ length y_test = length X_test
        /\ sumZ y_test = Z.of_nat (played_in_seasons 2024 2024 db)).
Proof.
  split.
  { intros Hno. apply create_feature_set_no_result in Hno. now rewrite Hno. }
  intros (g0 & Hg0 & Hr0).
  assert (Hf : create_feature_set db None <> []).
  { intros E. rewrite create_feature_set_no_result in E.
    rewrite (E g0 Hg0) in Hr0. discriminate. }
  unfold split_data_temporally. rewrite (match_nonempty _ _ _ Hf).
  do 6 eexists. split; [reflexivity|].
  destruct (season_rows_of_feature_set db (fun s => existsb (Z.eqb s) TRAIN_SEASONS))
    as (H1 & H2).
  destruct (season_rows_of_feature_set db (fun s => s =? VAL_SEASON)) as (H3 & H4).
  destruct (season_rows_of_feature_set db (fun s => s =? TEST_SEASON)) as (H5 & H6).
  assert (E1 := played_in_seasons_sel 2010 2022
                  (fun s => existsb (Z.eqb s) TRAIN_SEASONS) db TRAIN_SEASONS_spec).
  assert (E2 : forall s, (s =? VAL_SEASON) = true <-> 2023 <= s <= 2023)
    by (intros s; unfold VAL_SEASON; rewrite Z.eqb_eq; lia).
  assert (E3 : forall s, (s =? TEST_SEASON) = true <-> 2024 <= s <= 2024)
    by (intros s; unfold TEST_SEASON; rewrite Z.eqb_eq; lia).
  apply (played_in_seasons_sel 2023 2023 (fun s => s =? VAL_SEASON) db) in E2.
  apply (played_in_seasons_sel 2024 2024 (fun s => s =? TEST_SEASON) db) in E3.
  cbv beta in E1, E2, E3, H1, H2, H3, H4, H5, H6.
  rewrite E1 in H1, H2. rewrite E2 in H3, H4. rewrite E3 in H5, H6.
  rewrite !length_map. repeat split; assumption.
Qed.

Lemma game_rows_In (db : Db) (g : Game.t) (row : FeatureRow.t) :
  In row (game_rows db g) ->
  has_result g = true
  /\ FeatureRow.game_id row = Game.game_id g
  /\ FeatureRow.season row = Game.season g
  /\ ((FeatureRow.is_home row = 1
       /\ FeatureRow.team_id row = Game.home_team_id g
       /\ FeatureRow.opponent_id row = Game.away_team_id g)
      \/ (FeatureRow.is_home row = 0
          /\ FeatureRow.team_id row = Game.away_team_id g
          /\ FeatureRow.opponent_id row = Game.home_team_id g)).
Proof.
  unfold game_rows, has_result.
  destruct (Game.home_score g); [|intros []].
  destruct (Game.away_score g); [|intros []].
  intros [<-|[<-|[]]]; simpl; auto 10.
Qed.

Lemma filter_length_Forall2 {A : Type} (R' : A -> A -> Prop) (p : A -> bool)
    (l l' : list A) :
  (forall x x', R' x x' -> p x' = p x) ->
  Forall2 R' l l' -> length (List.filter p l') = length (List.filter p l).
Proof.
  intros H. induction 1 as [|x x' l l' Hx _ IH]; simpl; [reflexivity|].
  rewrite (H x x' Hx). destruct (p x); simpl; now rewrite IH.
Qed.

(** What a rating pass that returns does to the tables the backtest reads. *)
Lemma calculate_elo_ratings_tables (db db' : Db) :
  List.NoDup (game_ids db) ->
  calculate_elo_ratings db = Ok db' ->
  Forall2 stamped_of (games db) (games db') /\ odds_table db' = odds_table db.
Proof.
  intros Hnd Hcalc. unfold calculate_elo_ratings in Hcalc.
  destruct (elo_loop (init_elo_ratings (teams db)) (order_by date_id_leb (games db)))
    as [[stamped final]|] eqn:Hloop; [|discriminate].
  simpl in Hcalc. inversion Hcalc; subst db'; clear Hcalc. simpl.
  split; [|reflexivity]. eapply commit_games_stamped_of; eauto.
Qed.

(** X26. With distinct game keys, a backtest that returns a result has
    bet only on games of the table that have a result and are of the
    test season, on their home or their away side, and the number of
    bets is at most twice the number of such games. *)
Theorem run_backtest_bets_on_test_season_games
    (model_win_proba : FeatureRow.t -> Q) (model_exists scaler_exists : bool)
    (db : Db) (sim : Simulation) :
  List.NoDup (game_ids db) ->
  run_backtest model_win_proba model_exists scaler_exists db = Ok (Some sim) ->
  total_bets sim <= 2 * Z.of_nat (played_in_seasons 2024 2024 db)
  /\ List.Forall
       (fun b =>
          exists g,
            In g (games db)
            /\ Game.game_id g = Bet.game_id b
            /\ Game.season g = TEST_SEASON
            /\ has_result g = true
            /\ ((Bet.is_home b = 1
                 /\ Bet.team_id b = Game.home_team_id g
                 /\ Bet.opponent_id b = Game.away_team_id g)
                \/ (Bet.is_home b = 0
                    /\ Bet.team_id b = Game.away_team_id g
                    /\ Bet.opponent_id b = Game.home_team_id g)))
       (bets_placed sim).
Proof.
  intros Hnd Hrun. unfold run_backtest in Hrun.
  destruct (negb model_exists || negb scaler_exists); [discriminate|].
  destruct (calculate_elo_ratings db) as [db'|e] eqn:Hcalc; [|discriminate].
  cbn [mbind result_bind] in Hrun.
  destruct (calculate_elo_ratings_tables db db' Hnd Hcalc) as (Hst & _).
  destruct (run_returns_inv _ _ _ _ _ _ _ Hrun) as (_ & _ & _ & ->).
  cbn [total_bets bets_placed].
  set (test_df := List.filter _ (create_feature_set db' None)).
  set (bets := List.filter _ test_df).
  assert (Hbt : (length bets <= length test_df)%nat) by apply filter_length_le.
  split.
  - destruct (season_rows_of_feature_set db' (fun s => s =? TEST_SEASON)) as (Hlen & _).
    assert (E : forall s, (s =? TEST_SEASON) = true <-> 2024 <= s <= 2024)
      by (intros s; unfold TEST_SEASON; rewrite Z.eqb_eq; lia).
    apply (played_in_seasons_sel 2024 2024 (fun s => s =? TEST_SEASON) db') in E.
    cbv beta in E, Hlen. rewrite E in Hlen. fold test_df in Hlen.
    assert (Hsame : played_in_seasons 2024 2024 db' = played_in_seasons 2024 2024 db).
    { unfold played_in_seasons. apply (filter_length_Forall2 stamped_of); [|exact Hst].
      intros x x' (rh & ra & ->). reflexivity. }
    lia.
  - apply List.Forall_forall. intros b Hb. apply in_map_iff in Hb.
    destruct Hb as (row & <- & Hrow).
    apply filter_In in Hrow. destruct Hrow as (Hrow & _).
    apply filter_In in Hrow. destruct Hrow as (Hrow & Hseason).
    apply Z.eqb_eq in Hseason.
    unfold create_feature_set in Hrow. apply in_flat_map in Hrow.
    destruct Hrow as (g' & Hg' & Hrow).
    apply feature_games_In in Hg'. destruct Hg' as (Hg' & _).
    destruct (Forall2_In_right _ _ _ _ Hst Hg') as (g & Hg & (rh & ra & ->)).
    apply game_rows_In in Hrow. destruct Hrow as (Hres & Hid & Hs & Hside).
    exists g. cbn in Hres, Hid, Hs, Hside. cbn [spec_ledger_line Bet.game_id
      Bet.team_id Bet.opponent_id Bet.is_home].
    split; [exact Hg|]. split; [now rewrite Hid|]. split; [congruence|].
    split; [exact Hres|exact Hside].
Qed.
End Pipelines.

(** ** The rating pass on the games table *)

Section RatingPassOnTable.
Local Open Scope R_scope.

(** C1. [calculate_elo_ratings] on a table with distinct keys, at any
    place [l1 ++ g :: l2] of the order of the pass. When the games [l1]
    leave the rating table [elo1], with [rh] for the home team and [ra]
    for the away team of [g], the table the pass commits holds [g] stamped
    with [rh] and [ra], whether or not [g] has a result, and no other row
    of that key. With a result the two ratings are rewritten, each by [K]
    times its own actual score (1 and 0 for a decisive result, 1/2 and 1/2
    for a tie) less its own expected score, the expected home score being
    [1 / (1 + 10 ^ ((ra - (rh + HOME_ADV)) / 400))] and the expected away
    score one less it; without a result the table is unchanged; and the
    pass goes on from that table. Floats are taken as exact reals. *)
Theorem elo_pass_stamps_then_updates
    (db db' : Db) (l1 l2 : list Game.t) (g : Game.t) :
  List.NoDup (game_ids db) ->
  calculate_elo_ratings db = Ok db' ->
  order_by date_id_leb (games db) = l1 ++ g :: l2 ->
  exists out1 elo1 rh ra,
    elo_loop (init_elo_ratings (teams db)) l1 = Ok (out1, elo1)
    /\ elo1 !! Game.home_team_id g = Some rh
    /\ elo1 !! Game.away_team_id g = Some ra
    /\ In (stamp g rh ra) (games db')
    /\ (forall g', In g' (games db') -> Game.game_id g' = Game.game_id g ->
                   g' = stamp g rh ra)
    /\ Game.home_team_pregame_elo (stamp g rh ra) = Some rh
    /\ Game.away_team_pregame_elo (stamp g rh ra) = Some ra
    /\ let expected_home :=
         1 / (1 + Rpower 10 ((ra - (rh + IZR ELO_HOME_ADVANTAGE)) / 400)) in
       let actual_home hs aws :=
         if Z.ltb aws hs then 1 else if Z.ltb hs aws then 0 else 1 / 2 in
       let actual_away hs aws :=
         if Z.ltb aws hs then 0 else if Z.ltb hs aws then 1 else 1 / 2 in
       let elo2 :=
         match Game.home_score g, Game.away_score g with
         | Some hs, Some aws =>
             <[Game.away_team_id g :=
                 ra + IZR ELO_K_FACTOR * (actual_away hs aws - (1 - expected_home))]>
               (<[Game.home_team_id g :=
                    rh + IZR ELO_K_FACTOR * (actual_home hs aws - expected_home)]> elo1)
         | _, _ => elo1
         end in
       elo_game elo1 g = Ok (stamp g rh ra, elo2)
       /\ elo_loop (init_elo_ratings (teams db)) (order_by date_id_leb (games db)) =
          '(out2, final) ← elo_loop elo2 l2;
          Ok (out1 ++ stamp g rh ra :: out2, final).
Proof.
  intros Hnd Hcalc Hsplit.
  destruct (calculate_elo_ratings_inv _ _ Hcalc) as (stamped & final & Hloop & ->).
  destruct (committed_stamp db stamped final l1 l2 g Hnd Hloop Hsplit)
    as (out1 & elo1 & rh & ra & H1 & Hh & Ha & Hfind).
  assert (Hst := commit_games_stamped_of db stamped final Hnd Hloop).
  assert (Hg : In g (games db)).
  { apply (order_by_In date_id_leb). rewrite Hsplit. apply in_or_app. right. now left. }
  exists out1, elo1, rh, ra.
  split; [exact H1|]. split; [exact Hh|]. split; [exact Ha|].
  cbn [games]. split; [|split].
  - unfold commit_games. apply in_map_iff. exists g. split; [|exact Hg].
    rewrite Hfind. reflexivity.
  - intros g' Hg' Eid. unfold commit_games in Hg', Hst.
    apply in_map_iff in Hg'. destruct Hg' as (x & <- & Hx).
    assert (Hsx := Forall2_map_same_inv _ _ _ Hst x Hx). cbv beta in Hsx.
    assert (Ex : x = g).
    { apply (NoDup_map_inj_In Game.game_id (games db)); [exact Hnd|exact Hx|exact Hg|].
      rewrite <- Eid. symmetry. apply stamped_of_game_id. exact Hsx. }
    subst x. rewrite Hfind. reflexivity.
  - split; [reflexivity|]. split; [reflexivity|].
    assert (H := elo_loop_stamps_then_updates _ _ l1 l2 _ g rh ra H1 Hh Ha).
    cbv zeta in H |- *. destruct H as (Hstep & _ & _ & Hrest).
    split; [exact Hstep|]. rewrite Hsplit. exact Hrest.
Qed.
End RatingPassOnTable.

(** ** The rating changes on binary64 numbers *)

Section RatingChangesRounded.

End RatingChangesRounded.

(** ** The further properties on the sample data *)

Section FurtherSampleData.

(** C1 on the league: the first game is committed with the stamps
    1500/1500 and leaves the rating table [league_ratings]. *)
Lemma elo_pass_stamps_then_updates_witness :
  exists elo',
    In (stamp lal_bos 1500 1500) (games league_db_rated)
    /\ elo_game (init_elo_ratings [lakers; celtics]) lal_bos
       = Ok (stamp lal_bos 1500 1500, elo')
    /\ elo' = league_ratings.
Proof.
  destruct (elo_pass_stamps_then_updates league_db league_db_rated [] [] lal_bos)
    as (out1 & elo1 & rh & ra & H1 & Hh & Ha & Hin & _ & _ & _ & Hstep & _).
  - repeat constructor. simpl. tauto.
  - reflexivity.
  - reflexivity.
  - injection H1 as <- <-.
    injection Hh as <-. injection Ha as <-.
    eexists. split; [exact Hin|]. split; [exact Hstep|]. reflexivity.
Defined.

(** X2 on the first game of the league: the Lakers win at home. *)
Lemma decisive_game_raises_winner_lowers_loser_witness :
  exists gain loss elo',
    (0 < gain < IZR ELO_K_FACTOR)%R
    /\ (0 < loss < IZR ELO_K_FACTOR)%R
    /\ elo_game (init_elo_ratings [lakers; celtics]) lal_bos
       = Ok (stamp lal_bos 1500 1500, elo')
    /\ elo' !! 1 = Some (1500 + gain)%R
    /\ elo' !! 2 = Some (1500 - loss)%R.
Proof.
  destruct (decisive_game_raises_winner_lowers_loser
              (init_elo_ratings [lakers; celtics]) lal_bos 1500 1500 110 102)
    as (gain & loss & elo' & Hgain & Hloss & Hg & Hh & Ha & _).
  - reflexivity.
  - reflexivity.
  - simpl. lia.
  - reflexivity.
  - reflexivity.
  - lia.
  - exists gain, loss, elo'. split; [exact Hgain|]. split; [exact Hloss|].
    split; [exact Hg|]. split; [exact Hh|exact Ha].
Defined.

(** X3 on the league. *)
Lemma calculate_elo_ratings_writes_stamps_only_witness :
  teams league_db_rated = teams league_db
  /\ odds_table league_db_rated = odds_table league_db
  /\ Forall2 stamped_of (games league_db) (games league_db_rated).
Proof.
  destruct (calculate_elo_ratings_writes_stamps_only league_db league_db_rated)
    as (Ht & _ & Ho & Hg & _).
  - repeat constructor. simpl. tauto.
  - reflexivity.
  - split; [exact Ht|]. split; [exact Ho|exact Hg].
Defined.

(** X4 on the league: a second pass on the rated league changes nothing. *)
Lemma calculate_elo_ratings_idempotent_witness :
  calculate_elo_ratings league_db_rated = Ok league_db_rated.
Proof.
  apply (calculate_elo_ratings_idempotent league_db league_db_rated).
  - repeat constructor. simpl. tauto.
  - reflexivity.
Defined.

(** X5 on the rated league. *)
Lemma get_current_elo_returns_on_rated_db_witness :
  exists v, get_current_elo league_db_rated 2 = Ok (Some v).
Proof.
  destruct (get_current_elo_returns_on_rated_db league_db league_db_rated)
    as (Hget & _).
  - repeat constructor. simpl. tauto.
  - reflexivity.
  - exact (Hget 2).
Defined.

(** X6 on the league: the rating table has the two teams. *)
Lemma ratings_after_pass_keys_and_idle_teams_witness :
  is_Some (league_ratings !! 1) /\ ~ is_Some (league_ratings !! 3).
Proof.
  destruct (ratings_after_pass_keys_and_idle_teams league_db league_ratings)
    as (Hkeys & _).
  - reflexivity.
  - split.
    + apply Hkeys. simpl. auto.
    + intros H. apply Hkeys in H. simpl in H. lia.
Defined.

(** X11 on the home row of the first game of the league. *)
Lemma feature_row_labels_witness :
  exists row,
    In row (create_feature_set league_db None)
    /\ (FeatureRow.target_did_win row = 0 \/ FeatureRow.target_did_win row = 1)
    /\ (0 < FeatureRow.target_win_margin row -> FeatureRow.target_did_win row = 1).
Proof.
  eexists. split; [left; reflexivity|].
  match goal with |- (FeatureRow.target_did_win ?row = 0 \/ _) /\ _ =>
    destruct (feature_row_labels league_db None row) as (_ & Hw & Hm & _);
      [left; reflexivity|]
  end.
  split; [exact Hw|exact Hm].
Defined.

(** X12 on the season: the return game, played and recorded later, leaves
    the stamps and the rows of the first game as they are after the
    rating pass. *)
Lemma training_rows_see_no_later_game_witness :
  exists rated rated' s,
    calculate_elo_ratings season_db = Ok rated
    /\ calculate_elo_ratings season_db_later = Ok rated'
    /\ stamped_of lal_bos s
    /\ In s (games rated)
    /\ In s (games rated')
    /\ game_rows rated' s = game_rows rated s
    /\ rows_of_game (Game.game_id lal_bos) (create_feature_set rated' None)
       = rows_of_game (Game.game_id lal_bos) (create_feature_set rated None).
Proof.
  assert (Hcalc : exists rated, calculate_elo_ratings season_db = Ok rated)
    by (eexists; reflexivity).
  assert (Hcalc' : exists rated', calculate_elo_ratings season_db_later = Ok rated')
    by (eexists; reflexivity).
  destruct Hcalc as (rated & Hcalc), Hcalc' as (rated' & Hcalc').
  destruct (training_rows_see_no_later_game season_db season_db_later rated rated'
              None lal_bos) as (s & Hs).
  - repeat constructor; simpl; [intros [H|[]]; discriminate H|tauto].
  - reflexivity.
  - simpl. auto.
  - apply inserted_new; [reflexivity|].
    apply inserted_keep, inserted_nil.
  - apply inserted_keep.
    apply inserted_new; [simpl; intros [H|[]]; discriminate H|].
    apply inserted_keep.
    apply inserted_new; [simpl; intros [H|[]]; discriminate H|].
    apply inserted_nil.
  - exact Hcalc.
  - exact Hcalc'.
  - exists rated, rated', s. split; [exact Hcalc|]. split; [exact Hcalc'|exact Hs].
Defined.

(** X16 on the three-row test set: stakes of 100 and of 30. *)
Lemma roi_does_not_depend_on_stake_witness :
  exists sim1 sim2,
    run_profitability_simulation test_model test_odds [row_a; row_b; row_c]
      2024 (3 # 100) (100 # 1) = Ok (Some sim1)
    /\ run_profitability_simulation test_model test_odds [row_a; row_b; row_c]
         2024 (3 # 100) (30 # 1) = Ok (Some sim2)
    /\ (roi sim2 == roi sim1)%Q
    /\ win_rate sim2 = win_rate sim1.
Proof.
  eexists.
  destruct (roi_does_not_depend_on_stake test_model test_odds [row_a; row_b; row_c]
              2024 (3 # 100)%Q (100 # 1)%Q (30 # 1)%Q _ eq_refl)
    as (sim2 & Hrun & _ & _ & _ & Hwr & Hroi & _).
  - intros H. discriminate H.
  - exists sim2. split; [reflexivity|]. split; [exact Hrun|]. split; [exact Hroi|exact Hwr].
Defined.

(** X17 on the three-row test set. *)
Lemma ledger_adds_up_to_totals_witness :
  exists sim,
    run_profitability_simulation test_model test_odds [row_a; row_b; row_c]
      2024 (3 # 100) (100 # 1) = Ok (Some sim)
    /\ total_bets sim = Z.of_nat (length (bets_placed sim))
    /\ total_profit sim = sumQ (map Bet.profit (bets_placed sim)).
Proof.
  eexists. split; [reflexivity|].
  destruct (ledger_adds_up_to_totals test_model test_odds [row_a; row_b; row_c]
              2024 (3 # 100)%Q (100 # 1)%Q _ eq_refl)
    as (Hb & _ & _ & _ & _ & Hp & _).
  split; [exact Hb|exact Hp].
Defined.

(** X18 on the three-row test set: thresholds of 0.03 and of 0.08. *)
Lemma stricter_threshold_places_no_new_bet_witness :
  exists sim1 sim2,
    run_profitability_simulation test_model test_odds [row_a; row_b; row_c]
      2024 (3 # 100) (100 # 1) = Ok (Some sim1)
    /\ run_profitability_simulation test_model test_odds [row_a; row_b; row_c]
         2024 (8 # 100) (100 # 1) = Ok (Some sim2)
    /\ total_bets sim2 <= total_bets sim1
    /\ incl (bets_placed sim2) (bets_placed sim1).
Proof.
  eexists.
  destruct (stricter_threshold_places_no_new_bet test_model test_odds
              [row_a; row_b; row_c] 2024 (3 # 100)%Q (8 # 100)%Q (100 # 1)%Q _ eq_refl)
    as (sim2 & Hrun & Hle & Hincl).
  - unfold Qle. simpl. lia.
  - exists sim2. split; [reflexivity|]. split; [exact Hrun|].
    split; [exact Hle|exact Hincl].
Defined.

(** X21 on the rated league: the Lakers at home against the Celtics,
    looked up by name and by abbreviation, with a model that gives the
    home team 65 in 100. *)
Lemma prediction_reads_the_model_witness :
  exists p,
    generate_prediction ascii_upper sample_proba 738950 true true
      "Los Angeles Lakers" "bos" None league_db_rated = Returned p
    /\ Prediction.predicted_winner p = Prediction.home_team p
    /\ Prediction.confidence p = Medium.
Proof.
  eexists. split; [reflexivity|].
  destruct (prediction_reads_the_model ascii_upper sample_proba 738950 true true
              "Los Angeles Lakers" "bos" None league_db_rated _ eq_refl)
    as (_ & _ & Hw & _ & _ & Hm & _).
  split.
  - apply Hw. reflexivity.
  - apply Hm. right. split; [reflexivity|]. unfold Qle. simpl. lia.
Defined.

(** X22 on the rated league: a game of the two teams on the day of the
    prediction. *)
Lemma prediction_form_columns_match_training_witness :
  exists p home_row away_row,
    generate_prediction ascii_upper sample_proba 738950 true true
      "Los Angeles Lakers" "bos" None league_db_rated = Returned p
    /\ game_rows league_db_rated
         (Game.mk "2024-03-05-LAL-BOS" 738950 1 2 (Some 100) (Some 90) 2024 None None)
       = [home_row; away_row]
    /\ feature_columns home_row
       = with_elo_columns (Prediction.features p)
           (FeatureRow.team_elo home_row) (FeatureRow.opponent_elo home_row)
           (FeatureRow.elo_diff home_row).
Proof.
  eexists.
  destruct (prediction_form_columns_match_training ascii_upper sample_proba 738950
              true true "Los Angeles Lakers" "bos" None league_db_rated _
              lakers celtics
              (Game.mk "2024-03-05-LAL-BOS" 738950 1 2 (Some 100) (Some 90) 2024
                 None None)
              100 90 eq_refl eq_refl eq_refl eq_refl eq_refl eq_refl eq_refl eq_refl)
    as (home_row & away_row & Hrows & Hcols).
  exists home_row, away_row. split; [reflexivity|]. split; [exact Hrows|exact Hcols].
Defined.

(** X23 on the rated league: quotes of -150 and +130 give the home side an
    edge of 0.05. *)
Lemma value_recommendation_sides_witness :
  exists p r,
    generate_prediction_with_value ascii_upper sample_proba 738950 true true
      "Los Angeles Lakers" "bos" (Some (-150)) (Some 130) None league_db_rated
    = Returned (p, r)
    /\ r = BetHome "Los Angeles Lakers"
             (Prediction.home_win_probability p - moneyline_to_implied_prob (-150))%Q.
Proof.
  eexists. eexists. split; [reflexivity|].
  destruct (value_recommendation_sides ascii_upper sample_proba 738950 true true
              "Los Angeles Lakers" "bos" (Some (-150)) (Some 130) None
              league_db_rated _ _ eq_refl)
    as (_ & _ & H).
  destruct (H (-150) 130 eq_refl eq_refl) as (Hh & _).
  apply Hh. reflexivity.
Defined.

(** X26 on the league with a quote on its game. *)
Lemma run_backtest_bets_on_test_season_games_witness :
  exists sim,
    run_backtest sample_model true true quoted_league_db = Ok (Some sim)
    /\ total_bets sim = 2
    /\ total_bets sim <= 2 * Z.of_nat (played_in_seasons 2024 2024 quoted_league_db).
Proof.
  eexists. split; [reflexivity|]. split; [reflexivity|].
  refine (proj1 (run_backtest_bets_on_test_season_games sample_model true true
                   quoted_league_db _ _ eq_refl)).
  repeat constructor. simpl. tauto.
Defined.
End FurtherSampleData.
